(** * Monthly revenue dashboard ([app.py]): normalisation, KPIs and formatters

    A shallow embedding of the data path of [app.py]: the formatters
    [fmt_money] and [fmt_pct], the running sum [compute_cum], the
    parser/validator [parse_dataframe], the built-in [SAMPLE] table and the
    part of the script that loads the table and extracts the KPIs, with the
    bar colours and marker lists of the charts and the preview table.

    Modelling conventions.
    - Python values are a tagged union [value] (str, int, float); a pandas
      column is the list of its values and a DataFrame is the ordered
      association list of its columns.  All columns of a frame have the same
      length, and column labels are distinct (both hold for every frame built
      by pandas from a file or a dict).
    - Python exceptions are explicit: fallible code returns [result].
    - float is IEEE binary64, computed with the [SpecFloat] operations at
      precision 53 and maximal exponent 1024.
    - Text is a string of bytes.  Column labels and messages are the UTF-8
      encoding of the Korean words of the source; the character classes used
      on cell text ([\d], white space) are the ASCII ones. *)

From Stdlib Require Import ZArith List String Ascii Bool Lia.
From Stdlib Require Import Sorted Permutation.
From Stdlib Require Import SpecFloat.
Import ListNotations.

Local Open Scope string_scope.
Local Open Scope Z_scope.
Local Open Scope list_scope.

Infix "+++" := String.append (at level 60, right associativity).

(** ** Exceptions and the error monad *)

Record exn := Exn { exn_class : string; exn_msg : string }.

Definition ValueError (msg : string) : exn := Exn "ValueError" msg.
Definition TypeError (msg : string) : exn := Exn "TypeError" msg.
Definition KeyError (msg : string) : exn := Exn "KeyError" msg.
Definition IndexError (msg : string) : exn := Exn "IndexError" msg.
Definition OverflowError (msg : string) : exn := Exn "OverflowError" msg.

Inductive result (A : Type) : Type :=
| Ok (a : A)
| Raise (e : exn).
Arguments Ok {A} a.
Arguments Raise {A} e.

Definition bind {A B : Type} (r : result A) (k : A -> result B) : result B :=
  match r with
  | Ok a => k a
  | Raise e => Raise e
  end.

Notation "x <- c1 ;; c2" := (bind c1 (fun x => c2))
  (at level 61, c1 at next level, right associativity).

Fixpoint mapM {A B : Type} (f : A -> result B) (l : list A) : result (list B) :=
  match l with
  | [] => Ok []
  | a :: l' => b <- f a ;; bs <- mapM f l' ;; Ok (b :: bs)
  end.

Fixpoint foldM {A B : Type} (f : B -> A -> result B) (l : list A) (b : B)
  : result B :=
  match l with
  | [] => Ok b
  | a :: l' => b' <- f b a ;; foldM f l' b'
  end.

(** ** Python text *)

Module PyStr.

Definition code (c : ascii) : Z := Z.of_N (N_of_ascii c).

Definition chr (n : Z) : ascii := ascii_of_N (Z.to_N n).

(** [str.isspace] on one ASCII character: TAB, LF, VT, FF, CR, the four
    separators FS, GS, RS, US and the space. *)
Definition is_space (c : ascii) : bool :=
  let n := code c in
  ((9 <=? n) && (n <=? 13)) || ((28 <=? n) && (n <=? 32)).

(** [\d] and C's [isdigit]. *)
Definition is_digit (c : ascii) : bool :=
  let n := code c in (48 <=? n) && (n <=? 57).

Definition digit_val (c : ascii) : Z := code c - 48.

Definition digit_char (d : Z) : ascii := chr (48 + d).

Fixpoint lstrip (s : string) : string :=
  match s with
  | String c s' => if is_space c then lstrip s' else s
  | EmptyString => EmptyString
  end.

Fixpoint rstrip (s : string) : string :=
  match s with
  | String c s' =>
      match rstrip s' with
      | EmptyString => if is_space c then EmptyString else String c EmptyString
      | r => String c r
      end
  | EmptyString => EmptyString
  end.

(** [s.strip()] *)
Definition strip (s : string) : string := rstrip (lstrip s).

(** [s.replace(c, empty)] for a one-character pattern [c]: every occurrence
    of [c] is deleted. *)
Fixpoint remove_char (c : ascii) (s : string) : string :=
  match s with
  | String a s' =>
      if Ascii.eqb a c then remove_char c s' else String a (remove_char c s')
  | EmptyString => EmptyString
  end.

(** [sep.join(l)] *)
Fixpoint join (sep : string) (l : list string) : string :=
  match l with
  | [] => EmptyString
  | [s] => s
  | s :: l' => s +++ sep +++ join sep l'
  end.

(** [s[-2:]] *)
Fixpoint last2 (s : string) : string :=
  match s with
  | String _ (String _ (String _ _) as s') => last2 s'
  | _ => s
  end.

(** [re.match(r"^\d{4}-\d{2}$", s)]: four digits, a hyphen, two digits; [$]
    matches at the end of the text and also just before a final newline. *)
Definition match_period (s : string) : bool :=
  match s with
  | String y1 (String y2 (String y3 (String y4 (String h
      (String m1 (String m2 rest)))))) =>
      is_digit y1 && is_digit y2 && is_digit y3 && is_digit y4
      && Ascii.eqb h "-"
      && is_digit m1 && is_digit m2
      && (String.eqb rest EmptyString
          || String.eqb rest (String (chr 10) EmptyString))
  | _ => false
  end.

(** Decimal digits of a natural number, most significant first. *)
Fixpoint digits_loop (fuel : nat) (n : Z) (acc : string) : string :=
  let acc' := String (digit_char (n mod 10)) acc in
  match fuel with
  | O => acc'
  | S fuel' => if n <? 10 then acc' else digits_loop fuel' (n / 10) acc'
  end.

Definition digits (n : Z) : string :=
  digits_loop (Z.to_nat (Z.log2 n)) n EmptyString.

(** [str(z)] for an int. *)
Definition str_of_int (z : Z) : string :=
  if z <? 0 then "-" +++ digits (- z) else digits z.

(** Value of a run of decimal digits in which single underscores may separate
    digits, as [int()] accepts them; [None] when the text is not such a run. *)
Fixpoint int_digits (acc : Z) (prev_digit : bool) (s : string) : option Z :=
  match s with
  | EmptyString => if prev_digit then Some acc else None
  | String c s' =>
      if is_digit c then int_digits (10 * acc + digit_val c) true s'
      else if Ascii.eqb c "_" && prev_digit then int_digits acc false s'
      else None
  end.

(** [int(s)] for a str: surrounding white space, an optional sign, digits. *)
Definition int_literal (s : string) : option Z :=
  match strip s with
  | String "-" s' => option_map Z.opp (int_digits 0 false s')
  | String "+" s' => int_digits 0 false s'
  | s' => int_digits 0 false s'
  end.

Definition hex_digit (d : Z) : ascii :=
  if d <? 10 then chr (48 + d) else chr (87 + d).

(** One character of [repr(s)] when [q] is the enclosing quote. *)
Definition repr_char (q : ascii) (c : ascii) : string :=
  let n := code c in
  if Ascii.eqb c "\" then "\\"
  else if Ascii.eqb c q then String "\" (String q EmptyString)
  else if n =? 9 then "\t"
  else if n =? 10 then "\n"
  else if n =? 13 then "\r"
  else if (n <? 32) || (n =? 127) then
    "\x" +++ String (hex_digit (n / 16)) (String (hex_digit (n mod 16)) EmptyString)
  else String c EmptyString.

Fixpoint contains_char (c : ascii) (s : string) : bool :=
  match s with
  | String a s' => Ascii.eqb a c || contains_char c s'
  | EmptyString => false
  end.

Fixpoint repr_body (q : ascii) (s : string) : string :=
  match s with
  | String c s' => repr_char q c +++ repr_body q s'
  | EmptyString => EmptyString
  end.

(** [repr(s)] for a str: single quotes unless the text has a single quote and
    no double quote. *)
Definition repr (s : string) : string :=
  let q : ascii :=
    if contains_char "'" s && negb (contains_char (chr 34) s) then chr 34
    else "'"%char in
  String q (repr_body q s) +++ String q EmptyString.



End PyStr.

(** ** Python numbers: int and IEEE binary64 float *)

Module PyNum.
Import PyStr.

Definition float : Type := spec_float.

Definition prec : Z := 53.
Definition emax : Z := 1024.

Definition nan : float := S754_nan.
Definition fzero : float := S754_zero false.

Definition fadd : float -> float -> float := SFadd prec emax.
Definition fltb : float -> float -> bool := SFltb.

Definition is_nan (f : float) : bool :=
  match f with S754_nan => true | _ => false end.

Definition is_finite (f : float) : bool :=
  match f with S754_zero _ | S754_finite _ _ _ => true | _ => false end.

Definition float_eqb (a b : float) : bool :=
  match a, b with
  | S754_zero s, S754_zero t => Bool.eqb s t
  | S754_infinity s, S754_infinity t => Bool.eqb s t
  | S754_nan, S754_nan => true
  | S754_finite s m e, S754_finite t n d =>
      Bool.eqb s t && Pos.eqb m n && Z.eqb e d
  | _, _ => false
  end.

(** The binary64 nearest to the integer [z] (ties to even), infinite when
    [z] is out of range. *)
Definition round_int (z : Z) : float := binary_normalize prec emax z 0 false.

(** [float(z)] *)
Definition float_of_int (z : Z) : result float :=
  let f := round_int z in
  if is_finite f then Ok f
  else Raise (OverflowError "int too large to convert to float").

(** The binary64 nearest to [(-1)^neg * m * 10^e10], for [0 <= m]: the value
    of a decimal literal. *)
Definition float_of_decimal (neg : bool) (m e10 : Z) : float :=
  if m =? 0 then S754_zero neg
  else if 0 <=? e10 then
    binary_normalize prec emax (cond_Zopp neg (m * 10 ^ e10)) 0 neg
  else
    let '(q, e, l) := SFdiv_core_binary prec emax m 0 (10 ^ (- e10)) 0 in
    binary_round_aux prec emax neg q e l.

(** Integer nearest to [num / den], ties to even. *)
Definition round_half_even (num den : Z) : Z :=
  let q := num / den in
  match 2 * (num mod den) ?= den with
  | Lt => q
  | Eq => if Z.even q then q else q + 1
  | Gt => q + 1
  end.

(** [int(f)]: truncation toward zero of the finite float [m * 2^e]. *)
Definition trunc_finite (s : bool) (m : positive) (e : Z) : Z :=
  let n := if 0 <=? e then Zpos m * 2 ^ e else Zpos m / 2 ^ (- e) in
  cond_Zopp s n.

Definition sign_text (s : bool) : string := if s then "-" else EmptyString.

(** *** Fixed-point formatting: the format specification [.1f] *)

(** [|x| * 10] rounded to the nearest integer, ties to even, for
    [|x| = m * 2^e]. *)
Definition tenths (m : positive) (e : Z) : Z :=
  if 0 <=? e then Zpos m * 2 ^ e * 10
  else round_half_even (Zpos m * 10) (2 ^ (- e)).

Definition fixed1 (n : Z) : string :=
  digits (n / 10) +++ "." +++ String (digit_char (n mod 10)) EmptyString.

Definition format_f1 (f : float) : string :=
  match f with
  | S754_nan => "nan"
  | S754_infinity s => sign_text s +++ "inf"
  | S754_zero s => sign_text s +++ "0.0"
  | S754_finite s m e => sign_text s +++ fixed1 (tenths m e)
  end.

(** *** Thousands grouping: the format specification [,] on an int *)

Fixpoint group3 (ds : string) : string :=
  match ds with
  | String c ds' =>
      let n := Z.of_nat (String.length ds') in
      if (0 <? n) && (n mod 3 =? 0) then String c ("," +++ group3 ds')
      else String c (group3 ds')
  | EmptyString => EmptyString
  end.

Definition format_grouped (z : Z) : string :=
  if z <? 0 then "-" +++ group3 (digits (- z)) else group3 (digits z).

(** *** [repr] of a float: the shortest decimal that reads back as the float *)

(** [floor (num / den / 10^q)] *)
Definition floor_scaled (num den q : Z) : Z :=
  if 0 <=? q then num / (den * 10 ^ q) else (num * 10 ^ (- q)) / den.

(** The decimal exponent [k] of [num / den]: [10^k <= num / den < 10^(k+1)]. *)
Fixpoint exponent_up (fuel : nat) (num den k : Z) : Z :=
  match fuel with
  | O => k
  | S fuel' =>
      if 1 <=? floor_scaled num den (k + 1)
      then exponent_up fuel' num den (k + 1) else k
  end.

Definition decimal_exponent (num den : Z) : Z :=
  exponent_up 4 num den ((Z.log2 num - Z.log2 den) * 30103 / 100000 - 1).

(** Is [c * 10^q] nearer to [num / den] than [(c + 1) * 10^q], or as near
    with [c] even? *)
Definition lower_is_nearer (num den c q : Z) : bool :=
  let '(a, b) :=
    if 0 <=? q then (2 * num, den * 10 ^ q) else (2 * num * 10 ^ (- q), den) in
  match a ?= (2 * c + 1) * b with
  | Lt => true
  | Eq => Z.even c
  | Gt => false
  end.

(** The decimal [(c, q)] with [p] significant digits that reads back as
    [m * 2^e], the nearer one first. *)
Definition candidate (m : positive) (e : Z) (num den k p : Z)
  : option (Z * Z) :=
  let q := k + 1 - p in
  let lo := floor_scaled num den q in
  let x := S754_finite false m e in
  let reads_back c := float_eqb (float_of_decimal false c q) x in
  let '(c1, c2) :=
    if lower_is_nearer num den lo q then (lo, lo + 1) else (lo + 1, lo) in
  if reads_back c1 then Some (c1, q)
  else if reads_back c2 then Some (c2, q)
  else None.

Fixpoint shortest (fuel : nat) (m : positive) (e : Z) (num den k p : Z)
  : Z * Z :=
  match fuel with
  | O =>
      let q := k + 1 - p in
      let lo := floor_scaled num den q in
      (if lower_is_nearer num den lo q then lo else lo + 1, q)
  | S fuel' =>
      match candidate m e num den k p with
      | Some cq => cq
      | None => shortest fuel' m e num den k (p + 1)
      end
  end.

Fixpoint drop_zeros (fuel : nat) (c q : Z) : Z * Z :=
  match fuel with
  | O => (c, q)
  | S fuel' =>
      if (0 <? c) && (c mod 10 =? 0) then drop_zeros fuel' (c / 10) (q + 1)
      else (c, q)
  end.

Fixpoint zeros (n : nat) : string :=
  match n with
  | O => EmptyString
  | S n' => String "0" (zeros n')
  end.

Definition split_at (n : nat) (s : string) : string * string :=
  (String.substring 0 n s, String.substring n (String.length s - n) s).

(** Layout of the digits [ds] with the decimal point after [decpt] digits:
    scientific notation when [decpt] is above 16 or below -3. *)
Definition layout (ds : string) (decpt : Z) : string :=
  let n := Z.of_nat (String.length ds) in
  if (16 <? decpt) || (decpt <? -3) then
    let '(d, rest) := split_at 1 ds in
    let ex := decpt - 1 in
    let exd := digits (Z.abs ex) in
    d +++ (if String.eqb rest EmptyString then EmptyString else "." +++ rest)
      +++ "e" +++ (if ex <? 0 then "-" else "+")
      +++ (if Z.abs ex <? 10 then "0" +++ exd else exd)
  else if decpt <=? 0 then "0." +++ zeros (Z.to_nat (- decpt)) +++ ds
  else if decpt <? n then
    let '(a, b) := split_at (Z.to_nat decpt) ds in a +++ "." +++ b
  else ds +++ zeros (Z.to_nat (decpt - n)) +++ ".0".

Definition float_repr (f : float) : string :=
  match f with
  | S754_nan => "nan"
  | S754_infinity s => sign_text s +++ "inf"
  | S754_zero s => sign_text s +++ "0.0"
  | S754_finite s m e =>
      let '(num, den) :=
        if 0 <=? e then (Zpos m * 2 ^ e, 1) else (Zpos m, 2 ^ (- e)) in
      let k := decimal_exponent num den in
      let '(c, q) := shortest 16 m e num den k 1 in
      let '(c, q) := drop_zeros 17 c q in
      let ds := digits c in
      sign_text s +++ layout ds (Z.of_nat (String.length ds) + q)
  end.

End PyNum.

(** ** Python values *)

Import PyStr PyNum.

Inductive value : Type :=
| VStr (s : string)
| VInt (z : Z)
| VFloat (f : float).

Definition type_name (v : value) : string :=
  match v with
  | VStr _ => "str"
  | VInt _ => "int"
  | VFloat _ => "float"
  end.

(** [s += v] *)
Definition py_add (s v : value) : result value :=
  match s, v with
  | VInt a, VInt b => Ok (VInt (a + b))
  | VInt a, VFloat y => x <- float_of_int a ;; Ok (VFloat (fadd x y))
  | VFloat x, VInt b => y <- float_of_int b ;; Ok (VFloat (fadd x y))
  | VFloat x, VFloat y => Ok (VFloat (fadd x y))
  | VStr a, VStr b => Ok (VStr (a +++ b))
  | VStr _, _ =>
      Raise (TypeError ("can only concatenate str (not "
                          +++ String (chr 34) (type_name v)
                          +++ String (chr 34) ") to str"))
  | _, _ =>
      Raise (TypeError ("unsupported operand type(s) for +=: '"
                          +++ type_name s +++ "' and '" +++ type_name v
                          +++ "'"))
  end.

(** [int(x)] *)
Definition py_int (x : value) : result Z :=
  match x with
  | VInt z => Ok z
  | VFloat (S754_zero _) => Ok 0
  | VFloat (S754_finite s m e) => Ok (trunc_finite s m e)
  | VFloat S754_nan =>
      Raise (ValueError "cannot convert float NaN to integer")
  | VFloat (S754_infinity _) =>
      Raise (OverflowError "cannot convert float infinity to integer")
  | VStr s =>
      match int_literal s with
      | Some z => Ok z
      | None =>
          Raise (ValueError ("invalid literal for int() with base 10: "
                               +++ repr s))
      end
  end.

(** [str(x)] *)
Definition py_str (x : value) : string :=
  match x with
  | VStr s => s
  | VInt z => str_of_int z
  | VFloat f => float_repr f
  end.

(** [x > 0] *)
Definition py_positive (x : value) : result bool :=
  match x with
  | VInt z => Ok (0 <? z)
  | VFloat f => Ok (fltb fzero f)
  | VStr _ =>
      Raise (TypeError "'>' not supported between instances of 'str' and 'int'")
  end.

(** [format(x, ".1f")] *)
Definition py_format_f1 (x : value) : result string :=
  match x with
  | VInt z => f <- float_of_int z ;; Ok (format_f1 f)
  | VFloat f => Ok (format_f1 f)
  | VStr _ =>
      Raise (ValueError "Unknown format code 'f' for object of type 'str'")
  end.

(** ** The utilities of [app.py] *)

(** [[
def fmt_money(x):
    try:
        return f"{int(x):,}"
    except Exception:
        return str(x)
]] *)
Definition fmt_money (x : value) : string :=
  match py_int x with
  | Ok n => format_grouped n
  | Raise _ => py_str x
  end.

(** [[
def fmt_pct(x):
    s = f"{x:.1f}%"
    return f"+{s}" if x > 0 else s
]] *)
Definition fmt_pct (x : value) : result string :=
  body <- py_format_f1 x ;;
  let s := body +++ "%" in
  positive <- py_positive x ;;
  Ok (if positive then "+" +++ s else s).

(** [[
def compute_cum(values):
    out = []
    s = 0
    for v in values:
        s += v
        out.append(s)
    return out
]] *)
Fixpoint compute_cum_loop (s : value) (out : list value) (values : list value)
  : result (list value) :=
  match values with
  | [] => Ok out
  | v :: values' =>
      s' <- py_add s v ;;
      compute_cum_loop s' (out ++ [s']) values'
  end.

Definition compute_cum (values : list value) : result (list value) :=
  compute_cum_loop (VInt 0) [] values.

(** ** pandas: numeric coercion, [pd.to_numeric(column, errors="coerce")] *)

Module Numeric.

(** C's [isspace]. *)
Definition is_cspace (c : ascii) : bool :=
  let n := code c in ((9 <=? n) && (n <=? 13)) || (n =? 32).

Fixpoint skip_space (s : string) : string :=
  match s with
  | String c s' => if is_cspace c then skip_space s' else s
  | EmptyString => EmptyString
  end.

(** A run of digits: its value on top of [acc], its length on top of [n], and
    the text after it. *)
Fixpoint take_digits (acc n : Z) (s : string) : Z * Z * string :=
  match s with
  | String c s' =>
      if is_digit c then take_digits (10 * acc + digit_val c) (n + 1) s'
      else (acc, n, s)
  | EmptyString => (acc, n, s)
  end.

Definition take_sign (s : string) : bool * string :=
  match s with
  | String "-" s' => (true, s')
  | String "+" s' => (false, s')
  | _ => (false, s)
  end.

Definition lower (c : ascii) : ascii :=
  let n := code c in if (65 <=? n) && (n <=? 90) then chr (n + 32) else c.

Fixpoint lowercase (s : string) : string :=
  match s with
  | String c s' => String (lower c) (lowercase s')
  | EmptyString => EmptyString
  end.

(** A numeric literal: [(-1)^neg * m * 10^e10]; [whole] when the text has
    neither a decimal point nor an exponent. *)
Inductive literal : Type :=
| Decimal (whole neg : bool) (m e10 : Z)
| Infinity (neg : bool).

(** The exponent part, when the text starts with [e] or [E]: the exponent and
    the text after it; an [e] without digits is not consumed. *)
Definition take_exponent (s : string) : bool * Z * string :=
  match s with
  | String c s' =>
      if Ascii.eqb (lower c) "e" then
        let '(eneg, s1) := take_sign s' in
        let '(ev, n, s2) := take_digits 0 0 s1 in
        if n =? 0 then (false, 0, s) else (true, cond_Zopp eneg ev, s2)
      else (false, 0, s)
  | EmptyString => (false, 0, s)
  end.

Definition infinity_word (s : string) : option literal :=
  let w := lowercase s in
  if String.eqb w "inf" || String.eqb w "+inf"
     || String.eqb w "infinity" || String.eqb w "+infinity"
  then Some (Infinity false)
  else if String.eqb w "-inf" || String.eqb w "-infinity"
  then Some (Infinity true)
  else None.

(** The literal a text denotes: optional white space, an optional sign,
    digits with an optional decimal point (at least one digit), an optional
    exponent and optional white space; or one of the words for infinity.
    [None] for any other text. *)
Definition parse_number (s : string) : option literal :=
  let '(neg, s1) := take_sign (skip_space s) in
  let '(ip, n1, s2) := take_digits 0 0 s1 in
  let '(has_point, (m, n2, s3)) :=
    match s2 with
    | String "." s' => (true, take_digits ip 0 s')
    | _ => (false, (ip, 0, s2))
    end in
  let '(has_exp, ev, s4) := take_exponent s3 in
  if (0 <? n1 + n2) && String.eqb (skip_space s4) EmptyString
  then Some (Decimal (negb has_point && negb has_exp) neg m (ev - n2))
  else infinity_word s.

Definition literal_float (l : literal) : float :=
  match l with
  | Decimal _ neg m e10 => float_of_decimal neg m e10
  | Infinity neg => S754_infinity neg
  end.

Definition int64_min : Z := - 2 ^ 63.
Definition int64_max : Z := 2 ^ 63 - 1.

(** The int64 a literal denotes, when it is a whole number in range. *)
Definition literal_int64 (l : literal) : option Z :=
  match l with
  | Decimal true neg m _ =>
      let z := cond_Zopp neg m in
      if (int64_min <=? z) && (z <=? int64_max) then Some z else None
  | _ => None
  end.

(** One element of the column: a str is read as a literal, a number stands
    for itself; [None] is the element that cannot be read.  A whole number in
    the int64 range comes with its value as a float. *)
Inductive scalar : Type :=
| SInt (z : Z) (f : float)
| SFloat (f : float).

Definition read_scalar (v : value) : option scalar :=
  match v with
  | VStr s =>
      match parse_number s with
      | Some l =>
          Some match literal_int64 l with
               | Some z => SInt z (literal_float l)
               | None => SFloat (literal_float l)
               end
      | None => None
      end
  | VInt z =>
      Some (if (int64_min <=? z) && (z <=? int64_max) then SInt z (round_int z)
            else SFloat (round_int z))
  | VFloat f => Some (SFloat f)
  end.

Definition is_int (o : option scalar) : bool :=
  match o with Some (SInt _ _) => true | _ => false end.

(** [errors="coerce"]: the element that cannot be read becomes NaN. *)
Definition coerce_float (o : option scalar) : float :=
  match o with
  | Some (SInt _ f) => f
  | Some (SFloat f) => f
  | None => nan
  end.

Definition coerce_int (o : option scalar) : Z :=
  match o with Some (SInt z _) => z | _ => 0 end.

(** The column is int64 when every element is a whole number in the int64
    range, and float64 otherwise; a float is the correctly rounded value of
    its literal.  (pandas keeps whole numbers from [2^63] up to [2^64] in a
    uint64 column when no element is negative; here they are floats.) *)
Definition to_numeric (column : list value) : list value :=
  let scalars := map read_scalar column in
  if forallb is_int scalars then map (fun o => VInt (coerce_int o)) scalars
  else map (fun o => VFloat (coerce_float o)) scalars.

End Numeric.

(** ** pandas: frames and columns *)

Definition DataFrame : Type := list (string * list value).

(** [df.columns] *)
Definition columns (df : DataFrame) : list string := map fst df.

(** [c in df.columns] *)
Definition has_column (df : DataFrame) (c : string) : bool :=
  existsb (String.eqb c) (columns df).

Fixpoint lookup (df : DataFrame) (c : string) : option (list value) :=
  match df with
  | [] => None
  | (c', col) :: df' => if String.eqb c' c then Some col else lookup df' c
  end.

(** [df[c]] *)
Definition get_col (df : DataFrame) (c : string) : result (list value) :=
  match lookup df c with
  | Some col => Ok col
  | None => Raise (KeyError (repr c))
  end.

(** [df[c] = col]: the column is replaced in place, or added last. *)
Fixpoint set_col (df : DataFrame) (c : string) (col : list value) : DataFrame :=
  match df with
  | [] => [(c, col)]
  | (c', col') :: df' =>
      if String.eqb c' c then (c, col) :: df'
      else (c', col') :: set_col df' c col
  end.

(** [column.astype(str)] *)
Definition astype_str (col : list value) : list value :=
  map (fun v => VStr (py_str v)) col.

(** A method of the [.str] accessor, element by element; an element that is
    not a str gives NaN. *)
Definition str_method (f : string -> string) (col : list value) : list value :=
  map (fun v => match v with
                | VStr s => VStr (f s)
                | _ => VFloat nan
                end) col.

(** [column.str.match(r"^\d{4}-\d{2}$")], on a column of str. *)
Definition str_match_period (col : list value) : list bool :=
  map (fun v => match v with
                | VStr s => match_period s
                | _ => false
                end) col.

(** [column.astype(int)] *)
Definition astype_int (col : list value) : result (list value) :=
  mapM (fun v => z <- py_int v ;; Ok (VInt z)) col.

(** [column[~mask]] *)
Fixpoint select_not (mask : list bool) (col : list value) : list value :=
  match mask, col with
  | b :: mask', v :: col' =>
      if b then select_not mask' col' else v :: select_not mask' col'
  | _, _ => []
  end.

(** [repr(x)] *)
Definition py_repr (x : value) : string :=
  match x with
  | VStr s => repr s
  | _ => py_str x
  end.

(** [column.iloc[i]], negative positions counting from the end. *)
Definition iloc (col : list value) (i : Z) : result value :=
  let n := Z.of_nat (List.length col) in
  let j := if i <? 0 then n + i else i in
  if (0 <=? j) && (j <? n) then Ok (nth (Z.to_nat j) col (VFloat nan))
  else Raise (IndexError "single positional indexer is out-of-bounds").

(** *** [df.sort_values(by).reset_index(drop=True)]

    The rows are put in ascending order of the str in column [by], compared
    as Python compares str.  Rows with equal keys keep their original order.
    After [reset_index(drop=True)] the index is the row position, which is
    how the model addresses rows throughout. *)

Fixpoint insert_key (x : string * nat) (l : list (string * nat))
  : list (string * nat) :=
  match l with
  | [] => [x]
  | y :: l' =>
      if String.leb (fst x) (fst y) then x :: l else y :: insert_key x l'
  end.

Definition sort_keys (l : list (string * nat)) : list (string * nat) :=
  fold_right insert_key [] l.

(** [keys.argsort()] *)
Definition argsort (keys : list string) : list nat :=
  map snd (sort_keys (combine keys (seq 0 (List.length keys)))).

(** [column.take(order)] *)
Definition take (order : list nat) (col : list value) : list value :=
  map (fun i => nth i col (VFloat nan)) order.

Definition sort_values (df : DataFrame) (by_ : string) : result DataFrame :=
  keys <- get_col df by_ ;;
  let order := argsort (map py_str keys) in
  Ok (map (fun '(c, col) => (c, take order col)) df).

(** ** The parser and validator of [app.py] *)

Definition col_month : string := "월".
Definition col_revenue : string := "매출액".
Definition col_prior : string := "전년동월".
Definition col_change : string := "증감률".
Definition col_cumulative : string := "누적매출".
Definition col_month_number : string := "월번호".

Definition need_cols : list string :=
  [col_month; col_revenue; col_prior; col_change].

Definition numeric_cols : list string := [col_revenue; col_prior; col_change].

Definition missing_columns (df : DataFrame) : list string :=
  filter (fun c => negb (has_column df c)) need_cols.

Definition missing_message (missing : list string) : string :=
  "필수 컬럼 누락: " +++ join ", " missing.

Definition period_message (bad : list value) : string :=
  "월 형식(YYYY-MM) 오류 예: " +++ "[" +++ join ", " (map py_repr bad) +++ "]".

(** The body of the loop [for c in ["매출액", "전년동월", "증감률"]]. *)
Definition coerce_column (df : DataFrame) (c : string) : result DataFrame :=
  col <- get_col df c ;;
  let df :=
    set_col df c
      (str_method (remove_char " ")
         (str_method (remove_char ",") (astype_str col))) in
  col <- get_col df c ;;
  Ok (set_col df c (Numeric.to_numeric col)).

Definition parse_dataframe (df_raw : DataFrame) : result DataFrame :=
  let df := df_raw in
  let missing := missing_columns df in
  match missing with
  | _ :: _ => Raise (ValueError (missing_message missing))
  | [] =>
      df <- foldM coerce_column numeric_cols df ;;
      col <- get_col df col_month ;;
      let df := set_col df col_month (str_method strip (astype_str col)) in
      col <- get_col df col_month ;;
      let matched := str_match_period col in
      if negb (forallb (fun b => b) matched) then
        let bad := firstn 3 (select_not matched col) in
        Raise (ValueError (period_message bad))
      else
        df <- sort_values df col_month ;;
        revenue <- get_col df col_revenue ;;
        cum <- compute_cum revenue ;;
        let df := set_col df col_cumulative cum in
        col <- get_col df col_month ;;
        months <- astype_int (str_method last2 col) ;;
        Ok (set_col df col_month_number months)
  end.

(** ** The sample table *)

Definition SAMPLE : DataFrame :=
  [ (col_month,
      map VStr ["2024-01"; "2024-02"; "2024-03"; "2024-04"; "2024-05"]);
    (col_revenue,
      map VInt [12000000; 13500000; 11000000; 18000000; 21000000]);
    (col_prior,
      map VInt [10500000; 11200000; 12800000; 15200000; 18500000]);
    (col_change,
      map VFloat [ float_of_decimal false 143 (-1);
                   float_of_decimal false 205 (-1);
                   float_of_decimal true 141 (-1);
                   float_of_decimal false 184 (-1);
                   float_of_decimal false 135 (-1) ]) ].

(** ** pandas: reductions of a numeric column *)

Definition is_na (v : value) : bool :=
  match v with VFloat f => is_nan f | _ => false end.

Definition is_VInt (v : value) : bool :=
  match v with VInt _ => true | _ => false end.

(** The element as a float64, for a column that is not int64. *)
Definition as_float (v : value) : float :=
  match v with
  | VFloat f => f
  | VInt z => round_int z
  | VStr _ => nan
  end.

(** [a < b] on the elements of a numeric column. *)
Definition num_ltb (a b : value) : bool :=
  match a, b with
  | VInt x, VInt y => x <? y
  | _, _ => fltb (as_float a) (as_float b)
  end.

(** Position of the first element that no other element beats, NaN being
    skipped; [better a b] says that [a] beats [b]. *)
Fixpoint first_best (better : value -> value -> bool) (best : option (Z * value))
  (i : Z) (col : list value) : option (Z * value) :=
  match col with
  | [] => best
  | v :: col' =>
      let best' :=
        if is_na v then best
        else match best with
             | None => Some (i, v)
             | Some (_, b) => if better v b then Some (i, v) else best
             end in
      first_best better best' (i + 1) col'
  end.

(** [column.idxmax()]: NaN when the column has nothing but NaN. *)
Definition idxmax (col : list value) : result value :=
  match col with
  | [] => Raise (ValueError "attempt to get argmax of an empty sequence")
  | _ =>
      match first_best (fun a b => num_ltb b a) None 0 col with
      | Some (i, _) => Ok (VInt i)
      | None => Ok (VFloat nan)
      end
  end.

(** [column.idxmin()] *)
Definition idxmin (col : list value) : result value :=
  match col with
  | [] => Raise (ValueError "attempt to get argmin of an empty sequence")
  | _ =>
      match first_best num_ltb None 0 col with
      | Some (i, _) => Ok (VInt i)
      | None => Ok (VFloat nan)
      end
  end.

(** int64 arithmetic wraps around. *)
Definition wrap64 (z : Z) : Z := (z + 2 ^ 63) mod 2 ^ 64 - 2 ^ 63.

(** [column.sum()]: an int64 column is summed in int64; a float64 column is
    summed with NaN skipped (the default, [skipna=True]).  The float sum is
    taken in row order; pandas does not promise an order of summation. *)
Definition series_sum (col : list value) : value :=
  if forallb is_VInt col then
    VInt (wrap64 (fold_left Z.add (map (fun v => match v with
                                                 | VInt z => z
                                                 | _ => 0
                                                 end) col) 0))
  else
    VFloat (fold_left fadd
              (filter (fun f => negb (is_nan f)) (map as_float col)) fzero).

(** ** The script of [app.py]: loading and KPIs *)

(** [df.iloc[i]]: the row at a position, as a mapping from column to value. *)
Definition row_iloc (df : DataFrame) (i : Z) : result (list (string * value)) :=
  mapM (fun '(c, col) => v <- iloc col i ;; Ok (c, v)) df.

(** [row[c]] *)
Fixpoint row_get (row : list (string * value)) (c : string) : result value :=
  match row with
  | [] => Raise (KeyError (repr c))
  | (c', v) :: row' => if String.eqb c' c then Ok v else row_get row' c
  end.

(** [df.loc[i, c]], the index being the row position. *)
Definition loc (df : DataFrame) (i : Z) (c : string) : result value :=
  col <- get_col df c ;;
  if (0 <=? i) && (i <? Z.of_nat (List.length col))
  then Ok (nth (Z.to_nat i) col (VFloat nan))
  else Raise (KeyError (str_of_int i)).

(** The data loading block: the uploaded table when there is one and the
    sample toggle is off, the sample otherwise.  [uploaded] is the frame
    [pd.read_csv] makes of the uploaded file. *)
Definition load (uploaded : option DataFrame) (use_sample : bool)
  : result (DataFrame * DataFrame) :=
  let df_in :=
    match uploaded with
    | Some up => if negb use_sample then up else SAMPLE
    | None => SAMPLE
    end in
  df <- parse_dataframe df_in ;;
  Ok (df_in, df).

(** [f"{df['월'].iloc[0]} ~ {df['월'].iloc[-1]}"] *)
Definition date_range (df : DataFrame) : result string :=
  col <- get_col df col_month ;;
  first <- iloc col 0 ;;
  col <- get_col df col_month ;;
  final <- iloc col (-1) ;;
  Ok (py_str first +++ " ~ " +++ py_str final).

Record kpi : Type := Kpi {
  last : list (string * value);
  max_idx : Z;
  min_idx : Z;
  total : Z
}.

(** [[
last = df.iloc[-1]
max_idx = int(df["매출액"].idxmax())
min_idx = int(df["매출액"].idxmin())
total = int(df["매출액"].sum())
]] *)
Definition extract_kpi (df : DataFrame) : result kpi :=
  last <- row_iloc df (-1) ;;
  col <- get_col df col_revenue ;;
  i <- idxmax col ;;
  max_idx <- py_int i ;;
  col <- get_col df col_revenue ;;
  i <- idxmin col ;;
  min_idx <- py_int i ;;
  col <- get_col df col_revenue ;;
  total <- py_int (series_sum col) ;;
  Ok (Kpi last max_idx min_idx total).

(** The four [st.metric] tiles: value and help text. *)
Record tiles : Type := Tiles {
  k1 : string * string;
  k2 : string;
  k3 : string * string;
  k4 : string * string
}.

Definition render_tiles (df : DataFrame) (k : kpi) : result tiles :=
  revenue <- row_get (last k) col_revenue ;;
  month <- row_get (last k) col_month ;;
  let t1 := (fmt_money revenue +++ " 원", py_str month +++ " 기준") in
  change <- row_get (last k) col_change ;;
  t2 <- fmt_pct change ;;
  range <- date_range df ;;
  let t3 := (fmt_money (VInt (total k)) +++ " 원", range) in
  max_month <- loc df (max_idx k) col_month ;;
  min_month <- loc df (min_idx k) col_month ;;
  max_revenue <- loc df (max_idx k) col_revenue ;;
  min_revenue <- loc df (min_idx k) col_revenue ;;
  let t4 := (py_str max_month +++ " / " +++ py_str min_month,
             "최고 " +++ fmt_money max_revenue +++ " · 최저 "
               +++ fmt_money min_revenue) in
  Ok (Tiles t1 t2 t3 t4).

(** What a run of the script comes to: the page is rendered, or the run is
    stopped by [st.stop()] after [st.error(msg)], or an exception escapes. *)
Inductive outcome : Type :=
| Rendered (caption : string) (k : kpi) (t : tiles)
| Stopped (msg : string)
| Uncaught (e : exn).

(** The script from the data loading block to the KPI tiles.  The two CSV
    downloads and the charts read the table and do not change it. *)
Definition dashboard (uploaded : option DataFrame) (use_sample : bool)
  : outcome :=
  match load uploaded use_sample with
  | Raise e => Stopped ("데이터 해석 오류: " +++ exn_msg e)
  | Ok (df_in, df) =>
      match date_range df with
      | Raise e => Uncaught e
      | Ok range =>
          match extract_kpi df with
          | Raise e => Uncaught e
          | Ok k =>
              match render_tiles df k with
              | Raise e => Uncaught e
              | Ok t => Rendered ("기간: " +++ range) k t
              end
          end
      end
  end.

(** ** The script of [app.py]: chart data and preview table *)

(** [v < 0] *)
Definition py_negative (x : value) : result bool :=
  match x with
  | VInt z => Ok (z <? 0)
  | VFloat f => Ok (fltb f fzero)
  | VStr _ =>
      Raise (TypeError "'<' not supported between instances of 'str' and 'int'")
  end.

(** [len(df)]: the number of rows, which is the length of any column. *)
Definition frame_len (df : DataFrame) : nat :=
  match df with
  | [] => O
  | (_, col) :: _ => List.length col
  end.

(** [l[i] = x] on a list, negative positions counting from the end. *)
Definition setitem {A : Type} (l : list A) (i : Z) (x : A) : result (list A) :=
  let n := Z.of_nat (List.length l) in
  let j := if i <? 0 then n + i else i in
  if (0 <=? j) && (j <? n)
  then Ok (firstn (Z.to_nat j) l ++ x :: skipn (S (Z.to_nat j)) l)
  else Raise (IndexError "list assignment index out of range").

(** [["#ff6b6b" if v < 0 else "#7bd389" for v in df["증감률"]]]: the colours of
    the bars of chart 2. *)
Definition bar_colors (df : DataFrame) : result (list string) :=
  col <- get_col df col_change ;;
  mapM (fun v => negative <- py_negative v ;;
                 Ok (if negative then "#ff6b6b" else "#7bd389")) col.

(** The marker sizes and colours of chart 3:
[[
marker_sizes = [6] * len(df)
marker_colors = ["#1f77b4"] * len(df)
marker_sizes[max_idx] = 12; marker_colors[max_idx] = "#7bd389"
marker_sizes[min_idx] = 12; marker_colors[min_idx] = "#ff6b6b"
]] *)
Definition markers (df : DataFrame) (k : kpi)
  : result (list Z * list string) :=
  let marker_sizes := repeat 6 (frame_len df) in
  let marker_colors := repeat "#1f77b4" (frame_len df) in
  marker_sizes <- setitem marker_sizes (max_idx k) 12 ;;
  marker_colors <- setitem marker_colors (max_idx k) "#7bd389" ;;
  marker_sizes <- setitem marker_sizes (min_idx k) 12 ;;
  marker_colors <- setitem marker_colors (min_idx k) "#ff6b6b" ;;
  Ok (marker_sizes, marker_colors).

(** [df[cols]]: the frame of the named columns, in the order of [cols]. *)
Definition select (df : DataFrame) (cols : list string) : result DataFrame :=
  mapM (fun c => col <- get_col df c ;; Ok (c, col)) cols.

(** [column.map(f)] for a function that returns a str or raises. *)
Definition series_map (f : value -> result string) (col : list value)
  : result (list value) :=
  mapM (fun v => s <- f v ;; Ok (VStr s)) col.

(** The table of panel 6:
[[
df[["월","매출액","전년동월","증감률","누적매출"]].assign(
    매출액=lambda d: d["매출액"].map(fmt_money),
    전년동월=lambda d: d["전년동월"].map(fmt_money),
    증감률=lambda d: d["증감률"].map(fmt_pct),
    누적매출=lambda d: d["누적매출"].map(fmt_money),
)
]] *)
Definition preview (df : DataFrame) : result DataFrame :=
  d <- select df [col_month; col_revenue; col_prior; col_change;
                  col_cumulative] ;;
  col <- get_col d col_revenue ;;
  col <- series_map (fun v => Ok (fmt_money v)) col ;;
  let d := set_col d col_revenue col in
  col <- get_col d col_prior ;;
  col <- series_map (fun v => Ok (fmt_money v)) col ;;
  let d := set_col d col_prior col in
  col <- get_col d col_change ;;
  col <- series_map fmt_pct col ;;
  let d := set_col d col_change col in
  col <- get_col d col_cumulative ;;
  col <- series_map (fun v => Ok (fmt_money v)) col ;;
  Ok (set_col d col_cumulative col).

(** * Vocabulary of the properties *)

(** ** Steps and result of [parse_dataframe] *)

(** The text of a numeric cell once commas and spaces are deleted. *)
Definition clean_text (v : value) : string :=
  remove_char " " (remove_char "," (py_str v)).

(** The numeric column [parse_dataframe] makes of a raw column. *)
Definition clean_numbers (col : list value) : list value :=
  Numeric.to_numeric (map (fun v => VStr (clean_text v)) col).

(** The float a raw cell becomes in a float64 column. *)
Definition cell_float (v : value) : float :=
  Numeric.coerce_float (Numeric.read_scalar (VStr (clean_text v))).

(** The frame after the loop over the three numeric columns. *)
Definition coerced (df : DataFrame) (rev pri chg : list value) : DataFrame :=
  set_col (set_col (set_col df col_revenue (clean_numbers rev))
             col_prior (clean_numbers pri))
    col_change (clean_numbers chg).

(** The trimmed period labels of a raw period column. *)
Definition trimmed (mon : list value) : list string :=
  map (fun v => strip (py_str v)) mon.

(** The rows in sorted order. *)
Definition sorted_frame (df : DataFrame) (order : list nat) : DataFrame :=
  map (fun '(c, col) => (c, take order col)) df.

(** The table [parse_dataframe] returns, given the cumulative sums and the
    month numbers. *)
Definition normalized (df : DataFrame) (mon rev pri chg cum months : list value)
  : DataFrame :=
  let df2 := set_col (coerced df rev pri chg) col_month (map VStr (trimmed mon)) in
  let df3 := sorted_frame df2 (argsort (trimmed mon)) in
  set_col (set_col df3 col_cumulative cum) col_month_number months.

(** ** Order of the periods *)

Definition str_le (a b : string) : Prop := String.leb a b = true.
Definition str_lt (a b : string) : Prop := String.ltb a b = true.

Definition key_le (x y : string * nat) : Prop := str_le (fst x) (fst y).

(** The period labels in the order [sort_values] puts them. *)
Definition sorted_periods (ps : list string) : list string :=
  map fst (sort_keys (combine ps (seq 0 (List.length ps)))).

(** [l1] is [l2] with some elements left out, the others in the same order. *)
Inductive subsequence {A : Type} : list A -> list A -> Prop :=
| subseq_nil : subsequence [] []
| subseq_keep x l1 l2 : subsequence l1 l2 -> subsequence (x :: l1) (x :: l2)
| subseq_skip x l1 l2 : subsequence l1 l2 -> subsequence l1 (x :: l2).

(** ** Sums *)

(** The sum of a list of values, taken from zero in list order. *)
Definition sum_from_zero (l : list value) : result value :=
  foldM py_add l (VInt 0).


(** ** Columns of the returned table *)

Record normal_form (df t : DataFrame) (mon rev cum months : list value)
  : Prop := {
  nf_raw_month : get_col df col_month = Ok mon;
  nf_raw_revenue : get_col df col_revenue = Ok rev;
  nf_valid : forallb match_period (trimmed mon) = true;
  nf_cum :
    compute_cum (take (argsort (trimmed mon)) (clean_numbers rev)) = Ok cum;
  nf_months :
    astype_int (str_method last2 (map VStr (sorted_periods (trimmed mon))))
    = Ok months;
  nf_month : get_col t col_month = Ok (map VStr (sorted_periods (trimmed mon)));
  nf_revenue :
    get_col t col_revenue
    = Ok (take (argsort (trimmed mon)) (clean_numbers rev));
  nf_cumulative : get_col t col_cumulative = Ok cum;
  nf_month_number : get_col t col_month_number = Ok months
}.

(** ** Tables without rows *)

(** Every column of the frame is empty. *)
Definition zero_rows (df : DataFrame) : Prop :=
  Forall (fun cc => snd cc = []) df.

Definition out_of_bounds : exn :=
  IndexError "single positional indexer is out-of-bounds".

(** ** Shape of formatted text *)

Fixpoint all_digits (s : string) : bool :=
  match s with
  | String c s' => is_digit c && all_digits s'
  | EmptyString => true
  end.

(** A non-empty run of decimal digits. *)
Definition digit_string (s : string) : Prop :=
  s <> EmptyString /\ all_digits s = true.



(** ** Example tables *)

Definition only_months : DataFrame := [(col_month, [VStr "2024/01"])].


Definition shuffled : DataFrame :=
  [ (col_month, [VStr "2024-03 "; VStr "2023-12"; VStr " 2024-01"]);
    (col_revenue, [VStr "3,000"; VStr "1,000"; VStr "2 000"]);
    (col_prior, [VInt 1; VInt 2; VInt 3]);
    (col_change, [VStr "1.5"; VStr "-2"; VStr "0"]) ].

Definition thirteenth_month : DataFrame :=
  [ (col_month, [VStr "2024-13"; VStr "2024-00"]);
    (col_revenue, [VInt 10; VInt 20]);
    (col_prior, [VInt 10; VInt 20]);
    (col_change, [VInt 0; VInt 0]) ].

(** The table [pd.read_csv] makes of a file that has the header line only. *)
Definition header_only : DataFrame :=
  [ (col_month, []); (col_revenue, []); (col_prior, []); (col_change, []) ].

Definition noisy : DataFrame :=
  [ (col_month, [VStr "2024-02"; VStr "2024-01"; VStr "2024-03"]);
    (col_revenue, [VStr "1,000"; VStr "abc"; VStr "2 500"]);
    (col_prior, [VInt 10; VInt 20; VInt 30]);
    (col_change, [VFloat fzero; VFloat fzero; VFloat fzero]) ].

(** ** Shape of a frame *)

(** Every column of the frame has the same number of cells. *)
Definition rectangular (df : DataFrame) : Prop :=
  Forall (fun cc => List.length (snd cc) = frame_len df) df.

(** The last character of the text is white space. *)
Fixpoint ends_with_space (s : string) : bool :=
  match s with
  | EmptyString => false
  | String c EmptyString => is_space c
  | String _ s' => ends_with_space s'
  end.

(** Four digits, a hyphen and two digits, and nothing else. *)
Definition is_period (p : string) : Prop :=
  exists y1 y2 y3 y4 m1 m2,
    p = String y1 (String y2 (String y3 (String y4
          (String "-" (String m1 (String m2 EmptyString))))))
    /\ is_digit y1 = true /\ is_digit y2 = true /\ is_digit y3 = true
    /\ is_digit y4 = true /\ is_digit m1 = true /\ is_digit m2 = true.

(** ** More example tables *)

Definition padded : DataFrame :=
  [ (col_month,
      [VStr (String (chr 9) "2024-02" +++ String (chr 10) EmptyString);
       VStr " 2024-01  "]);
    (col_revenue, [VStr "1,500"; VStr "700"]);
    (col_prior, [VInt 1; VInt 2]);
    (col_change, [VStr "1.5"; VStr "-2"]);
    ("memo", [VStr "b"; VStr "a"]) ].

(** ** Reading digits *)

(** The number a run of decimal digits denotes, on top of [acc]. *)
Fixpoint digits_value (acc : Z) (s : string) : Z :=
  match s with
  | String c s' => digits_value (10 * acc + digit_val c) s'
  | EmptyString => acc
  end.

Definition in_int64 (z : Z) : Prop :=
  Numeric.int64_min <= z <= Numeric.int64_max.

(** ** Whole-number sums *)

(** The running sums of a list of integers, from [s]. *)
Fixpoint int_cum (s : Z) (zs : list Z) : list Z :=
  match zs with
  | [] => []
  | z :: zs' => (s + z) :: int_cum (s + z) zs'
  end.

Definition int_sum (zs : list Z) : Z := fold_left Z.add zs 0.

Definition whole_numbers : DataFrame :=
  [ (col_month, [VStr "2024-02"; VStr "2024-01"; VStr "2024-03"]);
    (col_revenue, [VStr "1,500"; VStr "700"; VStr "0"]);
    (col_prior, [VInt 1; VInt 2; VInt 3]);
    (col_change, [VStr "1.5"; VStr "-2"; VStr "0"]) ].

(** ** Extremes of a column and their markers *)

(** [i] is the position of the first greatest element of [zs]. *)
Definition first_max (zs : list Z) (i : Z) : Prop :=
  exists pre m post,
    zs = pre ++ m :: post /\ i = Z.of_nat (List.length pre)
    /\ Forall (fun z => z < m) pre /\ Forall (fun z => z <= m) post.

(** [i] is the position of the first least element of [zs]. *)
Definition first_min (zs : list Z) (i : Z) : Prop :=
  exists pre m post,
    zs = pre ++ m :: post /\ i = Z.of_nat (List.length pre)
    /\ Forall (fun z => m < z) pre /\ Forall (fun z => m <= z) post.

Definition marker_size (max_idx min_idx : Z) (i : nat) : Z :=
  if (Z.of_nat i =? max_idx) || (Z.of_nat i =? min_idx) then 12 else 6.

Definition marker_color (max_idx min_idx : Z) (i : nat) : string :=
  if Z.of_nat i =? min_idx then "#ff6b6b"
  else if Z.of_nat i =? max_idx then "#7bd389"
  else "#1f77b4".

(** ** Cells of a numeric column *)

(** An int64 or a float64 cell. *)
Definition is_number (v : value) : Prop :=
  match v with
  | VInt z => in_int64 z
  | VFloat _ => True
  | VStr _ => False
  end.

(** Red for a number below zero, green for any other cell. *)
Definition bar_color (v : value) : string :=
  match v with
  | VInt z => if z <? 0 then "#ff6b6b" else "#7bd389"
  | VFloat (S754_finite true _ _) | VFloat (S754_infinity true) => "#ff6b6b"
  | _ => "#7bd389"
  end.

(** The text [fmt_pct] returns, for a cell on which it does not raise. *)
Definition pct_text (v : value) : string :=
  match fmt_pct v with
  | Ok s => s
  | Raise _ => EmptyString
  end.

(** A table with a change rate that cannot be read. *)
Definition mixed_rates : DataFrame :=
  [ (col_month,
     [VStr "2024-01"; VStr "2024-02"; VStr "2024-03"; VStr "2024-04"]);
    (col_revenue, [VInt 100; VInt 97; VInt 97; VInt 101]);
    (col_prior, [VInt 90; VInt 100; VInt 97; VInt 97]);
    (col_change, [VStr "11.1"; VStr "-3.2"; VStr "?"; VStr "0"]) ].

(** ** Revenues the KPIs can be taken of *)

(** The sum of the column is not infinite and not NaN. *)
Definition finite_sum (col : list value) : Prop :=
  match series_sum col with
  | VFloat f => is_finite f = true
  | _ => True
  end.

(** A table in which no revenue can be read. *)
Definition unreadable_revenue : DataFrame :=
  [ (col_month, [VStr "2024-01"; VStr "2024-02"]);
    (col_revenue, [VStr "abc"; VStr "-"]);
    (col_prior, [VInt 90; VInt 100]);
    (col_change, [VStr "1.5"; VStr "2"]) ].

(** ** Rows in another order *)

(** The frame whose row [j] is the row [nth j order] of [df]. *)
Definition rows_taken (df : DataFrame) (order : list nat) : DataFrame :=
  map (fun '(c, col) => (c, take order col)) df.

(** * Properties *)

(** ** The error monad *)

Lemma bind_Ok_inv {A B : Type} (r : result A) (k : A -> result B) (b : B) :
  bind r k = Ok b -> exists a, r = Ok a /\ k a = Ok b.
Proof.
  destruct r as [a | e]; simpl; intros H.
  - exists a. split; [reflexivity | exact H].
  - discriminate.
Qed.

Ltac inv_bind H :=
  let x := fresh "x" in
  let Hx := fresh "Hx" in
  apply bind_Ok_inv in H; destruct H as (x & Hx & H).

Lemma mapM_length {A B : Type} (f : A -> result B) (l : list A) (l' : list B) :
  mapM f l = Ok l' -> List.length l' = List.length l.
Proof.
  revert l'. induction l as [| a l IH]; simpl; intros l' H.
  - inversion H. reflexivity.
  - inv_bind H. inv_bind H. inversion H; subst. simpl.
    f_equal. apply IH. assumption.
Qed.

Lemma mapM_nth {A B : Type} (f : A -> result B) (l : list A) (l' : list B)
  (da : A) (db : B) (i : nat) :
  mapM f l = Ok l' -> (i < List.length l)%nat ->
  f (nth i l da) = Ok (nth i l' db).
Proof.
  revert l' i. induction l as [| a l IH]; simpl; intros l' i H Hi.
  - lia.
  - inv_bind H. inv_bind H. inversion H; subst.
    destruct i as [| i]; simpl.
    + assumption.
    + apply IH; [assumption | lia].
Qed.

(** ** Frames *)

Lemma lookup_set_col (df : DataFrame) (c c' : string) (col : list value) :
  lookup (set_col df c col) c' =
  if String.eqb c c' then Some col else lookup df c'.
Proof.
  induction df as [| [k v] df IH]; simpl.
  - destruct (String.eqb c c'); reflexivity.
  - destruct (String.eqb k c) eqn:Hk; simpl.
    + apply String.eqb_eq in Hk. subst k.
      destruct (String.eqb c c'); reflexivity.
    + destruct (String.eqb k c') eqn:Hk'.
      * apply String.eqb_eq in Hk'. subst k.
        rewrite String.eqb_sym, Hk. reflexivity.
      * exact IH.
Qed.

Lemma has_column_lookup (df : DataFrame) (c : string) :
  has_column df c = true -> exists col, lookup df c = Some col.
Proof.
  unfold has_column, columns.
  induction df as [| [k v] df IH]; simpl; intros H.
  - discriminate.
  - rewrite (String.eqb_sym k c).
    destruct (String.eqb c k); simpl in H.
    + exists v. reflexivity.
    + apply IH. exact H.
Qed.

Lemma lookup_has_column (df : DataFrame) (c : string) (col : list value) :
  lookup df c = Some col -> has_column df c = true.
Proof.
  unfold has_column, columns.
  induction df as [| [k v] df IH]; simpl; intros H.
  - discriminate.
  - rewrite (String.eqb_sym c k).
    destruct (String.eqb k c); simpl; [reflexivity | auto].
Qed.

Lemma get_col_Ok (df : DataFrame) (c : string) (col : list value) :
  get_col df c = Ok col <-> lookup df c = Some col.
Proof.
  unfold get_col. destruct (lookup df c); split; intros H;
    inversion H; reflexivity.
Qed.

Lemma get_set_col (df : DataFrame) (c c' : string) (col : list value) :
  get_col (set_col df c col) c' =
  if String.eqb c c' then Ok col else get_col df c'.
Proof.
  unfold get_col. rewrite lookup_set_col.
  destruct (String.eqb c c'); reflexivity.
Qed.

Lemma has_column_In (df : DataFrame) (c : string) :
  has_column df c = true <-> In c (columns df).
Proof.
  unfold has_column. rewrite existsb_exists. split.
  - intros (x & Hx & Heq). apply String.eqb_eq in Heq. subst x. exact Hx.
  - intros H. exists c. split; [exact H | apply String.eqb_refl].
Qed.

Lemma filter_subsequence {A : Type} (f : A -> bool) (l : list A) :
  subsequence (filter f l) l.
Proof.
  induction l as [| a l IH]; simpl.
  - constructor.
  - destruct (f a); constructor; exact IH.
Qed.

Lemma missing_columns_spec (df : DataFrame) (c : string) :
  In c (missing_columns df) <-> In c need_cols /\ ~ In c (columns df).
Proof.
  unfold missing_columns. rewrite filter_In, negb_true_iff.
  rewrite <- has_column_In. split; intros [H1 H2]; split; try assumption.
  - rewrite H2. discriminate.
  - destruct (has_column df c); [exfalso; apply H2; reflexivity | reflexivity].
Qed.

Lemma missing_columns_ext (df df' : DataFrame) :
  columns df' = columns df -> missing_columns df' = missing_columns df.
Proof.
  intros H. unfold missing_columns, has_column. rewrite H. reflexivity.
Qed.

(** C2 -- A raw table that lacks at least one of the four required columns is
    rejected by [parse_dataframe] with a [ValueError] whose message is the
    fixed prefix followed by the missing column names joined by a comma and a
    space: exactly the required names that are absent, in the order of
    [need_cols].  The check comes before anything else: the outcome depends on
    the column labels alone, whatever the cells hold. *)
Theorem missing_columns_rejected (df : DataFrame) :
  (exists c, In c need_cols /\ ~ In c (columns df)) ->
  exists missing,
    parse_dataframe df
      = Raise (ValueError ("필수 컬럼 누락: " +++ join ", " missing))
    /\ subsequence missing need_cols
    /\ (forall c, In c missing <-> In c need_cols /\ ~ In c (columns df))
    /\ (forall df', columns df' = columns df ->
                    parse_dataframe df' = parse_dataframe df).
Proof.
  intros (c & Hc). apply missing_columns_spec in Hc.
  exists (missing_columns df).
  assert (Hrej : forall d, missing_columns d = missing_columns df ->
            parse_dataframe d
            = Raise (ValueError (missing_message (missing_columns df)))).
  { intros d Hd. unfold parse_dataframe. rewrite Hd.
    destruct (missing_columns df) as [| m ms]; [destruct Hc | reflexivity]. }
  split; [| split; [| split]].
  - apply (Hrej df). reflexivity.
  - apply filter_subsequence.
  - intros c'. apply missing_columns_spec.
  - intros df' H. rewrite (Hrej df' (missing_columns_ext df df' H)).
    symmetry. apply (Hrej df). reflexivity.
Qed.

(** A table with the period column only. *)
Lemma missing_columns_rejected_witness :
  exists missing,
    parse_dataframe only_months
      = Raise (ValueError ("필수 컬럼 누락: " +++ join ", " missing))
    /\ subsequence missing need_cols
    /\ (forall c, In c missing <-> In c need_cols /\ ~ In c (columns only_months))
    /\ (forall df', columns df' = columns only_months ->
                    parse_dataframe df' = parse_dataframe only_months).
Proof.
  apply (missing_columns_rejected only_months).
  exists col_revenue. split.
  - simpl. right. left. reflexivity.
  - simpl. intros [H | []]. discriminate H.
Defined.

(** ** The steps of [parse_dataframe] *)

Ltac eval_eqb :=
  repeat match goal with
    | |- context [String.eqb ?a ?b] =>
        let r := eval vm_compute in (String.eqb a b) in
        change (String.eqb a b) with r
    end.

Lemma set_col_twice (df : DataFrame) (c : string) (a b : list value) :
  set_col (set_col df c a) c b = set_col df c b.
Proof.
  induction df as [| [k v] df IH]; simpl.
  - rewrite String.eqb_refl. reflexivity.
  - destruct (String.eqb k c) eqn:Hk; simpl.
    + rewrite String.eqb_refl. reflexivity.
    + rewrite Hk, IH. reflexivity.
Qed.

Lemma clean_numbers_eq (col : list value) :
  Numeric.to_numeric
    (str_method (remove_char " ")
       (str_method (remove_char ",") (astype_str col)))
  = clean_numbers col.
Proof.
  unfold clean_numbers, str_method, astype_str. rewrite !map_map.
  reflexivity.
Qed.

Lemma coerce_column_Ok (df : DataFrame) (c : string) (col : list value) :
  lookup df c = Some col ->
  coerce_column df c = Ok (set_col df c (clean_numbers col)).
Proof.
  intros H. unfold coerce_column, get_col. rewrite H. simpl.
  rewrite lookup_set_col, String.eqb_refl. simpl.
  rewrite set_col_twice, clean_numbers_eq. reflexivity.
Qed.

Lemma coerce_columns_Ok (df : DataFrame) (rev pri chg : list value) :
  lookup df col_revenue = Some rev ->
  lookup df col_prior = Some pri ->
  lookup df col_change = Some chg ->
  foldM coerce_column numeric_cols df = Ok (coerced df rev pri chg).
Proof.
  intros Hr Hp Hc. unfold numeric_cols, coerced. simpl.
  rewrite (coerce_column_Ok df col_revenue rev Hr). simpl.
  rewrite (coerce_column_Ok _ col_prior pri).
  2:{ rewrite lookup_set_col. eval_eqb. exact Hp. }
  simpl.
  rewrite (coerce_column_Ok _ col_change chg).
  2:{ rewrite !lookup_set_col. eval_eqb. exact Hc. }
  reflexivity.
Qed.

Lemma present_columns (df : DataFrame) :
  missing_columns df = [] ->
  exists mon rev pri chg,
    lookup df col_month = Some mon /\ lookup df col_revenue = Some rev
    /\ lookup df col_prior = Some pri /\ lookup df col_change = Some chg.
Proof.
  intros H.
  assert (Hin : forall c, In c need_cols -> exists col, lookup df c = Some col).
  { intros c Hc. apply has_column_lookup.
    destruct (has_column df c) eqn:E; [reflexivity |].
    assert (In c (missing_columns df)) as Hm.
    { unfold missing_columns. apply filter_In. split; [exact Hc |].
      rewrite E. reflexivity. }
    rewrite H in Hm. destruct Hm. }
  destruct (Hin col_month) as [mon Hm]; [simpl; tauto |].
  destruct (Hin col_revenue) as [rev Hr]; [simpl; tauto |].
  destruct (Hin col_prior) as [pri Hp]; [simpl; tauto |].
  destruct (Hin col_change) as [chg Hc]; [simpl; tauto |].
  exists mon, rev, pri, chg. tauto.
Qed.

Lemma strip_astype_str (mon : list value) :
  str_method strip (astype_str mon) = map VStr (trimmed mon).
Proof.
  unfold str_method, astype_str, trimmed. rewrite !map_map. reflexivity.
Qed.

Lemma str_match_period_VStr (ps : list string) :
  str_match_period (map VStr ps) = map match_period ps.
Proof. unfold str_match_period. rewrite map_map. reflexivity. Qed.

Lemma forallb_id_map {A : Type} (f : A -> bool) (l : list A) :
  forallb (fun b => b) (map f l) = forallb f l.
Proof. induction l as [| a l IH]; simpl; [| rewrite IH]; reflexivity. Qed.

Lemma select_not_VStr (ps : list string) :
  select_not (map match_period ps) (map VStr ps)
  = map VStr (filter (fun s => negb (match_period s)) ps).
Proof.
  induction ps as [| s ps IH]; simpl; [reflexivity |].
  destruct (match_period s); simpl; rewrite IH; reflexivity.
Qed.

Lemma lookup_sorted_frame (df : DataFrame) (order : list nat) (c : string) :
  lookup (sorted_frame df order) c = option_map (take order) (lookup df c).
Proof.
  induction df as [| [k v] df IH]; simpl; [reflexivity |].
  destruct (String.eqb k c); [reflexivity | exact IH].
Qed.

(** [parse_dataframe] on a table that has the four columns. *)
Lemma parse_dataframe_present (df : DataFrame) (mon rev pri chg : list value) :
  lookup df col_month = Some mon -> lookup df col_revenue = Some rev ->
  lookup df col_prior = Some pri -> lookup df col_change = Some chg ->
  parse_dataframe df =
  if forallb match_period (trimmed mon) then
    let order := argsort (trimmed mon) in
    cum <- compute_cum (take order (clean_numbers rev)) ;;
    months <- astype_int (str_method last2 (take order (map VStr (trimmed mon)))) ;;
    Ok (normalized df mon rev pri chg cum months)
  else
    Raise (ValueError (period_message
                         (firstn 3 (map VStr (filter (fun s => negb (match_period s))
                                                (trimmed mon)))))).
Proof.
  intros Hm Hr Hp Hc. unfold parse_dataframe.
  assert (Hmiss : missing_columns df = []).
  { unfold missing_columns, need_cols. simpl.
    rewrite (lookup_has_column _ _ _ Hm), (lookup_has_column _ _ _ Hr),
      (lookup_has_column _ _ _ Hp), (lookup_has_column _ _ _ Hc).
    reflexivity. }
  rewrite Hmiss, (coerce_columns_Ok df rev pri chg Hr Hp Hc). simpl.
  unfold get_col at 1.
  assert (Hm' : lookup (coerced df rev pri chg) col_month = Some mon).
  { unfold coerced. rewrite !lookup_set_col. eval_eqb. exact Hm. }
  rewrite Hm'. simpl.
  rewrite get_set_col, String.eqb_refl. simpl.
  rewrite strip_astype_str, str_match_period_VStr, forallb_id_map.
  destruct (forallb match_period (trimmed mon)); simpl.
  - unfold sort_values. rewrite get_set_col, String.eqb_refl. simpl.
    rewrite map_map. simpl. rewrite map_id.
    fold (sorted_frame (set_col (coerced df rev pri chg) col_month
                          (map VStr (trimmed mon))) (argsort (trimmed mon))).
    unfold get_col at 1. rewrite lookup_sorted_frame, lookup_set_col.
    eval_eqb. unfold coerced at 1. rewrite !lookup_set_col. eval_eqb.
    simpl.
    destruct (compute_cum _) as [cum |]; simpl; [| reflexivity].
    unfold get_col. rewrite lookup_set_col. eval_eqb.
    rewrite lookup_sorted_frame, lookup_set_col, String.eqb_refl. simpl.
    reflexivity.
  - rewrite select_not_VStr. reflexivity.
Qed.

(** ** Text that occurs in a message *)











(** ** The order of str *)

Lemma ascii_compare_cases (x y : ascii) :
  match Ascii.compare x y with
  | Eq => x = y
  | Lt => (N_of_ascii x < N_of_ascii y)%N
  | Gt => (N_of_ascii y < N_of_ascii x)%N
  end.
Proof.
  unfold Ascii.compare.
  destruct (N.compare_spec (N_of_ascii x) (N_of_ascii y)) as [H | H | H].
  - rewrite <- (ascii_N_embedding x), <- (ascii_N_embedding y), H. reflexivity.
  - exact H.
  - exact H.
Qed.

Lemma ascii_compare_lt (x y : ascii) :
  (N_of_ascii x < N_of_ascii y)%N -> Ascii.compare x y = Lt.
Proof. intros H. unfold Ascii.compare. apply N.compare_lt_iff. exact H. Qed.

Lemma ascii_compare_refl (x : ascii) : Ascii.compare x x = Eq.
Proof. unfold Ascii.compare. apply N.compare_refl. Qed.

Lemma str_le_trans (a b c : string) : str_le a b -> str_le b c -> str_le a c.
Proof.
  unfold str_le, String.leb. revert b c.
  induction a as [| x a IH]; intros [| y b] [| z c]; simpl; try congruence.
  pose proof (ascii_compare_cases x y) as Hxy.
  pose proof (ascii_compare_cases y z) as Hyz.
  destruct (Ascii.compare x y) eqn:Exy; try congruence;
    destruct (Ascii.compare y z) eqn:Eyz; try congruence.
  - subst. rewrite ascii_compare_refl. apply IH.
  - subst. rewrite Eyz. reflexivity.
  - subst. rewrite Exy. reflexivity.
  - rewrite ascii_compare_lt; [reflexivity | lia].
Qed.

Lemma str_le_total (a b : string) : str_le a b \/ str_le b a.
Proof. apply String.leb_total. Qed.

Lemma str_le_neq_lt (a b : string) : str_le a b -> a <> b -> str_lt a b.
Proof.
  unfold str_le, str_lt, String.leb, String.ltb. intros H Hne.
  destruct (String.compare a b) eqn:E; try congruence.
  apply String.compare_eq_iff in E. contradiction.
Qed.

(** ** Sorting the rows *)

Lemma insert_key_perm (x : string * nat) (l : list (string * nat)) :
  Permutation (insert_key x l) (x :: l).
Proof.
  induction l as [| y l IH]; simpl; [reflexivity |].
  destruct (String.leb (fst x) (fst y)); [reflexivity |].
  rewrite IH. apply perm_swap.
Qed.

Lemma sort_keys_perm (l : list (string * nat)) : Permutation (sort_keys l) l.
Proof.
  induction l as [| x l IH]; simpl; [reflexivity |].
  rewrite insert_key_perm, IH. reflexivity.
Qed.

Lemma insert_key_sorted (x : string * nat) (l : list (string * nat)) :
  Sorted key_le l -> Sorted key_le (insert_key x l).
Proof.
  induction l as [| y l IH]; simpl; intros H.
  - repeat constructor.
  - destruct (String.leb (fst x) (fst y)) eqn:E.
    + constructor; [exact H | constructor; exact E].
    + inversion H as [| ? ? Hs Hh]; subst.
      constructor; [apply IH; exact Hs |].
      assert (Hyx : key_le y x).
      { destruct (str_le_total (fst x) (fst y)) as [C | C];
          [unfold str_le in C; congruence | exact C]. }
      destruct l as [| z l]; simpl.
      * constructor. exact Hyx.
      * destruct (String.leb (fst x) (fst z)); constructor;
          [exact Hyx | inversion Hh; assumption].
Qed.

Lemma sort_keys_sorted (l : list (string * nat)) : Sorted key_le (sort_keys l).
Proof.
  induction l as [| x l IH]; simpl; [constructor |].
  apply insert_key_sorted, IH.
Qed.

Lemma map_fst_combine_seq {A : Type} (l : list A) (a : nat) :
  map fst (combine l (seq a (List.length l))) = l.
Proof.
  revert a. induction l as [| x l IH]; intros a; simpl;
    [| rewrite IH]; reflexivity.
Qed.

Lemma map_snd_combine_seq {A : Type} (l : list A) (a : nat) :
  map snd (combine l (seq a (List.length l))) = seq a (List.length l).
Proof.
  revert a. induction l as [| x l IH]; intros a; simpl;
    [| rewrite IH]; reflexivity.
Qed.

Lemma in_combine_seq {A : Type} (l : list A) (a : nat) (x : A) (i : nat) (d : A) :
  In (x, i) (combine l (seq a (List.length l))) ->
  (a <= i < a + List.length l)%nat /\ nth (i - a) l d = x.
Proof.
  revert a. induction l as [| y l IH]; intros a; simpl; intros H.
  - destruct H.
  - destruct H as [H | H].
    + inversion H; subst. split; [lia |].
      replace (i - i)%nat with O by lia. reflexivity.
    + apply IH in H. destruct H as [Hb Hn]. split; [lia |].
      replace (i - a)%nat with (S (i - S a)) by lia. exact Hn.
Qed.

Lemma sorted_periods_perm (ps : list string) :
  Permutation (sorted_periods ps) ps.
Proof.
  unfold sorted_periods.
  rewrite (Permutation_map fst (sort_keys_perm _)).
  rewrite map_fst_combine_seq. reflexivity.
Qed.

Lemma argsort_perm (ps : list string) :
  Permutation (argsort ps) (seq 0 (List.length ps)).
Proof.
  unfold argsort.
  rewrite (Permutation_map snd (sort_keys_perm _)).
  rewrite map_snd_combine_seq. reflexivity.
Qed.

Lemma sorted_periods_sorted (ps : list string) :
  StronglySorted str_le (sorted_periods ps).
Proof.
  apply Sorted_StronglySorted.
  - intros a b c. apply str_le_trans.
  - unfold sorted_periods.
    induction (sort_keys_sorted (combine ps (seq 0 (List.length ps))))
      as [| x l Hs IH Hh]; simpl; constructor.
    + exact IH.
    + destruct Hh; simpl; constructor. assumption.
Qed.

(** The sorted period column holds the sorted labels. *)
Lemma take_argsort_periods (ps : list string) :
  take (argsort ps) (map VStr ps) = map VStr (sorted_periods ps).
Proof.
  unfold take, argsort, sorted_periods. rewrite !map_map.
  apply map_ext_in. intros [k i] Hin. simpl.
  apply (Permutation_in _ (sort_keys_perm _)) in Hin.
  apply (in_combine_seq ps 0 k i EmptyString) in Hin.
  destruct Hin as [Hb Hn]. rewrite Nat.sub_0_r in Hn.
  rewrite <- Hn.
  rewrite (nth_indep _ (VFloat nan) (VStr EmptyString)).
  - apply (map_nth VStr).
  - rewrite length_map. lia.
Qed.

Lemma take_length (order : list nat) (col : list value) :
  List.length (take order col) = List.length order.
Proof. unfold take. apply length_map. Qed.

Lemma argsort_length (ps : list string) :
  List.length (argsort ps) = List.length ps.
Proof.
  rewrite (Permutation_length (argsort_perm ps)). apply length_seq.
Qed.

Lemma strongly_sorted_strict (l : list string) :
  StronglySorted str_le l -> NoDup l -> StronglySorted str_lt l.
Proof.
  induction 1 as [| x l Hs IH Hall]; intros Hnd; constructor.
  - apply IH. inversion Hnd; assumption.
  - inversion Hnd as [| ? ? Hnotin Hnd']; subst.
    rewrite Forall_forall in *. intros y Hy.
    apply str_le_neq_lt; [apply Hall, Hy |].
    intros ->. contradiction.
Qed.

(** ** The running sum *)

Lemma compute_cum_loop_spec (l : list value) :
  forall (s : value) (out r : list value),
    compute_cum_loop s out l = Ok r ->
    exists r',
      r = out ++ r' /\ List.length r' = List.length l
      /\ forall i d, (i < List.length l)%nat ->
                     foldM py_add (firstn (S i) l) s = Ok (nth i r' d).
Proof.
  induction l as [| v l IH]; intros s out r H; simpl in H.
  - inversion H; subst. exists []. rewrite app_nil_r.
    split; [reflexivity | split; [reflexivity |]].
    intros i d Hi. simpl in Hi. lia.
  - inv_bind H. destruct (IH _ _ _ H) as (r' & Hr & Hlen & Hsum).
    exists (x :: r'). split; [| split].
    + rewrite Hr, <- app_assoc. reflexivity.
    + simpl. rewrite Hlen. reflexivity.
    + intros i d Hi. destruct i as [| i].
      * simpl. rewrite Hx. reflexivity.
      * change (firstn (S (S i)) (v :: l)) with (v :: firstn (S i) l).
        simpl foldM. rewrite Hx. simpl bind.
        apply Hsum. simpl in Hi. lia.
Qed.

Lemma compute_cum_spec (l cum : list value) :
  compute_cum l = Ok cum ->
  List.length cum = List.length l
  /\ forall i d, (i < List.length l)%nat ->
                 sum_from_zero (firstn (S i) l) = Ok (nth i cum d).
Proof.
  intros H. destruct (compute_cum_loop_spec l _ _ _ H) as (r' & Hr & Hlen & Hsum).
  simpl in Hr. subst r'. split; assumption.
Qed.

(** ** The table [parse_dataframe] returns *)

Lemma normalized_normal_form (df : DataFrame)
  (mon rev pri chg cum months : list value) :
  lookup df col_month = Some mon -> lookup df col_revenue = Some rev ->
  forallb match_period (trimmed mon) = true ->
  compute_cum (take (argsort (trimmed mon)) (clean_numbers rev)) = Ok cum ->
  astype_int (str_method last2 (take (argsort (trimmed mon))
                                  (map VStr (trimmed mon)))) = Ok months ->
  normal_form df (normalized df mon rev pri chg cum months) mon rev cum months.
Proof.
  intros Hm Hr Hv Hcum Hmonths.
  rewrite take_argsort_periods in Hmonths.
  constructor; try assumption; try (apply get_col_Ok; assumption);
    unfold normalized, get_col; rewrite !lookup_set_col; eval_eqb;
    try reflexivity;
    rewrite lookup_sorted_frame, lookup_set_col; eval_eqb; simpl.
  - rewrite take_argsort_periods. reflexivity.
  - unfold coerced. rewrite !lookup_set_col. eval_eqb. reflexivity.
Qed.

Lemma parse_dataframe_Ok (df t : DataFrame) :
  parse_dataframe df = Ok t ->
  exists mon rev cum months, normal_form df t mon rev cum months.
Proof.
  intros H.
  assert (Hmiss : missing_columns df = []).
  { unfold parse_dataframe in H.
    destruct (missing_columns df); [reflexivity | discriminate]. }
  destruct (present_columns df Hmiss)
    as (mon & rev & pri & chg & Hm & Hr & Hp & Hc).
  rewrite (parse_dataframe_present df mon rev pri chg Hm Hr Hp Hc) in H.
  destruct (forallb match_period (trimmed mon)) eqn:Hv; [| discriminate].
  cbv zeta in H. inv_bind H. inv_bind H. inversion H; subst t.
  exists mon, rev, x, x0.
  apply normalized_normal_form; assumption.
Qed.

(** C1 -- In the table [parse_dataframe] returns, the rows are in ascending
    order of period, and the cumulative revenue of row [i] is the sum of the
    revenues of rows [0] to [i] of that table, added in row order starting
    from zero. *)
Theorem cumulative_revenue_running_sum (df t : DataFrame) :
  parse_dataframe df = Ok t ->
  exists periods revenue cum,
    get_col t col_month = Ok (map VStr periods)
    /\ StronglySorted str_le periods
    /\ get_col t col_revenue = Ok revenue
    /\ get_col t col_cumulative = Ok cum
    /\ List.length revenue = List.length periods
    /\ List.length cum = List.length revenue
    /\ forall i, (i < List.length revenue)%nat ->
         sum_from_zero (firstn (S i) revenue) = Ok (nth i cum (VFloat nan)).
Proof.
  intros H. destruct (parse_dataframe_Ok df t H) as (mon & rev & cum & months & N).
  destruct (compute_cum_spec _ _ (nf_cum _ _ _ _ _ _ N)) as [Hlen Hsum].
  exists (sorted_periods (trimmed mon)),
    (take (argsort (trimmed mon)) (clean_numbers rev)), cum.
  split; [exact (nf_month _ _ _ _ _ _ N) |].
  split; [apply sorted_periods_sorted |].
  split; [exact (nf_revenue _ _ _ _ _ _ N) |].
  split; [exact (nf_cumulative _ _ _ _ _ _ N) |].
  split.
  { rewrite take_length, argsort_length.
    symmetry. apply Permutation_length, sorted_periods_perm. }
  split; [exact Hlen |].
  intros i Hi. apply Hsum. exact Hi.
Qed.

(** The sample table. *)
Lemma cumulative_revenue_running_sum_witness :
  exists t,
    parse_dataframe SAMPLE = Ok t
    /\ exists periods revenue cum,
         get_col t col_month = Ok (map VStr periods)
         /\ StronglySorted str_le periods
         /\ get_col t col_revenue = Ok revenue
         /\ get_col t col_cumulative = Ok cum
         /\ List.length revenue = List.length periods
         /\ List.length cum = List.length revenue
         /\ forall i, (i < List.length revenue)%nat ->
              sum_from_zero (firstn (S i) revenue) = Ok (nth i cum (VFloat nan)).
Proof.
  eexists. split.
  - vm_compute. reflexivity.
  - apply (cumulative_revenue_running_sum SAMPLE). vm_compute. reflexivity.
Defined.



(** ** The month number *)

Lemma is_digit_cases (c : ascii) :
  is_digit c = true ->
  In c ["0"; "1"; "2"; "3"; "4"; "5"; "6"; "7"; "8"; "9"]%char.
Proof.
  destruct c as [[] [] [] [] [] [] [] []]; intros H;
    vm_compute in H; try discriminate H; simpl; tauto.
Qed.

Lemma two_digits_int (a b : ascii) :
  is_digit a = true -> is_digit b = true ->
  exists m, int_literal (String a (String b EmptyString)) = Some m
            /\ 0 <= m <= 99.
Proof.
  intros Ha Hb. apply is_digit_cases in Ha. apply is_digit_cases in Hb.
  simpl in Ha, Hb.
  intuition subst; (eexists; split; [vm_compute; reflexivity | lia]).
Qed.

Lemma digit_newline_int (b : ascii) :
  is_digit b = true ->
  exists m, int_literal (String b (String (chr 10) EmptyString)) = Some m
            /\ 0 <= m <= 99.
Proof.
  intros Hb. apply is_digit_cases in Hb. simpl in Hb.
  intuition subst; (eexists; split; [vm_compute; reflexivity | lia]).
Qed.

(** After validation the last two characters of a period read as an int. *)
Lemma match_period_month (p : string) :
  match_period p = true ->
  exists m, int_literal (last2 p) = Some m /\ 0 <= m <= 99.
Proof.
  destruct p as [| y1 [| y2 [| y3 [| y4 [| h [| m1 [| m2 rest]]]]]]];
    try discriminate.
  unfold match_period. rewrite !andb_true_iff, orb_true_iff, !String.eqb_eq.
  intros [[[_ H1] H2] [-> | ->]].
  - apply (two_digits_int m1 m2 H1 H2).
  - apply (digit_newline_int m2 H2).
Qed.

Lemma nth_str_method_VStr (f : string -> string) (ps : list string) (i : nat) :
  (i < List.length ps)%nat ->
  nth i (str_method f (map VStr ps)) (VFloat nan)
  = VStr (f (nth i ps EmptyString)).
Proof.
  intros Hi. unfold str_method. rewrite map_map.
  rewrite (nth_indep _ (VFloat nan) (VStr (f EmptyString))).
  - apply (map_nth (fun s => VStr (f s))).
  - rewrite length_map. exact Hi.
Qed.

Lemma str_method_length (f : string -> string) (col : list value) :
  List.length (str_method f col) = List.length col.
Proof. apply length_map. Qed.

(** C9 -- In the table [parse_dataframe] returns, the month number of every
    row is the int that the last two characters of the period of that row
    denote, an integer between 0 and 99 inclusive. *)
Theorem month_number_from_period (df t : DataFrame) :
  parse_dataframe df = Ok t ->
  exists periods months,
    get_col t col_month = Ok (map VStr periods)
    /\ get_col t col_month_number = Ok months
    /\ List.length months = List.length periods
    /\ forall i, (i < List.length periods)%nat ->
         exists m,
           nth i months (VFloat nan) = VInt m
           /\ int_literal (last2 (nth i periods EmptyString)) = Some m
           /\ 0 <= m <= 99.
Proof.
  intros H. destruct (parse_dataframe_Ok df t H) as (mon & rev & cum & months & N).
  pose proof (nf_months _ _ _ _ _ _ N) as Hmonths.
  exists (sorted_periods (trimmed mon)), months.
  split; [exact (nf_month _ _ _ _ _ _ N) |].
  split; [exact (nf_month_number _ _ _ _ _ _ N) |].
  split.
  { rewrite (mapM_length _ _ _ Hmonths), str_method_length, length_map.
    reflexivity. }
  intros i Hi.
  assert (Hvalid : match_period (nth i (sorted_periods (trimmed mon)) EmptyString)
                   = true).
  { pose proof (nf_valid _ _ _ _ _ _ N) as Hv. rewrite forallb_forall in Hv.
    apply Hv. apply (Permutation_in _ (sorted_periods_perm _)).
    apply nth_In. exact Hi. }
  destruct (match_period_month _ Hvalid) as (m & Hm & Hrange).
  exists m. split; [| split; assumption].
  pose proof (mapM_nth _ _ _ (VFloat nan) (VFloat nan) i Hmonths) as Hnth.
  rewrite str_method_length, length_map in Hnth. specialize (Hnth Hi).
  rewrite nth_str_method_VStr in Hnth by exact Hi.
  simpl in Hnth. rewrite Hm in Hnth. simpl in Hnth.
  inversion Hnth. reflexivity.
Qed.

(** A table with the periods 2024-13 and 2024-00. *)
Lemma month_number_from_period_witness :
  exists t,
    parse_dataframe thirteenth_month = Ok t
    /\ exists periods months,
         get_col t col_month = Ok (map VStr periods)
         /\ get_col t col_month_number = Ok months
         /\ List.length months = List.length periods
         /\ forall i, (i < List.length periods)%nat ->
              exists m,
                nth i months (VFloat nan) = VInt m
                /\ int_literal (last2 (nth i periods EmptyString)) = Some m
                /\ 0 <= m <= 99.
Proof.
  eexists. split.
  - vm_compute. reflexivity.
  - apply (month_number_from_period thirteenth_month). vm_compute. reflexivity.
Defined.

(** A valid table with the periods 2024-13 and 2024-00 is accepted, and its
    month numbers, 0 and 13, are not between 1 and 12. *)
Lemma month_number_outside_calendar :
  exists t months,
    parse_dataframe thirteenth_month = Ok t
    /\ get_col t col_month_number = Ok months
    /\ ~ (forall v, In v months -> exists m, v = VInt m /\ 1 <= m <= 12).
Proof.
  eexists. exists [VInt 0; VInt 13]. split; [vm_compute; reflexivity |].
  split; [vm_compute; reflexivity |].
  intros H. destruct (H (VInt 13)) as (m & Hm & Hr).
  - right. left. reflexivity.
  - inversion Hm. subst m. lia.
Qed.

(** ** The script on a table without rows *)

Lemma zero_rows_lookup (df : DataFrame) (c : string) (col : list value) :
  zero_rows df -> lookup df c = Some col -> col = [].
Proof.
  unfold zero_rows. induction df as [| [k v] df IH]; simpl; intros Hz H.
  - discriminate.
  - inversion Hz as [| ? ? Hv Hz']. simpl in Hv.
    destruct (String.eqb k c).
    + inversion H; subst. reflexivity.
    + apply IH; assumption.
Qed.

(** C6 -- When the table [parse_dataframe] returns has no rows, there is no
    dedicated check or error for it: the first positional access fails with
    an [IndexError].  That is the read of the first period for the caption,
    so the script ends with this uncaught error before any KPI is computed,
    and the KPI extraction, run on its own, fails with the same error at its
    first step, the read of the last row. *)
Theorem empty_table_index_error (df t : DataFrame) :
  parse_dataframe df = Ok t ->
  zero_rows t ->
  date_range t = Raise out_of_bounds
  /\ extract_kpi t = Raise out_of_bounds
  /\ forall uploaded use_sample,
       load uploaded use_sample = Ok (df, t) ->
       dashboard uploaded use_sample = Uncaught out_of_bounds.
Proof.
  intros H Hz.
  destruct (parse_dataframe_Ok df t H) as (mon & rev & cum & months & N).
  pose proof (nf_month _ _ _ _ _ _ N) as Hmonth.
  assert (Hempty : map VStr (sorted_periods (trimmed mon)) = []).
  { apply (zero_rows_lookup t col_month); [exact Hz |].
    apply get_col_Ok. exact Hmonth. }
  assert (Hrange : date_range t = Raise out_of_bounds).
  { unfold date_range. rewrite Hmonth, Hempty. reflexivity. }
  split; [exact Hrange | split].
  - unfold extract_kpi, row_iloc.
    destruct t as [| [k v] t'].
    + unfold get_col in Hmonth. discriminate Hmonth.
    + inversion Hz as [| ? ? Hv Hz']. simpl in Hv. subst v.
      reflexivity.
  - intros uploaded use_sample Hload. unfold dashboard.
    rewrite Hload, Hrange. reflexivity.
Qed.

(** The table of a file with the header line only. *)
Lemma empty_table_index_error_witness :
  exists t,
    parse_dataframe header_only = Ok t
    /\ zero_rows t
    /\ date_range t = Raise out_of_bounds
    /\ extract_kpi t = Raise out_of_bounds
    /\ forall uploaded use_sample,
         load uploaded use_sample = Ok (header_only, t) ->
         dashboard uploaded use_sample = Uncaught out_of_bounds.
Proof.
  eexists. split; [vm_compute; reflexivity |].
  split; [repeat constructor |].
  apply (empty_table_index_error header_only).
  - vm_compute. reflexivity.
  - repeat constructor.
Defined.

(** On an upload with the header line only, the script ends with an uncaught
    [IndexError]; no [EmptyDatasetError] is raised. *)
Lemma empty_table_not_empty_dataset_error :
  exists e,
    dashboard (Some header_only) false = Uncaught e
    /\ exn_class e = "IndexError"
    /\ exn_class e <> "EmptyDatasetError".
Proof.
  exists out_of_bounds. split; [vm_compute; reflexivity |].
  split; [reflexivity | discriminate].
Qed.

(** ** The sample table *)

(** C7 -- On the built-in sample the script normalises the table and extracts
    the KPIs: the total revenue is 75500000, the row of the maximal revenue
    is the row of 2024-05, the row of the minimal revenue is the row of
    2024-03, and the cumulative revenue of the row of 2024-03 is 36500000. *)
Theorem sample_kpis :
  exists df k,
    load None true = Ok (SAMPLE, df)
    /\ extract_kpi df = Ok k
    /\ total k = 75500000
    /\ loc df (max_idx k) col_month = Ok (VStr "2024-05")
    /\ loc df (min_idx k) col_month = Ok (VStr "2024-03")
    /\ (forall i, loc df i col_month = Ok (VStr "2024-03") ->
                  loc df i col_cumulative = Ok (VInt 36500000))
    /\ loc df 2 col_month = Ok (VStr "2024-03")
    /\ exists caption t, dashboard None true = Rendered caption k t.
Proof.
  eexists. eexists.
  split; [vm_compute; reflexivity |].
  split; [vm_compute; reflexivity |].
  split; [reflexivity |].
  split; [vm_compute; reflexivity |].
  split; [vm_compute; reflexivity |].
  split.
  { intros i Hi.
    assert (Hb : 0 <= i < 5).
    { unfold loc in Hi. simpl in Hi.
      destruct ((0 <=? i) && (i <? 5)) eqn:E; [| discriminate Hi].
      apply andb_true_iff in E. lia. }
    assert (Hc : i = 0 \/ i = 1 \/ i = 2 \/ i = 3 \/ i = 4) by lia.
    destruct Hc as [-> | [-> | [-> | [-> | ->]]]];
      vm_compute in Hi; try discriminate Hi; vm_compute; reflexivity. }
  split; [vm_compute; reflexivity |].
  eexists. eexists. vm_compute. reflexivity.
Qed.

(** ** The formatters *)

Lemma digit_char_is_digit (d : Z) : 0 <= d < 10 -> is_digit (digit_char d) = true.
Proof.
  intros H.
  assert (C : d = 0 \/ d = 1 \/ d = 2 \/ d = 3 \/ d = 4 \/ d = 5 \/ d = 6
              \/ d = 7 \/ d = 8 \/ d = 9) by lia.
  intuition subst; reflexivity.
Qed.

Lemma digits_loop_digit_string (fuel : nat) :
  forall n acc, 0 <= n -> all_digits acc = true ->
                digit_string (digits_loop fuel n acc).
Proof.
  induction fuel as [| fuel IH]; intros n acc Hn Hacc; simpl.
  - split; [discriminate |]. simpl.
    rewrite digit_char_is_digit, Hacc by (apply Z.mod_pos_bound; lia).
    reflexivity.
  - destruct (n <? 10).
    + split; [discriminate |]. simpl.
      rewrite digit_char_is_digit, Hacc by (apply Z.mod_pos_bound; lia).
      reflexivity.
    + apply IH; [apply Z.div_pos; lia |]. simpl.
      rewrite digit_char_is_digit, Hacc by (apply Z.mod_pos_bound; lia).
      reflexivity.
Qed.

Lemma digits_digit_string (n : Z) : 0 <= n -> digit_string (digits n).
Proof. intros H. apply digits_loop_digit_string; [exact H | reflexivity]. Qed.







(** ** Numeric coercion and the not-a-number value *)

Lemma fadd_nan_l (x : float) : fadd nan x = nan.
Proof. reflexivity. Qed.








Lemma clean_numbers_cases (col : list value) :
  (exists zs, clean_numbers col = map VInt zs
              /\ List.length zs = List.length col)
  \/ clean_numbers col = map VFloat (map cell_float col).
Proof.
  unfold clean_numbers, Numeric.to_numeric.
  destruct (forallb _ _).
  - left. rewrite !map_map. eexists. split.
    + rewrite <- map_map with (g := VInt). reflexivity.
    + rewrite length_map. reflexivity.
  - right. rewrite !map_map. reflexivity.
Qed.




Lemma argsort_bound (ps : list string) (i : nat) :
  In i (argsort ps) -> (i < List.length ps)%nat.
Proof.
  intros H. apply (Permutation_in _ (argsort_perm ps)) in H.
  apply in_seq in H. lia.
Qed.

Lemma map_nth_seq {A : Type} (l : list A) (d : A) :
  map (fun i => nth i l d) (seq 0 (List.length l)) = l.
Proof.
  induction l as [| x l IH]; simpl; [reflexivity |].
  f_equal. rewrite <- seq_shift, map_map. exact IH.
Qed.




Lemma forallb_perm {A : Type} (f : A -> bool) (l l' : list A) :
  Permutation l l' -> forallb f l' = true -> forallb f l = true.
Proof.
  intros P H. rewrite forallb_forall in *. intros x Hx.
  apply H. apply (Permutation_in _ P). exact Hx.
Qed.


(** The numeric columns of the table [parse_dataframe] returns. *)
Lemma parse_numeric_column (df t : DataFrame) (mon raw : list value) (c : string) :
  parse_dataframe df = Ok t ->
  get_col df col_month = Ok mon ->
  In c numeric_cols ->
  get_col df c = Ok raw ->
  get_col t c = Ok (take (argsort (trimmed mon)) (clean_numbers raw)).
Proof.
  intros H Hmon Hc Hraw.
  assert (Hmiss : missing_columns df = []).
  { unfold parse_dataframe in H.
    destruct (missing_columns df); [reflexivity | discriminate]. }
  destruct (present_columns df Hmiss)
    as (mon' & rev & pri & chg & Hm & Hr & Hp & Hch).
  apply get_col_Ok in Hmon, Hraw.
  rewrite Hmon in Hm. inversion Hm; subst mon'.
  rewrite (parse_dataframe_present df mon rev pri chg Hmon Hr Hp Hch) in H.
  destruct (forallb match_period (trimmed mon)); [| discriminate].
  cbv zeta in H. inv_bind H. inv_bind H. inversion H; subst t.
  unfold normalized, get_col.
  simpl in Hc. destruct Hc as [<- | [<- | [<- | []]]];
    rewrite !lookup_set_col; eval_eqb;
    rewrite lookup_sorted_frame, lookup_set_col; eval_eqb;
    unfold coerced; rewrite !lookup_set_col; eval_eqb; simpl;
    congruence.
Qed.



Lemma extract_kpi_total (t : DataFrame) (revenue : list value) (k : kpi) :
  get_col t col_revenue = Ok revenue ->
  extract_kpi t = Ok k ->
  py_int (series_sum revenue) = Ok (total k).
Proof.
  intros Hrev H. unfold extract_kpi in H. rewrite Hrev in H.
  inv_bind H. simpl in H. inv_bind H. inv_bind H. inv_bind H. inv_bind H.
  inv_bind H. inversion H. simpl. assumption.
Qed.




(** * Further properties of the code *)

(** ** The validator *)

Lemma rstrip_not_ends_with_space (s : string) :
  ends_with_space (rstrip s) = false.
Proof.
  induction s as [| c s IH]; simpl; [reflexivity |].
  destruct (rstrip s) as [| a r] eqn:E.
  - destruct (is_space c) eqn:Ec; simpl; [reflexivity | exact Ec].
  - simpl in IH. simpl. exact IH.
Qed.

Lemma match_period_stripped (s : string) :
  match_period (strip s) = true -> is_period (strip s).
Proof.
  pose proof (rstrip_not_ends_with_space (lstrip s)) as Hend.
  unfold strip in *. destruct (rstrip (lstrip s))
    as [| y1 [| y2 [| y3 [| y4 [| h [| m1 [| m2 rest]]]]]]];
    try discriminate.
  unfold match_period.
  rewrite !andb_true_iff, orb_true_iff, !String.eqb_eq, Ascii.eqb_eq.
  intros [[[[[[[H1 H2] H3] H4] Hh] H5] H6] [-> | ->]].
  - subst h. exists y1, y2, y3, y4, m1, m2. tauto.
  - simpl in Hend. discriminate Hend.
Qed.

Lemma is_period_match (p : string) : is_period p -> match_period p = true.
Proof.
  intros (y1 & y2 & y3 & y4 & m1 & m2 & -> & H1 & H2 & H3 & H4 & H5 & H6).
  unfold match_period. rewrite H1, H2, H3, H4, H5, H6. reflexivity.
Qed.



(** ** The shape of the returned table *)

Lemma columns_set_col (df : DataFrame) (c : string) (col : list value) :
  columns (set_col df c col)
  = if has_column df c then columns df else columns df ++ [c].
Proof.
  unfold has_column, columns.
  induction df as [| [k v] df IH]; simpl; [reflexivity |].
  rewrite (String.eqb_sym c k).
  destruct (String.eqb k c) eqn:E; simpl.
  - apply String.eqb_eq in E. subst k. reflexivity.
  - rewrite IH. destruct (existsb (String.eqb c) (map fst df)); reflexivity.
Qed.

Lemma columns_sorted_frame (df : DataFrame) (order : list nat) :
  columns (sorted_frame df order) = columns df.
Proof.
  unfold columns, sorted_frame. rewrite map_map. apply map_ext.
  intros [c col]. reflexivity.
Qed.

Lemma Forall_set_col (P : string * list value -> Prop) (df : DataFrame)
  (c : string) (col : list value) :
  Forall P df -> P (c, col) -> Forall P (set_col df c col).
Proof.
  intros Hdf Hc. induction df as [| [k v] df IH]; simpl.
  - constructor; [exact Hc | constructor].
  - inversion Hdf; subst.
    destruct (String.eqb k c); constructor; auto.
Qed.

Lemma has_column_set_col (df : DataFrame) (c c' : string) (col : list value) :
  has_column (set_col df c col) c' = String.eqb c c' || has_column df c'.
Proof.
  destruct (has_column (set_col df c col) c') eqn:E.
  - apply has_column_lookup in E. destruct E as [v Hv].
    rewrite lookup_set_col in Hv.
    destruct (String.eqb c c'); [reflexivity |].
    symmetry. apply (lookup_has_column _ _ _ Hv).
  - destruct (String.eqb c c') eqn:Ec.
    + assert (has_column (set_col df c col) c' = true) as C.
      { apply (lookup_has_column _ _ col). rewrite lookup_set_col, Ec.
        reflexivity. }
      congruence.
    + destruct (has_column df c') eqn:Eh; [| reflexivity].
      apply has_column_lookup in Eh. destruct Eh as [v Hv].
      assert (has_column (set_col df c col) c' = true) as C.
      { apply (lookup_has_column _ _ v). rewrite lookup_set_col, Ec. exact Hv. }
      congruence.
Qed.

(** The table [parse_dataframe] returns, with all its parts. *)
Lemma parse_dataframe_normalized (df t : DataFrame) :
  parse_dataframe df = Ok t ->
  exists mon rev pri chg cum months,
    lookup df col_month = Some mon /\ lookup df col_revenue = Some rev
    /\ lookup df col_prior = Some pri /\ lookup df col_change = Some chg
    /\ forallb match_period (trimmed mon) = true
    /\ compute_cum (take (argsort (trimmed mon)) (clean_numbers rev)) = Ok cum
    /\ astype_int (str_method last2 (map VStr (sorted_periods (trimmed mon))))
       = Ok months
    /\ t = normalized df mon rev pri chg cum months.
Proof.
  intros H.
  assert (Hmiss : missing_columns df = []).
  { unfold parse_dataframe in H.
    destruct (missing_columns df); [reflexivity | discriminate]. }
  destruct (present_columns df Hmiss)
    as (mon & rev & pri & chg & Hm & Hr & Hp & Hc).
  rewrite (parse_dataframe_present df mon rev pri chg Hm Hr Hp Hc) in H.
  destruct (forallb match_period (trimmed mon)) eqn:Hv; [| discriminate].
  cbv zeta in H. inv_bind H. inv_bind H. inversion H; subst t.
  rewrite take_argsort_periods in Hx0.
  exists mon, rev, pri, chg, x, x0. tauto.
Qed.

Lemma frame_len_Forall (df : DataFrame) (n : nat) :
  df <> [] -> Forall (fun cc => List.length (snd cc) = n) df ->
  frame_len df = n.
Proof.
  intros Hne H. destruct df as [| [k v] df]; [contradiction |].
  inversion H; subst. reflexivity.
Qed.

Lemma set_col_not_nil (df : DataFrame) (c : string) (col : list value) :
  set_col df c col <> [].
Proof.
  destruct df as [| [k v] df]; simpl; [discriminate |].
  destruct (String.eqb k c); discriminate.
Qed.

Lemma returned_rows (df t : DataFrame) (mon : list value) :
  parse_dataframe df = Ok t ->
  get_col df col_month = Ok mon ->
  Forall (fun cc : string * list value =>
            List.length (snd cc) = List.length mon) t
  /\ frame_len t = List.length mon.
Proof.
  intros H Hmon.
  destruct (parse_dataframe_normalized df t H)
    as (mon' & rev & pri & chg & cum & months
        & Hm & Hr & Hp & Hc & Hv & Hcum & Hmonths & ->).
  apply get_col_Ok in Hmon. rewrite Hmon in Hm. inversion Hm; subst mon'.
  set (n := List.length mon).
  assert (Hord : List.length (argsort (trimmed mon)) = n).
  { rewrite argsort_length. unfold trimmed. apply length_map. }
  assert (Hall : Forall (fun cc : string * list value =>
                           List.length (snd cc) = n)
                   (normalized df mon rev pri chg cum months)).
  { unfold normalized. apply Forall_set_col; [apply Forall_set_col |].
    - unfold sorted_frame. apply Forall_forall. intros [c col] Hin.
      apply in_map_iff in Hin. destruct Hin as ([c' col'] & Heq & _).
      inversion Heq; subst. simpl. rewrite take_length. exact Hord.
    - simpl. destruct (compute_cum_spec _ _ Hcum) as [Hlen _].
      rewrite Hlen, take_length. exact Hord.
    - simpl. rewrite (mapM_length _ _ _ Hmonths), str_method_length, length_map.
      rewrite (Permutation_length (sorted_periods_perm _)).
      unfold trimmed. apply length_map. }
  split; [exact Hall |].
  apply frame_len_Forall; [apply set_col_not_nil | exact Hall].
Qed.

(** X2 -- The table [parse_dataframe] returns has one cell in every column
    for each row of the raw period column.  Its columns are the columns of
    the raw table in their order, and the two derived columns, which come
    last when the raw table has no columns of those names. *)
Theorem result_shape (df t : DataFrame) (mon : list value) :
  parse_dataframe df = Ok t ->
  get_col df col_month = Ok mon ->
  rectangular t
  /\ frame_len t = List.length mon
  /\ (forall c, In c (columns t)
                <-> In c (columns df) \/ c = col_cumulative
                    \/ c = col_month_number)
  /\ (~ In col_cumulative (columns df) ->
      ~ In col_month_number (columns df) ->
      columns t = columns df ++ [col_cumulative; col_month_number]).
Proof.
  intros H Hmon.
  destruct (returned_rows df t mon H Hmon) as [Hall Hlen].
  destruct (parse_dataframe_normalized df t H)
    as (mon' & rev & pri & chg & cum & months
        & Hm & Hr & Hp & Hc & Hv & Hcum & Hmonths & ->).
  apply get_col_Ok in Hmon. rewrite Hmon in Hm. inversion Hm; subst mon'.
  assert (Hcols : columns (set_col (coerced df rev pri chg) col_month
                             (map VStr (trimmed mon))) = columns df).
  { unfold coerced. rewrite !columns_set_col, !has_column_set_col.
    rewrite (lookup_has_column _ _ _ Hmon), (lookup_has_column _ _ _ Hr),
      (lookup_has_column _ _ _ Hp), (lookup_has_column _ _ _ Hc).
    rewrite !orb_true_r. reflexivity. }
  split; [| split; [exact Hlen | split]].
  - unfold rectangular. rewrite Hlen. exact Hall.
  - intros c. unfold normalized.
    rewrite !columns_set_col, has_column_set_col.
    destruct (String.eqb col_cumulative col_month_number
              || has_column _ col_month_number) eqn:E1;
      destruct (has_column (sorted_frame _ _) col_cumulative) eqn:E2;
      rewrite ?in_app_iff, columns_sorted_frame, Hcols; simpl;
      try (apply has_column_In in E2;
           rewrite columns_sorted_frame, Hcols in E2);
      try (apply orb_true_iff in E1; destruct E1 as [E1 | E1];
           [vm_compute in E1; discriminate E1 |];
           apply has_column_In in E1;
           rewrite columns_sorted_frame, Hcols in E1);
      intuition (subst; auto).
  - intros Hn1 Hn2. unfold normalized.
    rewrite !columns_set_col, has_column_set_col.
    assert (E2 : has_column (sorted_frame
                   (set_col (coerced df rev pri chg) col_month
                      (map VStr (trimmed mon))) (argsort (trimmed mon)))
                   col_cumulative = false).
    { destruct (has_column _ col_cumulative) eqn:E; [| reflexivity].
      apply has_column_In in E. rewrite columns_sorted_frame, Hcols in E.
      contradiction. }
    assert (E1 : has_column (sorted_frame
                   (set_col (coerced df rev pri chg) col_month
                      (map VStr (trimmed mon))) (argsort (trimmed mon)))
                   col_month_number = false).
    { destruct (has_column _ col_month_number) eqn:E; [| reflexivity].
      apply has_column_In in E. rewrite columns_sorted_frame, Hcols in E.
      contradiction. }
    rewrite E1, E2. simpl. rewrite columns_sorted_frame, Hcols, <- app_assoc.
    reflexivity.
Qed.

(** A ragged-free table with a column the code does not know. *)
Lemma result_shape_witness :
  exists t,
    parse_dataframe padded = Ok t
    /\ rectangular t
    /\ frame_len t = 2%nat
    /\ (forall c, In c (columns t)
                  <-> In c (columns padded) \/ c = col_cumulative
                      \/ c = col_month_number)
    /\ (~ In col_cumulative (columns padded) ->
        ~ In col_month_number (columns padded) ->
        columns t = columns padded ++ [col_cumulative; col_month_number]).
Proof.
  eexists. split.
  - vm_compute. reflexivity.
  - apply (result_shape padded _
             [VStr (String (chr 9) "2024-02" +++ String (chr 10) EmptyString);
              VStr " 2024-01  "]).
    + vm_compute. reflexivity.
    + reflexivity.
Defined.

(** ** What the validator accepts *)

Lemma lookup_In (df : DataFrame) (c : string) (col : list value) :
  lookup df c = Some col -> In (c, col) df.
Proof.
  induction df as [| [k v] df IH]; simpl; intros H; [discriminate |].
  destruct (String.eqb k c) eqn:E.
  - apply String.eqb_eq in E. inversion H; subst. left. reflexivity.
  - right. apply IH, H.
Qed.

Lemma rectangular_lookup (df : DataFrame) (c : string) (col : list value) :
  rectangular df -> lookup df c = Some col ->
  List.length col = frame_len df.
Proof.
  intros Hr H. unfold rectangular in Hr. rewrite Forall_forall in Hr.
  apply (Hr (c, col)), lookup_In, H.
Qed.




(** ** Rows stay whole *)

Lemma sorted_periods_nth (ps : list string) :
  sorted_periods ps = map (fun i => nth i ps EmptyString) (argsort ps).
Proof.
  unfold sorted_periods, argsort. rewrite map_map.
  apply map_ext_in. intros [k i] Hin. simpl.
  apply (Permutation_in _ (sort_keys_perm _)) in Hin.
  apply (in_combine_seq ps 0 k i EmptyString) in Hin.
  destruct Hin as [_ Hn]. rewrite Nat.sub_0_r in Hn. symmetry. exact Hn.
Qed.

Lemma combine_map_same {A B C : Type} (f : A -> B) (g : A -> C) (l : list A) :
  combine (map f l) (map g l) = map (fun a => (f a, g a)) l.
Proof. induction l as [| a l IH]; simpl; [| rewrite IH]; reflexivity. Qed.

Lemma combine_nth_seq {A B : Type} (l1 : list A) (l2 : list B) (d1 : A) (d2 : B) :
  List.length l1 = List.length l2 ->
  map (fun i => (nth i l1 d1, nth i l2 d2)) (seq 0 (List.length l1))
  = combine l1 l2.
Proof.
  revert l2. induction l1 as [| a l1 IH]; intros [| b l2] H; simpl in *;
    try discriminate; [reflexivity |].
  f_equal. rewrite <- seq_shift, map_map. apply IH. lia.
Qed.

(** X4 -- Sorting moves whole rows.  In the table [parse_dataframe] returns,
    the pairs of a period and the value beside it in a numeric column are
    the pairs of the raw table (trimmed label, coerced number) in another
    order: no row is lost, repeated or mixed with another. *)
Theorem rows_stay_whole (df t : DataFrame) (mon raw : list value) (c : string) :
  parse_dataframe df = Ok t ->
  get_col df col_month = Ok mon ->
  In c numeric_cols ->
  get_col df c = Ok raw ->
  List.length raw = List.length mon ->
  exists periods col,
    get_col t col_month = Ok (map VStr periods)
    /\ get_col t c = Ok col
    /\ Permutation (combine periods col)
         (combine (trimmed mon) (clean_numbers raw)).
Proof.
  intros H Hmon Hc Hraw Hlen.
  destruct (parse_dataframe_Ok df t H) as (mon' & rev & cum & months & N).
  pose proof (nf_raw_month _ _ _ _ _ _ N) as Hmon'.
  rewrite Hmon in Hmon'. inversion Hmon'; subst mon'.
  exists (sorted_periods (trimmed mon)),
    (take (argsort (trimmed mon)) (clean_numbers raw)).
  split; [exact (nf_month _ _ _ _ _ _ N) |].
  split; [exact (parse_numeric_column df t mon raw c H Hmon Hc Hraw) |].
  rewrite sorted_periods_nth. unfold take. rewrite combine_map_same.
  rewrite (Permutation_map _ (argsort_perm (trimmed mon))).
  rewrite combine_nth_seq; [reflexivity |].
  unfold trimmed. rewrite length_map.
  destruct (clean_numbers_cases raw) as [(zs & -> & Hz) | ->];
    rewrite !length_map; lia.
Qed.

(** Three rows out of order. *)
Lemma rows_stay_whole_witness :
  exists t,
    parse_dataframe shuffled = Ok t
    /\ exists periods col,
         get_col t col_month = Ok (map VStr periods)
         /\ get_col t col_revenue = Ok col
         /\ Permutation (combine periods col)
              (combine ["2024-03"; "2023-12"; "2024-01"]
                 [VInt 3000; VInt 1000; VInt 2000]).
Proof.
  eexists. split.
  - vm_compute. reflexivity.
  - apply (rows_stay_whole shuffled _
             [VStr "2024-03 "; VStr "2023-12"; VStr " 2024-01"]
             [VStr "3,000"; VStr "1,000"; VStr "2 000"] col_revenue).
    + vm_compute. reflexivity.
    + reflexivity.
    + simpl. tauto.
    + reflexivity.
    + reflexivity.
Defined.

Lemma eqb_false_of_neq (a b : string) : a <> b -> String.eqb a b = false.
Proof. intros H. apply String.eqb_neq. exact H. Qed.

(** X5 -- A column of the raw table that [parse_dataframe] does not know is
    kept as it is: its cells are in the returned table, unchanged, each still
    beside the period of its row. *)
Theorem other_columns_kept (df t : DataFrame) (mon raw : list value) (c : string) :
  parse_dataframe df = Ok t ->
  get_col df col_month = Ok mon ->
  get_col df c = Ok raw ->
  ~ In c [col_month; col_revenue; col_prior; col_change; col_cumulative;
          col_month_number] ->
  List.length raw = List.length mon ->
  exists periods col,
    get_col t col_month = Ok (map VStr periods)
    /\ get_col t c = Ok col
    /\ Permutation (combine periods col) (combine (trimmed mon) raw).
Proof.
  intros H Hmon Hraw Hc Hlen.
  destruct (parse_dataframe_normalized df t H)
    as (mon' & rev & pri & chg & cum & months
        & Hm & Hr & Hp & Hch & Hv & Hcum & Hmonths & ->).
  apply get_col_Ok in Hmon, Hraw.
  rewrite Hmon in Hm. inversion Hm; subst mon'.
  simpl in Hc.
  assert (N1 : String.eqb col_month c = false)
    by (apply eqb_false_of_neq; tauto).
  assert (N2 : String.eqb col_revenue c = false)
    by (apply eqb_false_of_neq; tauto).
  assert (N3 : String.eqb col_prior c = false)
    by (apply eqb_false_of_neq; tauto).
  assert (N4 : String.eqb col_change c = false)
    by (apply eqb_false_of_neq; tauto).
  assert (N5 : String.eqb col_cumulative c = false)
    by (apply eqb_false_of_neq; tauto).
  assert (N6 : String.eqb col_month_number c = false)
    by (apply eqb_false_of_neq; tauto).
  exists (sorted_periods (trimmed mon)), (take (argsort (trimmed mon)) raw).
  split; [| split].
  - unfold normalized, get_col. rewrite !lookup_set_col. eval_eqb.
    rewrite lookup_sorted_frame, lookup_set_col, String.eqb_refl. simpl.
    rewrite take_argsort_periods. reflexivity.
  - unfold normalized, get_col. rewrite !lookup_set_col, N5, N6.
    rewrite lookup_sorted_frame, lookup_set_col, N1.
    unfold coerced. rewrite !lookup_set_col, N2, N3, N4, Hraw. reflexivity.
  - rewrite sorted_periods_nth. unfold take. rewrite combine_map_same.
    rewrite (Permutation_map _ (argsort_perm (trimmed mon))).
    rewrite combine_nth_seq; [reflexivity |].
    unfold trimmed. rewrite length_map. lia.
Qed.

(** A table with a memo column. *)
Lemma other_columns_kept_witness :
  exists t,
    parse_dataframe padded = Ok t
    /\ exists periods col,
         get_col t col_month = Ok (map VStr periods)
         /\ get_col t "memo" = Ok col
         /\ Permutation (combine periods col)
              (combine ["2024-02"; "2024-01"] [VStr "b"; VStr "a"]).
Proof.
  eexists. split.
  - vm_compute. reflexivity.
  - apply (other_columns_kept padded _
             [VStr (String (chr 9) "2024-02" +++ String (chr 10) EmptyString);
              VStr " 2024-01  "]
             [VStr "b"; VStr "a"] "memo").
    + vm_compute. reflexivity.
    + reflexivity.
    + reflexivity.
    + simpl. intros [E | [E | [E | [E | [E | [E | []]]]]]]; discriminate E.
    + reflexivity.
Defined.

(** ** Whole numbers as text *)

Lemma digit_val_digit_char (d : Z) : 0 <= d < 10 -> digit_val (digit_char d) = d.
Proof.
  intros H.
  assert (C : d = 0 \/ d = 1 \/ d = 2 \/ d = 3 \/ d = 4 \/ d = 5 \/ d = 6
              \/ d = 7 \/ d = 8 \/ d = 9) by lia.
  intuition subst; reflexivity.
Qed.

Lemma digits_value_shift (s : string) (acc : Z) :
  digits_value acc s
  = acc * 10 ^ Z.of_nat (String.length s) + digits_value 0 s.
Proof.
  revert acc. induction s as [| c s IH]; intros acc; simpl String.length.
  - simpl. lia.
  - cbn [digits_value]. rewrite (IH (10 * acc + digit_val c)),
      (IH (10 * 0 + digit_val c)).
    rewrite Nat2Z.inj_succ, Z.pow_succ_r by lia. ring.
Qed.

Lemma take_digits_all (s : string) (acc n : Z) :
  all_digits s = true ->
  Numeric.take_digits acc n s
  = (digits_value acc s, n + Z.of_nat (String.length s), EmptyString).
Proof.
  revert acc n. induction s as [| c s IH]; intros acc n H.
  - simpl. rewrite Z.add_0_r. reflexivity.
  - simpl in H. apply andb_true_iff in H. destruct H as [Hc Hs].
    cbn [Numeric.take_digits digits_value]. rewrite Hc, (IH _ _ Hs).
    simpl String.length. rewrite Nat2Z.inj_succ.
    f_equal. f_equal. lia.
Qed.

Lemma digits_loop_value (fuel : nat) :
  forall n s, 0 <= n < 10 ^ Z.of_nat (S fuel) ->
    digits_value 0 (digits_loop fuel n s)
    = n * 10 ^ Z.of_nat (String.length s) + digits_value 0 s.
Proof.
  induction fuel as [| fuel IH]; intros n s Hn.
  - change (10 ^ Z.of_nat 1) with 10 in Hn.
    cbn [digits_loop digits_value]. rewrite Z.mod_small by lia.
    rewrite digit_val_digit_char by lia.
    rewrite digits_value_shift. ring.
  - cbn [digits_loop]. destruct (n <? 10) eqn:E.
    + apply Z.ltb_lt in E. cbn [digits_value].
      rewrite Z.mod_small by lia. rewrite digit_val_digit_char by lia.
      rewrite digits_value_shift. ring.
    + apply Z.ltb_ge in E. rewrite IH.
      * cbn [digits_value String.length].
        rewrite digit_val_digit_char by (apply Z.mod_pos_bound; lia).
        rewrite (digits_value_shift s (10 * 0 + n mod 10)).
        rewrite Nat2Z.inj_succ, Z.pow_succ_r by lia.
        pose proof (Z.div_mod n 10 ltac:(lia)) as Hdm.
        set (p := 10 ^ Z.of_nat (String.length s)) in *.
        set (v := digits_value 0 s) in *.
        replace (n * p) with ((10 * (n / 10) + n mod 10) * p) by (rewrite <- Hdm; reflexivity).
        ring.
      * split; [apply Z.div_pos; lia |].
        apply Z.div_lt_upper_bound; [lia |].
        rewrite <- Z.pow_succ_r by lia. rewrite <- Nat2Z.inj_succ.
        apply Hn.
Qed.

Lemma digits_value_digits (n : Z) : 0 <= n -> digits_value 0 (digits n) = n.
Proof.
  intros Hn. unfold digits. rewrite digits_loop_value.
  - simpl. lia.
  - split; [exact Hn |].
    rewrite Nat2Z.inj_succ, Z2Nat.id by apply Z.log2_nonneg.
    destruct (Z.eq_dec n 0) as [-> | Hne].
    + simpl. lia.
    + pose proof (Z.log2_spec n ltac:(lia)) as [_ Hu].
      eapply Z.lt_le_trans; [exact Hu |].
      apply Z.pow_le_mono_l. pose proof (Z.log2_nonneg n). lia.
Qed.

Lemma all_digits_no_char (x : ascii) (s : string) :
  is_digit x = false -> all_digits s = true -> contains_char x s = false.
Proof.
  intros Hx. induction s as [| c s IH]; simpl; intros H; [reflexivity |].
  apply andb_true_iff in H. destruct H as [Hc Hs].
  rewrite (IH Hs), orb_false_r.
  destruct (Ascii.eqb c x) eqn:E; [| reflexivity].
  apply Ascii.eqb_eq in E. subst c. congruence.
Qed.

Lemma remove_char_absent (x : ascii) (s : string) :
  contains_char x s = false -> remove_char x s = s.
Proof.
  induction s as [| c s IH]; simpl; intros H; [reflexivity |].
  apply orb_false_iff in H. destruct H as [Hc Hs].
  rewrite Hc, (IH Hs). reflexivity.
Qed.

Lemma remove_comma_group3 (ds : string) :
  remove_char "," (group3 ds) = remove_char "," ds.
Proof.
  induction ds as [| c ds IH]; [reflexivity |].
  cbn [group3]. destruct (_ && _); cbn [remove_char String.append];
    destruct (Ascii.eqb c ","); simpl; rewrite IH; reflexivity.
Qed.

Lemma clean_digits (ds : string) :
  all_digits ds = true ->
  remove_char " " (remove_char "," (group3 ds)) = ds
  /\ remove_char " " (remove_char "," ds) = ds.
Proof.
  intros H. rewrite remove_comma_group3.
  rewrite (remove_char_absent "," ds), (remove_char_absent " " ds);
    [split; reflexivity | |]; apply all_digits_no_char; auto.
Qed.

Lemma digit_string_head (ds : string) :
  digit_string ds -> exists c s, ds = String c s /\ is_digit c = true.
Proof.
  intros [Hne H]. destruct ds as [| c s]; [contradiction |].
  simpl in H. apply andb_true_iff in H. exists c, s. tauto.
Qed.

Lemma parse_number_digits (ds : string) (neg : bool) :
  digit_string ds ->
  Numeric.parse_number (sign_text neg +++ ds)
  = Some (Numeric.Decimal true neg (digits_value 0 ds) 0).
Proof.
  intros Hds. pose proof Hds as [Hne Hall].
  destruct (digit_string_head ds Hds) as (c & s & -> & Hc).
  unfold Numeric.parse_number.
  assert (Hsign : Numeric.take_sign
                    (Numeric.skip_space (sign_text neg +++ String c s))
                  = (neg, String c s)).
  { apply is_digit_cases in Hc. simpl in Hc.
    destruct neg; intuition subst; reflexivity. }
  rewrite Hsign, (take_digits_all _ 0 0 Hall). cbn iota beta.
  simpl String.length. rewrite Nat2Z.inj_succ.
  replace (0 <? 0 + Z.succ (Z.of_nat (String.length s)) + 0) with true
    by (symmetry; apply Z.ltb_lt; lia).
  simpl. reflexivity.
Qed.

Lemma str_of_int_sign (z : Z) :
  str_of_int z = sign_text (z <? 0) +++ digits (Z.abs z).
Proof.
  unfold str_of_int. destruct (z <? 0) eqn:E.
  - apply Z.ltb_lt in E. rewrite Z.abs_neq by lia. reflexivity.
  - apply Z.ltb_ge in E. rewrite Z.abs_eq by lia. reflexivity.
Qed.

Lemma format_grouped_sign (z : Z) :
  format_grouped z = sign_text (z <? 0) +++ group3 (digits (Z.abs z)).
Proof.
  unfold format_grouped. destruct (z <? 0) eqn:E.
  - apply Z.ltb_lt in E. rewrite Z.abs_neq by lia. reflexivity.
  - apply Z.ltb_ge in E. rewrite Z.abs_eq by lia. reflexivity.
Qed.

Lemma remove_char_sign (x : ascii) (neg : bool) (s : string) :
  Ascii.eqb "-" x = false ->
  remove_char x (sign_text neg +++ s) = sign_text neg +++ remove_char x s.
Proof.
  intros H. destruct neg; cbn [sign_text String.append remove_char];
    [rewrite H |]; reflexivity.
Qed.

(** A whole number in the int64 range, written plainly or with thousands
    separators, is read back as itself. *)
Lemma read_scalar_int (z : Z) :
  in_int64 z ->
  (exists f, Numeric.read_scalar (VStr (clean_text (VInt z)))
             = Some (Numeric.SInt z f))
  /\ (exists f, Numeric.read_scalar (VStr (clean_text (VStr (fmt_money (VInt z)))))
                = Some (Numeric.SInt z f)).
Proof.
  intros Hz.
  pose proof (digits_digit_string (Z.abs z) (Z.abs_nonneg z)) as Hds.
  destruct (clean_digits (digits (Z.abs z)) (proj2 Hds)) as [Hg Hp].
  assert (Hread : exists f,
             Numeric.read_scalar
               (VStr (sign_text (z <? 0) +++ digits (Z.abs z)))
             = Some (Numeric.SInt z f)).
  { cbn [Numeric.read_scalar]. rewrite (parse_number_digits _ _ Hds).
    rewrite digits_value_digits by apply Z.abs_nonneg.
    cbn [Numeric.literal_int64].
    assert (Hc : cond_Zopp (z <? 0) (Z.abs z) = z).
    { destruct (z <? 0) eqn:E; simpl.
      - apply Z.ltb_lt in E. lia.
      - apply Z.ltb_ge in E. lia. }
    rewrite Hc. destruct Hz as [Hlo Hhi].
    apply Z.leb_le in Hlo, Hhi. rewrite Hlo, Hhi. simpl.
    eexists. reflexivity. }
  split.
  - unfold clean_text. cbn [py_str]. rewrite str_of_int_sign.
    rewrite !remove_char_sign by reflexivity. rewrite Hp. exact Hread.
  - unfold clean_text, fmt_money. cbn [py_int py_str].
    rewrite format_grouped_sign.
    rewrite !remove_char_sign by reflexivity. rewrite Hg. exact Hread.
Qed.

Lemma to_numeric_ints (f : Z -> value) (zs : list Z) :
  (forall z, In z zs ->
             exists x, Numeric.read_scalar (f z) = Some (Numeric.SInt z x)) ->
  Numeric.to_numeric (map f zs) = map VInt zs.
Proof.
  intros H. unfold Numeric.to_numeric. rewrite map_map.
  assert (Hint : forallb Numeric.is_int
                   (map (fun z => Numeric.read_scalar (f z)) zs) = true).
  { apply forallb_forall. intros o Ho. apply in_map_iff in Ho.
    destruct Ho as (z & <- & Hz). destruct (H z Hz) as [x ->]. reflexivity. }
  rewrite Hint, map_map. apply map_ext_in. intros z Hz.
  destruct (H z Hz) as [x ->]. reflexivity.
Qed.

(** X6 -- The numeric coercion of [parse_dataframe] leaves a column of whole
    numbers in the int64 range as it is: written out by [astype(str)] and
    read again, every cell is the same int. *)
Theorem whole_numbers_unchanged (zs : list Z) :
  Forall in_int64 zs ->
  clean_numbers (map VInt zs) = map VInt zs.
Proof.
  intros H. rewrite Forall_forall in H.
  unfold clean_numbers. rewrite map_map.
  apply (to_numeric_ints (fun z => VStr (clean_text (VInt z)))).
  intros z Hz. apply (read_scalar_int z (H z Hz)).
Qed.

Lemma whole_numbers_unchanged_witness :
  Forall in_int64 [12000000; -5; 0; 9223372036854775807]
  /\ clean_numbers (map VInt [12000000; -5; 0; 9223372036854775807])
     = map VInt [12000000; -5; 0; 9223372036854775807].
Proof.
  assert (H : Forall in_int64 [12000000; -5; 0; 9223372036854775807]).
  { repeat constructor; vm_compute; discriminate. }
  split; [exact H | exact (whole_numbers_unchanged _ H)].
Defined.

(** X7 -- What [fmt_money] writes for a whole number is that number with
    thousands separators and nothing else: with the commas deleted it is
    [str] of the number, and the numeric coercion of [parse_dataframe] reads
    a column of such texts back as the numbers. *)
Theorem fmt_money_reads_back (zs : list Z) :
  Forall in_int64 zs ->
  (forall z, remove_char "," (fmt_money (VInt z)) = str_of_int z)
  /\ clean_numbers (map (fun z => VStr (fmt_money (VInt z))) zs)
     = map VInt zs.
Proof.
  intros H. rewrite Forall_forall in H. split.
  - intros z. unfold fmt_money. cbn [py_int].
    rewrite format_grouped_sign, str_of_int_sign.
    rewrite remove_char_sign by reflexivity.
    rewrite remove_comma_group3, remove_char_absent; [reflexivity |].
    apply all_digits_no_char; [reflexivity |].
    apply digits_digit_string, Z.abs_nonneg.
  - unfold clean_numbers. rewrite map_map.
    apply (to_numeric_ints
             (fun z => VStr (clean_text (VStr (fmt_money (VInt z)))))).
    intros z Hz. apply (read_scalar_int z (H z Hz)).
Qed.

Lemma fmt_money_reads_back_witness :
  Forall in_int64 [12000000; -1234567; 999; 1000]
  /\ (forall z, remove_char "," (fmt_money (VInt z)) = str_of_int z)
  /\ clean_numbers
       (map (fun z => VStr (fmt_money (VInt z))) [12000000; -1234567; 999; 1000])
     = map VInt [12000000; -1234567; 999; 1000].
Proof.
  assert (H : Forall in_int64 [12000000; -1234567; 999; 1000]).
  { repeat constructor; vm_compute; discriminate. }
  split; [exact H | exact (fmt_money_reads_back _ H)].
Defined.

(** ** Whole-number revenues *)

Lemma compute_cum_loop_int_cum (zs : list Z) :
  forall (s : Z) (out : list value),
    compute_cum_loop (VInt s) out (map VInt zs)
    = Ok (out ++ map VInt (int_cum s zs)).
Proof.
  induction zs as [| z zs IH]; intros s out; simpl.
  - rewrite app_nil_r. reflexivity.
  - rewrite IH, <- app_assoc. reflexivity.
Qed.

Lemma compute_cum_ints (zs : list Z) :
  compute_cum (map VInt zs) = Ok (map VInt (int_cum 0 zs)).
Proof. unfold compute_cum. rewrite compute_cum_loop_int_cum. reflexivity. Qed.

Lemma fold_add_shift (zs : list Z) (s : Z) :
  fold_left Z.add zs s = s + fold_left Z.add zs 0.
Proof.
  revert s. induction zs as [| z zs IH]; intros s; simpl; [lia |].
  rewrite (IH (s + z)), (IH z). lia.
Qed.

Lemma int_cum_length (zs : list Z) (s : Z) :
  List.length (int_cum s zs) = List.length zs.
Proof.
  revert s. induction zs as [| z zs IH]; intros s; simpl;
    [| rewrite IH]; reflexivity.
Qed.

Lemma nth_int_cum (zs : list Z) :
  forall s i, (i < List.length zs)%nat ->
    nth i (int_cum s zs) 0 = s + int_sum (firstn (S i) zs).
Proof.
  unfold int_sum. induction zs as [| z zs IH]; intros s i Hi; simpl in Hi;
    [lia |].
  destruct i as [| i].
  - simpl. lia.
  - change (nth (S i) (int_cum s (z :: zs)) 0)
      with (nth i (int_cum (s + z) zs) 0).
    change (fold_left Z.add (firstn (S (S i)) (z :: zs)) 0)
      with (fold_left Z.add (firstn (S i) zs) (0 + z)).
    rewrite IH by lia.
    rewrite (fold_add_shift (firstn (S i) zs) (0 + z)). lia.
Qed.

Lemma wrap64_in_range (z : Z) : in_int64 z -> wrap64 z = z.
Proof.
  unfold in_int64, Numeric.int64_min, Numeric.int64_max, wrap64.
  intros H. rewrite Z.mod_small by lia. lia.
Qed.

Lemma series_sum_ints (zs : list Z) :
  series_sum (map VInt zs) = VInt (wrap64 (int_sum zs)).
Proof.
  unfold series_sum, int_sum.
  assert (H : forallb is_VInt (map VInt zs) = true).
  { apply forallb_forall. intros v Hv. apply in_map_iff in Hv.
    destruct Hv as (z & <- & _). reflexivity. }
  rewrite H, map_map. simpl. rewrite map_id. reflexivity.
Qed.

(** X8 -- When the revenues of the returned table are whole numbers whose
    sum is in the int64 range, the total of the KPIs is that sum, and it is
    the cumulative revenue of the last row: the KPI and the end of the
    cumulative chart agree. *)
Theorem total_is_last_cumulative (df t : DataFrame) (zs : list Z) (k : kpi) :
  parse_dataframe df = Ok t ->
  get_col t col_revenue = Ok (map VInt zs) ->
  in_int64 (int_sum zs) ->
  extract_kpi t = Ok k ->
  total k = int_sum zs
  /\ exists cum,
       get_col t col_cumulative = Ok cum
       /\ iloc cum (-1) = Ok (VInt (total k)).
Proof.
  intros H Hrev Hsum Hk.
  pose proof (extract_kpi_total t _ k Hrev Hk) as Htotal.
  rewrite series_sum_ints, wrap64_in_range in Htotal by exact Hsum.
  simpl in Htotal. inversion Htotal as [Ht]. split; [reflexivity |].
  destruct (parse_dataframe_Ok df t H) as (mon & rev & cum & months & N).
  pose proof (nf_revenue _ _ _ _ _ _ N) as Hrev'. rewrite Hrev in Hrev'.
  inversion Hrev' as [Heq].
  pose proof (nf_cum _ _ _ _ _ _ N) as Hcum.
  rewrite <- Heq, compute_cum_ints in Hcum. inversion Hcum; subst cum.
  exists (map VInt (int_cum 0 zs)).
  split; [exact (nf_cumulative _ _ _ _ _ _ N) |].
  assert (Hne : zs <> []).
  { intros ->. unfold extract_kpi in Hk. rewrite Hrev in Hk.
    destruct (row_iloc t (-1)); simpl in Hk; discriminate Hk. }
  unfold iloc. rewrite length_map, int_cum_length.
  destruct zs as [| z zs']; [contradiction |].
  set (n := List.length (z :: zs')).
  assert (Hn : (0 < n)%nat) by (unfold n; simpl; lia).
  replace (-1 <? 0) with true by reflexivity.
  replace ((0 <=? Z.of_nat n + -1) && (Z.of_nat n + -1 <? Z.of_nat n))
    with true
    by (symmetry; apply andb_true_iff; split;
        [apply Z.leb_le | apply Z.ltb_lt]; lia).
  f_equal.
  rewrite (nth_indep _ (VFloat nan) (VInt 0))
    by (rewrite length_map, int_cum_length; fold n; lia).
  rewrite (map_nth VInt). f_equal.
  rewrite nth_int_cum by (fold n; lia).
  replace (S (Z.to_nat (Z.of_nat n + -1))) with n by lia.
  unfold n. rewrite firstn_all. lia.
Qed.

Lemma total_is_last_cumulative_witness :
  exists t k,
    parse_dataframe whole_numbers = Ok t
    /\ extract_kpi t = Ok k
    /\ total k = int_sum [700; 1500; 0]
    /\ exists cum,
         get_col t col_cumulative = Ok cum
         /\ iloc cum (-1) = Ok (VInt (total k)).
Proof.
  eexists. eexists.
  split; [vm_compute; reflexivity |].
  split; [vm_compute; reflexivity |].
  apply (total_is_last_cumulative whole_numbers _ [700; 1500; 0]).
  - vm_compute. reflexivity.
  - reflexivity.
  - vm_compute. split; discriminate.
  - vm_compute. reflexivity.
Defined.

Lemma int_cum_sorted (zs : list Z) :
  Forall (fun z => 0 <= z) zs ->
  forall s, StronglySorted Z.le (int_cum s zs)
            /\ Forall (fun c => s <= c) (int_cum s zs).
Proof.
  induction 1 as [| z zs Hz Hzs IH]; intros s; simpl.
  - split; constructor.
  - destruct (IH (s + z)) as [Hs Hall]. split.
    + constructor; assumption.
    + constructor; [lia |].
      eapply Forall_impl; [| exact Hall]. simpl. intros c Hc. lia.
Qed.

(** X9 -- When the revenues of the returned table are whole numbers that are
    not negative, its cumulative revenues are whole numbers that never go
    down from one row to the next. *)
Theorem cumulative_never_decreases (df t : DataFrame) (zs : list Z) :
  parse_dataframe df = Ok t ->
  get_col t col_revenue = Ok (map VInt zs) ->
  Forall (fun z => 0 <= z) zs ->
  exists cs,
    get_col t col_cumulative = Ok (map VInt cs)
    /\ List.length cs = List.length zs
    /\ StronglySorted Z.le cs.
Proof.
  intros H Hrev Hpos.
  destruct (parse_dataframe_Ok df t H) as (mon & rev & cum & months & N).
  pose proof (nf_revenue _ _ _ _ _ _ N) as Hrev'. rewrite Hrev in Hrev'.
  inversion Hrev' as [Heq].
  pose proof (nf_cum _ _ _ _ _ _ N) as Hcum.
  rewrite <- Heq, compute_cum_ints in Hcum. inversion Hcum; subst cum.
  exists (int_cum 0 zs).
  split; [exact (nf_cumulative _ _ _ _ _ _ N) |].
  split; [apply int_cum_length |].
  apply (int_cum_sorted zs Hpos 0).
Qed.

Lemma cumulative_never_decreases_witness :
  exists t,
    parse_dataframe whole_numbers = Ok t
    /\ exists cs,
         get_col t col_cumulative = Ok (map VInt cs)
         /\ List.length cs = List.length [700; 1500; 0]
         /\ StronglySorted Z.le cs.
Proof.
  eexists. split; [vm_compute; reflexivity |].
  apply (cumulative_never_decreases whole_numbers _ [700; 1500; 0]).
  - vm_compute. reflexivity.
  - reflexivity.
  - repeat constructor; lia.
Defined.

(** ** The best and the worst month *)

Lemma first_best_ints (beats : Z -> Z -> bool)
  (better : value -> value -> bool) :
  (forall a b, better (VInt a) (VInt b) = beats a b) ->
  (forall a b c, beats a b = true -> beats b c = true -> beats a c = true) ->
  (forall z b m, beats z b = false -> beats m b = true -> beats m z = true) ->
  forall (zs : list Z) (bi bm i : Z),
  exists r m,
    first_best better (Some (bi, VInt bm)) i (map VInt zs) = Some (r, VInt m)
    /\ ((r = bi /\ m = bm /\ Forall (fun x => beats x bm = false) zs)
        \/ exists pre post,
             zs = pre ++ m :: post
             /\ r = i + Z.of_nat (List.length pre)
             /\ beats m bm = true
             /\ Forall (fun x => beats m x = true) pre
             /\ Forall (fun x => beats x m = false) post).
Proof.
  intros Hb Htrans Hneg.
  induction zs as [| z zs IH]; intros bi bm i.
  - exists bi, bm. split; [reflexivity |]. left. auto.
  - cbn [map first_best is_na]. rewrite Hb.
    destruct (beats z bm) eqn:E.
    + destruct (IH i z (i + 1)) as (r & m & Hr & Hcase).
      exists r, m. split; [exact Hr |]. right.
      destruct Hcase as [(-> & -> & Hall) | (pre & post & -> & -> & Hm & Hpre & Hpost)].
      * exists [], zs. simpl. repeat split; auto. lia.
      * exists (z :: pre), post. simpl. repeat split; auto.
        -- lia.
        -- apply (Htrans _ _ _ Hm E).
    + destruct (IH bi bm (i + 1)) as (r & m & Hr & Hcase).
      exists r, m. split; [exact Hr |].
      destruct Hcase as [(-> & -> & Hall) | (pre & post & -> & -> & Hm & Hpre & Hpost)].
      * left. auto.
      * right. exists (z :: pre), post. simpl. repeat split; auto.
        -- lia.
        -- constructor; [| exact Hpre]. apply (Hneg _ _ _ E Hm).
Qed.

Lemma first_best_ints_start (beats : Z -> Z -> bool)
  (better : value -> value -> bool) :
  (forall a b, better (VInt a) (VInt b) = beats a b) ->
  (forall a b c, beats a b = true -> beats b c = true -> beats a c = true) ->
  (forall z b m, beats z b = false -> beats m b = true -> beats m z = true) ->
  forall (zs : list Z), zs <> [] ->
  exists pre m post,
    first_best better None 0 (map VInt zs)
    = Some (Z.of_nat (List.length pre), VInt m)
    /\ zs = pre ++ m :: post
    /\ Forall (fun x => beats m x = true) pre
    /\ Forall (fun x => beats x m = false) post.
Proof.
  intros Hb Htrans Hneg zs Hne.
  destruct zs as [| z zs]; [contradiction |].
  cbn [map first_best is_na].
  destruct (first_best_ints beats better Hb Htrans Hneg zs 0 z (0 + 1))
    as (r & m & Hr & Hcase).
  rewrite Hr.
  destruct Hcase as [(-> & -> & Hall) | (pre & post & -> & -> & Hm & Hpre & Hpost)].
  - exists [], z, zs. simpl. auto.
  - exists (z :: pre), m, post. repeat split; auto.
    f_equal. f_equal. simpl List.length. lia.
Qed.

Lemma idxmax_ints (zs : list Z) :
  zs <> [] ->
  exists i, idxmax (map VInt zs) = Ok (VInt i) /\ first_max zs i.
Proof.
  intros Hne.
  destruct (first_best_ints_start (fun a b => b <? a)
              (fun a b => num_ltb b a)) with (zs := zs)
    as (pre & m & post & Hr & Hzs & Hpre & Hpost).
  - reflexivity.
  - intros a b c H1 H2. apply Z.ltb_lt in H1, H2. apply Z.ltb_lt. lia.
  - intros z b m H1 H2. apply Z.ltb_ge in H1. apply Z.ltb_lt in H2.
    apply Z.ltb_lt. lia.
  - exact Hne.
  - exists (Z.of_nat (List.length pre)). split.
    + unfold idxmax. rewrite Hr.
      destruct zs; [contradiction | reflexivity].
    + exists pre, m, post. repeat split; auto.
      * eapply Forall_impl; [| exact Hpre]. simpl. intros a Ha.
        apply Z.ltb_lt in Ha. exact Ha.
      * eapply Forall_impl; [| exact Hpost]. simpl. intros a Ha.
        apply Z.ltb_ge in Ha. exact Ha.
Qed.

Lemma idxmin_ints (zs : list Z) :
  zs <> [] ->
  exists i, idxmin (map VInt zs) = Ok (VInt i) /\ first_min zs i.
Proof.
  intros Hne.
  destruct (first_best_ints_start (fun a b => a <? b) num_ltb) with (zs := zs)
    as (pre & m & post & Hr & Hzs & Hpre & Hpost).
  - reflexivity.
  - intros a b c H1 H2. apply Z.ltb_lt in H1, H2. apply Z.ltb_lt. lia.
  - intros z b m H1 H2. apply Z.ltb_ge in H1. apply Z.ltb_lt in H2.
    apply Z.ltb_lt. lia.
  - exact Hne.
  - exists (Z.of_nat (List.length pre)). split.
    + unfold idxmin. rewrite Hr.
      destruct zs; [contradiction | reflexivity].
    + exists pre, m, post. repeat split; auto.
      * eapply Forall_impl; [| exact Hpre]. simpl. intros a Ha.
        apply Z.ltb_lt in Ha. exact Ha.
      * eapply Forall_impl; [| exact Hpost]. simpl. intros a Ha.
        apply Z.ltb_ge in Ha. exact Ha.
Qed.

Lemma extract_kpi_rows (t : DataFrame) (revenue : list value) (k : kpi) :
  get_col t col_revenue = Ok revenue ->
  extract_kpi t = Ok k ->
  revenue <> [].
Proof.
  intros Hrev H ->. unfold extract_kpi in H. inv_bind H.
  unfold row_iloc in Hx. apply get_col_Ok in Hrev.
  apply lookup_In in Hrev.
  apply in_split in Hrev. destruct Hrev as (l1 & l2 & ->).
  clear H. revert x Hx. induction l1 as [| [c col] l1 IH]; intros x Hx.
  - simpl in Hx. discriminate Hx.
  - simpl in Hx. inv_bind Hx. inv_bind Hx.
    apply (IH _ Hx1).
Qed.

(** X10 -- On a table whose revenues are whole numbers, the KPI [max_idx] is
    the row of the first greatest revenue and [min_idx] the row of the first
    least revenue: every earlier row is strictly below (above) it and no
    later row exceeds (undercuts) it. *)
Theorem kpi_extremes (t : DataFrame) (zs : list Z) (k : kpi) :
  get_col t col_revenue = Ok (map VInt zs) ->
  extract_kpi t = Ok k ->
  first_max zs (max_idx k) /\ first_min zs (min_idx k).
Proof.
  intros Hrev H.
  assert (Hne : zs <> []).
  { intros ->. apply (extract_kpi_rows t _ k Hrev H). reflexivity. }
  destruct (idxmax_ints zs Hne) as (imax & Hmax & Pmax).
  destruct (idxmin_ints zs Hne) as (imin & Hmin & Pmin).
  unfold extract_kpi in H. rewrite Hrev in H.
  inv_bind H. cbn [bind] in H. rewrite Hmax, Hmin in H.
  cbn [bind py_int] in H. inv_bind H. inversion H. simpl. auto.
Qed.

Lemma kpi_extremes_witness :
  exists t k,
    parse_dataframe whole_numbers = Ok t
    /\ extract_kpi t = Ok k
    /\ max_idx k = 1 /\ min_idx k = 2
    /\ first_max [700; 1500; 0] (max_idx k)
    /\ first_min [700; 1500; 0] (min_idx k).
Proof.
  eexists. eexists.
  split; [vm_compute; reflexivity |].
  match goal with |- extract_kpi ?T = _ /\ _ => pose (t := T) end.
  split; [vm_compute; reflexivity |].
  split; [reflexivity |]. split; [reflexivity |].
  apply (kpi_extremes t [700; 1500; 0]).
  - reflexivity.
  - vm_compute. reflexivity.
Defined.

(** ** List assignment and the marker lists *)

Lemma setitem_middle {A : Type} (l1 l2 : list A) (y x : A) :
  setitem (l1 ++ y :: l2) (Z.of_nat (List.length l1)) x = Ok (l1 ++ x :: l2).
Proof.
  unfold setitem. rewrite length_app. simpl List.length.
  replace (Z.of_nat (List.length l1) <? 0) with false
    by (symmetry; apply Z.ltb_ge; lia).
  replace ((0 <=? Z.of_nat (List.length l1))
           && (Z.of_nat (List.length l1)
               <? Z.of_nat (List.length l1 + S (List.length l2))))
    with true
    by (symmetry; apply andb_true_iff; split;
        [apply Z.leb_le | apply Z.ltb_lt]; lia).
  rewrite Nat2Z.id. f_equal.
  rewrite firstn_app, firstn_all, Nat.sub_diag, firstn_O, app_nil_r.
  f_equal. f_equal.
  induction l1 as [| a l1 IH]; [reflexivity | exact IH].
Qed.

Lemma repeat_map_seq {A : Type} (x : A) (n : nat) :
  forall s, repeat x n = map (fun _ => x) (seq s n).
Proof.
  induction n as [| n IH]; intros s; simpl; [| rewrite (IH (S s))];
    reflexivity.
Qed.

Lemma setitem_map_seq {A : Type} (f : nat -> A) (n : nat) (j : Z) (x : A) :
  0 <= j < Z.of_nat n ->
  setitem (map f (seq 0 n)) j x
  = Ok (map (fun i => if Z.of_nat i =? j then x else f i) (seq 0 n)).
Proof.
  intros Hj.
  set (k := Z.to_nat j).
  assert (Hn : n = (k + S (n - S k))%nat) by lia.
  rewrite Hn at 1 2. rewrite !seq_app. simpl seq. rewrite !map_app.
  cbn [map].
  replace j with (Z.of_nat (List.length (map f (seq 0 k)))) at 1
    by (rewrite length_map, length_seq; lia).
  rewrite setitem_middle. f_equal.
  replace (Z.of_nat k =? j) with true
    by (symmetry; apply Z.eqb_eq; lia).
  apply f_equal2; [| apply f_equal];
    apply map_ext_in; intros i Hi; apply in_seq in Hi.
  - replace (Z.of_nat i =? j) with false
      by (symmetry; apply Z.eqb_neq; lia).
    reflexivity.
  - replace (Z.of_nat i =? j) with false
      by (symmetry; apply Z.eqb_neq; lia).
    reflexivity.
Qed.

Lemma returned_column_length (df t : DataFrame) (c : string)
  (col : list value) :
  parse_dataframe df = Ok t ->
  get_col t c = Ok col ->
  List.length col = frame_len t.
Proof.
  intros H Hc.
  destruct (parse_dataframe_normalized df t H)
    as (mon & _ & _ & _ & _ & _ & Hm & _).
  assert (Hmon : get_col df col_month = Ok mon).
  { unfold get_col. rewrite Hm. reflexivity. }
  destruct (returned_rows df t mon H Hmon) as [Hall Hlen].
  rewrite Hlen. apply get_col_Ok, lookup_In in Hc.
  rewrite Forall_forall in Hall. apply (Hall _ Hc).
Qed.

Lemma markers_in_range (df : DataFrame) (k : kpi) :
  0 <= max_idx k < Z.of_nat (frame_len df) ->
  0 <= min_idx k < Z.of_nat (frame_len df) ->
  markers df k
  = Ok (map (marker_size (max_idx k) (min_idx k)) (seq 0 (frame_len df)),
        map (marker_color (max_idx k) (min_idx k)) (seq 0 (frame_len df))).
Proof.
  intros Hmax Hmin. unfold markers.
  rewrite (repeat_map_seq 6 _ 0), (repeat_map_seq "#1f77b4" _ 0).
  rewrite (setitem_map_seq _ _ _ _ Hmax). cbn [bind].
  rewrite (setitem_map_seq _ _ _ _ Hmax). cbn [bind].
  rewrite (setitem_map_seq _ _ _ _ Hmin). cbn [bind].
  rewrite (setitem_map_seq _ _ _ _ Hmin). cbn [bind].
  apply f_equal. apply f_equal2; apply map_ext; intros i.
  - unfold marker_size.
    destruct (Z.of_nat i =? max_idx k), (Z.of_nat i =? min_idx k);
      reflexivity.
  - reflexivity.
Qed.


(** ** The caption and the latest month *)

Lemma strongly_sorted_nth {A : Type} (R : A -> A -> Prop) (l : list A) (d : A) :
  StronglySorted R l ->
  forall i j, (i < j < List.length l)%nat -> R (nth i l d) (nth j l d).
Proof.
  induction 1 as [| x l Hs IH Hall]; intros i j Hij; simpl in Hij; [lia |].
  destruct j as [| j]; [lia |]. destruct i as [| i]; simpl.
  - rewrite Forall_forall in Hall. apply Hall, nth_In. lia.
  - apply IH. lia.
Qed.

Lemma str_le_refl (a : string) : str_le a a.
Proof. destruct (str_le_total a a); assumption. Qed.

Lemma iloc_first (col : list value) :
  col <> [] -> iloc col 0 = Ok (nth 0 col (VFloat nan)).
Proof.
  intros Hne. unfold iloc. destruct col as [| v col]; [contradiction |].
  reflexivity.
Qed.

Lemma iloc_last (col : list value) :
  col <> [] ->
  iloc col (-1) = Ok (nth (List.length col - 1) col (VFloat nan)).
Proof.
  intros Hne. unfold iloc.
  assert (Hn : (0 < List.length col)%nat)
    by (destruct col; [contradiction | simpl; lia]).
  replace (-1 <? 0) with true by reflexivity.
  replace ((0 <=? Z.of_nat (List.length col) + -1)
           && (Z.of_nat (List.length col) + -1 <? Z.of_nat (List.length col)))
    with true
    by (symmetry; apply andb_true_iff; split;
        [apply Z.leb_le | apply Z.ltb_lt]; lia).
  do 2 f_equal. lia.
Qed.

Lemma row_iloc_get (df : DataFrame) (i : Z) (row : list (string * value))
  (c : string) (col : list value) :
  row_iloc df i = Ok row ->
  get_col df c = Ok col ->
  exists v, iloc col i = Ok v /\ row_get row c = Ok v.
Proof.
  unfold row_iloc. revert row.
  induction df as [| [k kc] df IH]; intros row Hrow Hc.
  - discriminate Hc.
  - simpl in Hrow. inv_bind Hrow. inv_bind Hrow. inv_bind Hx.
    inversion Hx; subst x. inversion Hrow; subst row.
    apply get_col_Ok in Hc. simpl in Hc. simpl.
    destruct (String.eqb k c) eqn:E.
    + inversion Hc; subst kc. exists x1. auto.
    + apply (IH x0 Hx0). unfold get_col. rewrite Hc. reflexivity.
Qed.

(** X11 -- On a returned table with at least one row the caption reads
    first period ~ last period, where the first is the least and the last
    the greatest of the trimmed period labels of the raw table; the row the
    KPI tiles call [last] is the row of that greatest period. *)
Theorem caption_spans_periods (df t : DataFrame) (mon : list value) :
  parse_dataframe df = Ok t ->
  get_col df col_month = Ok mon ->
  mon <> [] ->
  exists lo hi,
    date_range t = Ok (lo +++ " ~ " +++ hi)
    /\ In lo (trimmed mon) /\ In hi (trimmed mon)
    /\ (forall p, In p (trimmed mon) -> str_le lo p /\ str_le p hi)
    /\ (forall k, extract_kpi t = Ok k ->
                  row_get (last k) col_month = Ok (VStr hi)).
Proof.
  intros H Hmon Hne.
  destruct (parse_dataframe_Ok df t H) as (mon' & rev & cum & months & N).
  pose proof (nf_raw_month _ _ _ _ _ _ N) as Hmon'.
  rewrite Hmon in Hmon'. inversion Hmon'; subst mon'.
  pose proof (nf_month _ _ _ _ _ _ N) as Hmonth.
  set (ps := sorted_periods (trimmed mon)) in *.
  assert (Hperm : Permutation ps (trimmed mon))
    by apply sorted_periods_perm.
  assert (Hlen : (0 < List.length ps)%nat).
  { rewrite (Permutation_length Hperm). unfold trimmed.
    rewrite length_map. destruct mon; [contradiction | simpl; lia]. }
  assert (Hcol : map VStr ps <> []).
  { intros E. apply (f_equal (@List.length value)) in E.
    rewrite length_map in E. simpl in E. lia. }
  exists (nth 0 ps EmptyString), (nth (List.length ps - 1) ps EmptyString).
  assert (Hlast : iloc (map VStr ps) (-1)
                  = Ok (VStr (nth (List.length ps - 1) ps EmptyString))).
  { rewrite (iloc_last _ Hcol), length_map.
    rewrite (nth_indep _ (VFloat nan) (VStr EmptyString))
      by (rewrite length_map; lia).
    rewrite (map_nth VStr). reflexivity. }
  split; [| split; [| split; [| split]]].
  - unfold date_range. rewrite Hmonth. cbn [bind].
    rewrite (iloc_first _ Hcol), Hlast. cbn [bind].
    rewrite (nth_indep _ (VFloat nan) (VStr EmptyString))
      by (rewrite length_map; lia).
    rewrite (map_nth VStr). reflexivity.
  - apply (Permutation_in _ Hperm), nth_In. lia.
  - apply (Permutation_in _ Hperm), nth_In. lia.
  - intros p Hp. apply (Permutation_in _ (Permutation_sym Hperm)) in Hp.
    destruct (In_nth _ _ EmptyString Hp) as (i & Hi & <-).
    pose proof (sorted_periods_sorted (trimmed mon)) as Hs. fold ps in Hs.
    split.
    + destruct i as [| i]; [apply str_le_refl |].
      apply (strongly_sorted_nth _ _ _ Hs). lia.
    + destruct (Nat.eq_dec i (List.length ps - 1)) as [-> | Hd];
        [apply str_le_refl |].
      apply (strongly_sorted_nth _ _ _ Hs). lia.
  - intros k Hk. unfold extract_kpi in Hk. inv_bind Hk.
    destruct (row_iloc_get t (-1) x col_month _ Hx Hmonth) as (v & Hv & Hg).
    rewrite Hlast in Hv. inversion Hv; subst v.
    repeat inv_bind Hk. inversion Hk. simpl. exact Hg.
Qed.

Lemma caption_spans_periods_witness :
  exists t,
    parse_dataframe shuffled = Ok t
    /\ exists lo hi,
         date_range t = Ok (lo +++ " ~ " +++ hi)
         /\ In lo ["2024-03"; "2023-12"; "2024-01"]
         /\ In hi ["2024-03"; "2023-12"; "2024-01"]
         /\ (forall p, In p ["2024-03"; "2023-12"; "2024-01"] ->
                       str_le lo p /\ str_le p hi)
         /\ (forall k, extract_kpi t = Ok k ->
                       row_get (last k) col_month = Ok (VStr hi)).
Proof.
  eexists. split.
  - vm_compute. reflexivity.
  - apply (caption_spans_periods shuffled _
             [VStr "2024-03 "; VStr "2023-12"; VStr " 2024-01"]).
    + vm_compute. reflexivity.
    + reflexivity.
    + discriminate.
Defined.

(** ** Whole numbers as floats *)

Lemma digits2_pos_spec (p : positive) :
  2 ^ (Zpos (digits2_pos p) - 1) <= Zpos p < 2 ^ Zpos (digits2_pos p).
Proof.
  induction p as [p IH | p IH |]; cbn [digits2_pos].
  - rewrite Pos2Z.inj_succ.
    replace (Z.succ (Zpos (digits2_pos p)) - 1)
      with (Z.succ (Zpos (digits2_pos p) - 1)) by lia.
    rewrite !Z.pow_succ_r by lia. lia.
  - rewrite Pos2Z.inj_succ.
    replace (Z.succ (Zpos (digits2_pos p)) - 1)
      with (Z.succ (Zpos (digits2_pos p) - 1)) by lia.
    rewrite !Z.pow_succ_r by lia. lia.
  - simpl. lia.
Qed.

Lemma Zdigits2_bound (m k : Z) :
  0 <= k -> 0 <= m <= 2 ^ k -> 0 <= Zdigits2 m <= k + 1.
Proof.
  intros Hk Hm. destruct m as [| p | p]; simpl; [lia | | lia].
  destruct (digits2_pos_spec p) as [Hlo _].
  split; [lia |].
  destruct (Z_le_gt_dec (Zpos (digits2_pos p)) (k + 1)) as [? | Hgt];
    [assumption |].
  assert (2 ^ (k + 1) <= 2 ^ (Zpos (digits2_pos p) - 1))
    by (apply Z.pow_le_mono_r; lia).
  rewrite Z.pow_add_r in H by lia. lia.
Qed.

Lemma shr_1_bound (mrs : shr_record) :
  0 <= shr_m mrs -> 0 <= shr_m (shr_1 mrs) <= shr_m mrs.
Proof.
  destruct mrs as [m r s]. simpl.
  destruct m as [| [p | p |] | p]; simpl; lia.
Qed.

Lemma iter_shr_1_bound (n : positive) :
  forall mrs, 0 <= shr_m mrs ->
              0 <= shr_m (iter_pos shr_1 n mrs) <= shr_m mrs.
Proof.
  induction n as [n IH | n IH |]; intros mrs H; cbn [iter_pos].
  - pose proof (shr_1_bound mrs H) as H1.
    pose proof (IH _ (proj1 H1)) as H2.
    pose proof (IH _ (proj1 H2)) as H3. lia.
  - pose proof (IH _ H) as H2.
    pose proof (IH _ (proj1 H2)) as H3. lia.
  - apply shr_1_bound, H.
Qed.

Lemma shr_fexp_bound (m e : Z) (l : location) :
  0 <= m ->
  0 <= shr_m (fst (shr_fexp prec emax m e l)) <= m
  /\ snd (shr_fexp prec emax m e l)
     = Z.max e (fexp prec emax (Zdigits2 m + e)).
Proof.
  intros Hm. unfold shr_fexp, shr.
  assert (Hrec : shr_m (shr_record_of_loc m l) = m)
    by (destruct l as [| []]; reflexivity).
  destruct (fexp prec emax (Zdigits2 m + e) - e) as [| p | p] eqn:E;
    cbn [fst snd].
  - rewrite Hrec. lia.
  - pose proof (iter_shr_1_bound p (shr_record_of_loc m l)) as H.
    rewrite Hrec in H. split; [apply H, Hm | lia].
  - rewrite Hrec. lia.
Qed.

Lemma round_nearest_even_bound (m : Z) (l : location) :
  m <= round_nearest_even m l <= m + 1.
Proof.
  unfold round_nearest_even.
  destruct l as [| []]; try destruct (Z.even m); lia.
Qed.

Lemma binary_round_aux_finite (sx : bool) (mx : positive) (ex : Z) :
  Zpos (digits2_pos mx) <= 64 -> -1074 <= ex <= 0 ->
  is_finite (binary_round_aux prec emax sx (Zpos mx) ex loc_Exact) = true.
Proof.
  intros Hd He. unfold binary_round_aux.
  pose proof (shr_fexp_bound (Zpos mx) ex loc_Exact) as H1.
  destruct (shr_fexp prec emax (Zpos mx) ex loc_Exact) as [mrs' e'].
  cbn [fst snd] in H1. destruct H1 as [Hm1 He1]; [lia |].
  set (m2 := round_nearest_even (shr_m mrs') (loc_of_shr_record mrs')).
  pose proof (round_nearest_even_bound (shr_m mrs') (loc_of_shr_record mrs'))
    as Hr. fold m2 in Hr.
  pose proof (shr_fexp_bound m2 e' loc_Exact) as H2.
  destruct (shr_fexp prec emax m2 e' loc_Exact) as [mrs'' e''].
  cbn [fst snd] in H2. destruct H2 as [Hm2 He2]; [lia |].
  destruct (digits2_pos_spec mx) as [_ Hhi].
  assert (Hpow : 2 ^ Zpos (digits2_pos mx) <= 2 ^ 64)
    by (apply Z.pow_le_mono_r; lia).
  assert (Hd2 : 0 <= Zdigits2 m2 <= 65)
    by (apply (Zdigits2_bound m2 64); lia).
  assert (Hd1 : 0 <= Zdigits2 (Zpos mx) <= 64) by (simpl; lia).
  unfold fexp, emin, prec, emax in He1, He2.
  destruct (shr_m mrs'') as [| p | p] eqn:E; [reflexivity | | lia].
  replace (e'' <=? emax - prec) with true;
    [reflexivity |].
  symmetry. apply Z.leb_le. unfold emax, prec. lia.
Qed.

Lemma digits2_pos_iter (mx d : positive) :
  Zpos (digits2_pos (Pos.iter xO mx d)) = Zpos (digits2_pos mx) + Zpos d.
Proof.
  induction d as [| d IH] using Pos.peano_ind.
  - simpl. lia.
  - rewrite Pos.iter_succ. cbn [digits2_pos].
    rewrite Pos2Z.inj_succ, IH. lia.
Qed.

Lemma round_int_finite (z : Z) :
  in_int64 z -> is_finite (round_int z) = true.
Proof.
  unfold in_int64, Numeric.int64_min, Numeric.int64_max.
  intros Hz. unfold round_int, binary_normalize.
  assert (Hgen : forall sx p, Zpos p <= 2 ^ 63 ->
            is_finite (binary_round prec emax sx p 0) = true).
  { intros sx p Hp. unfold binary_round, shl_align.
    pose proof (Zdigits2_bound (Zpos p) 63) as Hd.
    simpl Zdigits2 in Hd.
    assert (Hd' : Zpos (digits2_pos p) <= 64) by lia.
    assert (Hf : fexp prec emax (Zpos (digits2_pos p) + 0)
                 = Zpos (digits2_pos p) - 53).
    { unfold fexp, emin, prec, emax. lia. }
    rewrite Hf.
    destruct (Zpos (digits2_pos p) - 53 - 0) as [| q | q] eqn:E.
    - apply binary_round_aux_finite; lia.
    - apply binary_round_aux_finite; lia.
    - apply binary_round_aux_finite.
      + rewrite digits2_pos_iter. lia.
      + lia. }
  destruct z as [| p | p]; [reflexivity | |]; apply Hgen; lia.
Qed.

Lemma float_of_int_Ok (z : Z) :
  in_int64 z -> float_of_int z = Ok (round_int z).
Proof.
  intros Hz. unfold float_of_int. rewrite (round_int_finite z Hz).
  reflexivity.
Qed.

(** ** The cells of the numeric columns *)

Lemma read_scalar_range (v : value) (z : Z) (f : float) :
  Numeric.read_scalar v = Some (Numeric.SInt z f) -> in_int64 z.
Proof.
  unfold in_int64. destruct v as [s | n | g]; cbn [Numeric.read_scalar].
  - destruct (Numeric.parse_number s) as [l |]; [| discriminate].
    destruct (Numeric.literal_int64 l) as [n |] eqn:E; [| discriminate].
    intros H. inversion H; subst n.
    destruct l as [whole neg m e | neg]; [| discriminate E].
    destruct whole; [| discriminate E]. cbn [Numeric.literal_int64] in E.
    destruct ((Numeric.int64_min <=? cond_Zopp neg m)
              && (cond_Zopp neg m <=? Numeric.int64_max)) eqn:R;
      [| discriminate E].
    inversion E; subst z. apply andb_true_iff in R. destruct R as [R1 R2].
    apply Z.leb_le in R1, R2. auto.
  - destruct ((Numeric.int64_min <=? n) && (n <=? Numeric.int64_max)) eqn:R;
      [| discriminate].
    intros H. inversion H; subst n. apply andb_true_iff in R.
    destruct R as [R1 R2]. apply Z.leb_le in R1, R2. auto.
  - discriminate.
Qed.

Lemma to_numeric_numbers (col : list value) :
  Forall is_number (Numeric.to_numeric col).
Proof.
  unfold Numeric.to_numeric.
  destruct (forallb Numeric.is_int (map Numeric.read_scalar col)) eqn:E.
  - apply Forall_forall. intros v Hv. apply in_map_iff in Hv.
    destruct Hv as (o & <- & Ho).
    rewrite forallb_forall in E. specialize (E o Ho).
    apply in_map_iff in Ho. destruct Ho as (w & Hw & _).
    destruct o as [[z f | f] |]; try discriminate E.
    simpl. apply (read_scalar_range w z f Hw).
  - apply Forall_forall. intros v Hv. apply in_map_iff in Hv.
    destruct Hv as (o & <- & _). exact I.
Qed.

Lemma take_numbers (order : list nat) (col : list value) :
  Forall is_number col -> Forall is_number (take order col).
Proof.
  intros H. unfold take. apply Forall_forall. intros v Hv.
  apply in_map_iff in Hv. destruct Hv as (i & <- & _).
  destruct (Nat.lt_ge_cases i (List.length col)) as [Hi | Hi].
  - rewrite Forall_forall in H. apply H, nth_In, Hi.
  - rewrite nth_overflow by exact Hi. exact I.
Qed.

(** The numeric columns of the returned table hold numbers. *)
Lemma returned_numbers (df t : DataFrame) (c : string) :
  parse_dataframe df = Ok t ->
  In c numeric_cols ->
  exists col, get_col t c = Ok col /\ Forall is_number col.
Proof.
  intros H Hc.
  destruct (parse_dataframe_normalized df t H)
    as (mon & rev & pri & chg & _ & _ & Hm & Hr & Hp & Hch & _).
  assert (Hmon : get_col df col_month = Ok mon)
    by (unfold get_col; rewrite Hm; reflexivity).
  assert (Hraw : exists raw, get_col df c = Ok raw).
  { simpl in Hc. unfold get_col.
    destruct Hc as [<- | [<- | [<- | []]]];
      [rewrite Hr | rewrite Hp | rewrite Hch]; eexists; reflexivity. }
  destruct Hraw as [raw Hraw].
  exists (take (argsort (trimmed mon)) (clean_numbers raw)).
  split; [exact (parse_numeric_column df t mon raw c H Hmon Hc Hraw) |].
  apply take_numbers, to_numeric_numbers.
Qed.

Lemma fmt_pct_number (v : value) :
  is_number v -> fmt_pct v = Ok (pct_text v).
Proof.
  intros Hv. unfold pct_text.
  destruct v as [s | z | f]; [contradiction | |].
  - unfold fmt_pct. cbn [py_format_f1 py_positive].
    rewrite (float_of_int_Ok z Hv). reflexivity.
  - reflexivity.
Qed.

(** ** The colours of the bars *)

Lemma py_negative_number (v : value) :
  is_number v ->
  (negative <- py_negative v ;;
   Ok (if negative then "#ff6b6b" else "#7bd389")) = Ok (bar_color v).
Proof.
  destruct v as [s | z | f]; [contradiction | reflexivity |].
  intros _. destruct f as [[] | [] | | [] m e]; reflexivity.
Qed.

Lemma mapM_map {A B : Type} (f : A -> result B) (g : A -> B) (l : list A) :
  Forall (fun a => f a = Ok (g a)) l -> mapM f l = Ok (map g l).
Proof.
  induction 1 as [| a l Ha Hl IH]; simpl; [reflexivity |].
  rewrite Ha, IH. reflexivity.
Qed.

(** X12 -- On a returned table the bar colours of chart 2 are computed
    without an error, one per row: red for a change rate below zero and
    green for every other cell, which includes zero, negative zero and the
    NaN of a rate that could not be read. *)
Theorem bar_colors_by_sign (df t : DataFrame) (chg : list value) :
  parse_dataframe df = Ok t ->
  get_col t col_change = Ok chg ->
  bar_colors t = Ok (map bar_color chg)
  /\ Forall (fun v => is_na v = true -> bar_color v = "#7bd389") chg.
Proof.
  intros H Hchg.
  destruct (returned_numbers df t col_change H) as (col & Hcol & Hnum).
  { simpl. tauto. }
  rewrite Hchg in Hcol. inversion Hcol; subst col. split.
  - unfold bar_colors. rewrite Hchg. cbn [bind].
    apply mapM_map. eapply Forall_impl; [| exact Hnum].
    intros v Hv. apply py_negative_number, Hv.
  - apply Forall_forall. intros v _ Hv.
    destruct v as [s | z | f]; try discriminate Hv.
    destruct f; try discriminate Hv. reflexivity.
Qed.

Lemma bar_colors_by_sign_witness :
  exists t,
    parse_dataframe mixed_rates = Ok t
    /\ bar_colors t = Ok ["#7bd389"; "#ff6b6b"; "#7bd389"; "#7bd389"].
Proof.
  eexists. split; [vm_compute; reflexivity |].
  match goal with |- bar_colors ?T = _ => pose (t := T) end.
  refine (proj1 (bar_colors_by_sign mixed_rates t
                   (clean_numbers
                      [VStr "11.1"; VStr "-3.2"; VStr "?"; VStr "0"]) _ _));
    vm_compute; reflexivity.
Defined.

(** ** The preview table *)

Lemma series_map_map (f : value -> result string) (g : value -> string)
  (col : list value) :
  Forall (fun v => f v = Ok (g v)) col ->
  series_map f col = Ok (map (fun v => VStr (g v)) col).
Proof.
  intros H. unfold series_map. apply mapM_map.
  eapply Forall_impl; [| exact H]. simpl. intros v ->. reflexivity.
Qed.

Lemma series_map_fmt_money (col : list value) :
  series_map (fun v => Ok (fmt_money v)) col
  = Ok (map (fun v => VStr (fmt_money v)) col).
Proof.
  apply series_map_map. apply Forall_forall. reflexivity.
Qed.

(** X13 -- The preview table of a returned table is always built, no
    formatter raising on any cell: it has the period, revenue, prior-year,
    change and cumulative columns in this order, the periods as they are,
    the three amounts through [fmt_money] and the change rate through
    [fmt_pct], row by row. *)
Theorem preview_renders (df t : DataFrame) :
  parse_dataframe df = Ok t ->
  exists mon rev pri chg cum,
    get_col t col_month = Ok mon
    /\ get_col t col_revenue = Ok rev
    /\ get_col t col_prior = Ok pri
    /\ get_col t col_change = Ok chg
    /\ get_col t col_cumulative = Ok cum
    /\ Forall (fun v => fmt_pct v = Ok (pct_text v)) chg
    /\ preview t
       = Ok [ (col_month, mon);
              (col_revenue, map (fun v => VStr (fmt_money v)) rev);
              (col_prior, map (fun v => VStr (fmt_money v)) pri);
              (col_change, map (fun v => VStr (pct_text v)) chg);
              (col_cumulative, map (fun v => VStr (fmt_money v)) cum) ].
Proof.
  intros H.
  destruct (parse_dataframe_Ok df t H) as (mon & rev0 & cum & months & N).
  pose proof (nf_month _ _ _ _ _ _ N) as Hmon.
  pose proof (nf_cumulative _ _ _ _ _ _ N) as Hcum.
  destruct (returned_numbers df t col_revenue H) as (rev & Hrev & _);
    [simpl; tauto |].
  destruct (returned_numbers df t col_prior H) as (pri & Hpri & _);
    [simpl; tauto |].
  destruct (returned_numbers df t col_change H) as (chg & Hchg & Hnum);
    [simpl; tauto |].
  assert (Hpct : Forall (fun v => fmt_pct v = Ok (pct_text v)) chg).
  { eapply Forall_impl; [| exact Hnum]. apply fmt_pct_number. }
  exists (map VStr (sorted_periods (trimmed mon))), rev, pri, chg, cum.
  repeat (split; [assumption |]).
  unfold preview, select. cbn [mapM].
  rewrite Hmon, Hrev, Hpri, Hchg, Hcum. cbn [bind].
  unfold get_col. cbn [lookup set_col]. eval_eqb. cbn [bind].
  rewrite series_map_fmt_money. cbn [bind set_col]. eval_eqb.
  cbn [lookup]. eval_eqb. cbn [bind].
  rewrite series_map_fmt_money. cbn [bind set_col]. eval_eqb.
  cbn [lookup]. eval_eqb. cbn [bind].
  rewrite (series_map_map fmt_pct pct_text chg Hpct).
  cbn [bind set_col]. eval_eqb.
  cbn [lookup]. eval_eqb. cbn [bind].
  rewrite series_map_fmt_money. cbn [bind set_col]. eval_eqb.
  reflexivity.
Qed.

Lemma preview_renders_witness :
  exists t,
    parse_dataframe mixed_rates = Ok t
    /\ exists mon rev pri chg cum,
         get_col t col_month = Ok mon
         /\ get_col t col_revenue = Ok rev
         /\ get_col t col_prior = Ok pri
         /\ get_col t col_change = Ok chg
         /\ get_col t col_cumulative = Ok cum
         /\ Forall (fun v => fmt_pct v = Ok (pct_text v)) chg
         /\ preview t
            = Ok [ (col_month, mon);
                   (col_revenue, map (fun v => VStr (fmt_money v)) rev);
                   (col_prior, map (fun v => VStr (fmt_money v)) pri);
                   (col_change, map (fun v => VStr (pct_text v)) chg);
                   (col_cumulative, map (fun v => VStr (fmt_money v)) cum) ].
Proof.
  eexists. split; [vm_compute; reflexivity |].
  apply (preview_renders mixed_rates).
  vm_compute. reflexivity.
Defined.

(** ** Runs of the script on a returned table *)

Lemma first_best_some (better : value -> value -> bool) (col : list value) :
  forall (b : Z * value) (i : Z),
  exists r v,
    first_best better (Some b) i col = Some (r, v)
    /\ ((r, v) = b \/ i <= r < i + Z.of_nat (List.length col)).
Proof.
  induction col as [| w col IH]; intros b i.
  - exists (fst b), (snd b). destruct b. simpl. auto.
  - cbn [first_best].
    assert (Hb : exists b',
               (if is_na w then Some b
                else let (_, b0) := b in
                     if better w b0 then Some (i, w) else Some b) = Some b'
               /\ (b' = b \/ b' = (i, w))).
    { destruct (is_na w); [eauto |]. destruct b as [bi bv].
      destruct (better w bv); eauto. }
    destruct Hb as (b' & -> & Hb').
    destruct (IH b' (i + 1)) as (r & v & Hr & Hcase).
    exists r, v. split; [exact Hr |].
    simpl List.length.
    destruct Hcase as [E | Hrange]; [| right; lia].
    destruct Hb' as [-> | ->]; [left; exact E |].
    right. inversion E; subst. lia.
Qed.

Lemma first_best_found (better : value -> value -> bool) (col : list value) :
  (exists w, In w col /\ is_na w = false) ->
  forall i, exists r v,
    first_best better None i col = Some (r, v)
    /\ i <= r < i + Z.of_nat (List.length col).
Proof.
  induction col as [| w col IH]; intros (x & Hin & Hx) i.
  - contradiction.
  - cbn [first_best]. simpl List.length. destruct (is_na w) eqn:E.
    + destruct Hin as [-> | Hin]; [congruence |].
      destruct (IH (ex_intro _ x (conj Hin Hx)) (i + 1)) as (r & v & Hr & Hb).
      exists r, v. split; [exact Hr | lia].
    + destruct (first_best_some better col (i, w) (i + 1))
        as (r & v & Hr & Hcase).
      exists r, v. split; [exact Hr |].
      destruct Hcase as [Eq | Hb]; [inversion Eq; subst |]; lia.
Qed.

Lemma first_best_all_na (better : value -> value -> bool) (col : list value) :
  Forall (fun v => is_na v = true) col ->
  forall best i, first_best better best i col = best.
Proof.
  induction 1 as [| w col Hw Hcol IH]; intros best i; [reflexivity |].
  cbn [first_best]. rewrite Hw. apply IH.
Qed.

Lemma idxmax_found (col : list value) :
  (exists w, In w col /\ is_na w = false) ->
  exists r, idxmax col = Ok (VInt r) /\ 0 <= r < Z.of_nat (List.length col).
Proof.
  intros H.
  destruct (first_best_found (fun a b => num_ltb b a) col H 0)
    as (r & v & Hr & Hb).
  exists r. split; [| lia]. unfold idxmax. rewrite Hr.
  destruct col; [destruct H as (w & [] & _) | reflexivity].
Qed.

Lemma idxmin_found (col : list value) :
  (exists w, In w col /\ is_na w = false) ->
  exists r, idxmin col = Ok (VInt r) /\ 0 <= r < Z.of_nat (List.length col).
Proof.
  intros H.
  destruct (first_best_found num_ltb col H 0) as (r & v & Hr & Hb).
  exists r. split; [| lia]. unfold idxmin. rewrite Hr.
  destruct col; [destruct H as (w & [] & _) | reflexivity].
Qed.

Lemma finite_sum_int (col : list value) :
  finite_sum col -> exists tot, py_int (series_sum col) = Ok tot.
Proof.
  unfold finite_sum. destruct (series_sum col) as [s | z | f] eqn:E.
  - unfold series_sum in E.
    destruct (forallb is_VInt col); discriminate E.
  - intros _. exists z. reflexivity.
  - intros Hf. destruct f; try discriminate Hf; eexists; reflexivity.
Qed.

Lemma row_iloc_Ok (df : DataFrame) (i : Z) :
  Forall (fun cc : string * list value => exists v, iloc (snd cc) i = Ok v) df ->
  exists row, row_iloc df i = Ok row.
Proof.
  unfold row_iloc. induction 1 as [| [c col] df [v Hv] Hdf [row IH]]; simpl.
  - eexists. reflexivity.
  - simpl in Hv. rewrite Hv. cbn [bind]. rewrite IH. eexists. reflexivity.
Qed.

Lemma iloc_In (col : list value) (i : Z) (v : value) :
  iloc col i = Ok v -> In v col.
Proof.
  unfold iloc.
  destruct ((0 <=? _) && (_ <? _)) eqn:E; [| discriminate].
  intros H. inversion H. apply andb_true_iff in E. destruct E as [E1 E2].
  apply Z.leb_le in E1. apply Z.ltb_lt in E2.
  apply nth_In. lia.
Qed.

Lemma loc_Ok (df : DataFrame) (c : string) (col : list value) (i : Z) :
  get_col df c = Ok col ->
  0 <= i < Z.of_nat (List.length col) ->
  exists v, loc df i c = Ok v.
Proof.
  intros Hc Hi. unfold loc. rewrite Hc. cbn [bind].
  replace ((0 <=? i) && (i <? Z.of_nat (List.length col))) with true
    by (symmetry; apply andb_true_iff; split;
        [apply Z.leb_le | apply Z.ltb_lt]; lia).
  eexists. reflexivity.
Qed.

Lemma not_nil_length {A : Type} (l : list A) :
  (0 < List.length l)%nat -> l <> [].
Proof. destruct l; simpl; [lia | discriminate]. Qed.

(** What a run needs of a returned table with [n] rows, [0 < n]. *)
Lemma returned_parts (df t : DataFrame) (rev : list value) :
  parse_dataframe df = Ok t ->
  get_col t col_revenue = Ok rev ->
  rev <> [] ->
  (exists range, date_range t = Ok range)
  /\ (exists row, row_iloc t (-1) = Ok row)
  /\ (exists mon, get_col t col_month = Ok mon
                  /\ List.length mon = List.length rev)
  /\ (exists chg, get_col t col_change = Ok chg /\ Forall is_number chg).
Proof.
  intros H Hrev Hne.
  destruct (parse_dataframe_Ok df t H) as (mon0 & rev0 & cum & months & N).
  pose proof (nf_month _ _ _ _ _ _ N) as Hmon.
  pose proof (returned_column_length df t _ _ H Hrev) as Lrev.
  pose proof (returned_column_length df t _ _ H Hmon) as Lmon.
  assert (Hpos : (0 < frame_len t)%nat).
  { rewrite <- Lrev. destruct rev; [contradiction | simpl; lia]. }
  assert (Hmne : map VStr (sorted_periods (trimmed mon0)) <> []).
  { apply not_nil_length. rewrite Lmon. exact Hpos. }
  split; [| split; [| split]].
  - unfold date_range. rewrite Hmon. cbn [bind].
    rewrite (iloc_first _ Hmne), (iloc_last _ Hmne). eexists. reflexivity.
  - apply row_iloc_Ok.
    destruct (parse_dataframe_normalized df t H)
      as (mon & _ & _ & _ & _ & _ & Hm & _).
    assert (Hmon0 : get_col df col_month = Ok mon)
      by (unfold get_col; rewrite Hm; reflexivity).
    destruct (returned_rows df t mon H Hmon0) as [Hall Hlen].
    eapply Forall_impl; [| exact Hall]. intros [c col] Hc. simpl in *.
    rewrite iloc_last; [eexists; reflexivity |].
    apply not_nil_length. rewrite Hc, <- Hlen. exact Hpos.
  - eexists. split; [exact Hmon |]. rewrite Lmon, Lrev. reflexivity.
  - apply (returned_numbers df t col_change H). simpl. tauto.
Qed.

Lemma render_tiles_Ok (df t : DataFrame) (rev : list value) (k : kpi) :
  parse_dataframe df = Ok t ->
  get_col t col_revenue = Ok rev ->
  row_iloc t (-1) = Ok (last k) ->
  0 <= max_idx k < Z.of_nat (List.length rev) ->
  0 <= min_idx k < Z.of_nat (List.length rev) ->
  exists tl, render_tiles t k = Ok tl.
Proof.
  intros H Hrev Hrow Hmax Hmin.
  assert (Hne : rev <> []).
  { apply not_nil_length. lia. }
  destruct (returned_parts df t rev H Hrev Hne)
    as ((range & Hrange) & _ & (mon & Hmon & Lmon) & (chg & Hchg & Hnum)).
  destruct (row_iloc_get t (-1) _ col_revenue rev Hrow Hrev) as (v1 & _ & G1).
  destruct (row_iloc_get t (-1) _ col_month mon Hrow Hmon) as (v2 & _ & G2).
  destruct (row_iloc_get t (-1) _ col_change chg Hrow Hchg) as (v3 & I3 & G3).
  assert (Hpct : fmt_pct v3 = Ok (pct_text v3)).
  { apply fmt_pct_number. rewrite Forall_forall in Hnum.
    apply Hnum, (iloc_In _ _ _ I3). }
  rewrite <- Lmon in Hmax, Hmin.
  destruct (loc_Ok t col_month mon _ Hmon Hmax) as (a1 & L1).
  destruct (loc_Ok t col_month mon _ Hmon Hmin) as (a2 & L2).
  rewrite Lmon in Hmax, Hmin.
  destruct (loc_Ok t col_revenue rev _ Hrev Hmax) as (a3 & L3).
  destruct (loc_Ok t col_revenue rev _ Hrev Hmin) as (a4 & L4).
  unfold render_tiles.
  rewrite G1, G2, G3. cbn [bind]. rewrite Hpct, Hrange. cbn [bind].
  rewrite L1, L2, L3, L4. cbn [bind]. eexists. reflexivity.
Qed.

Lemma extract_kpi_Ok (df t : DataFrame) (rev : list value) :
  parse_dataframe df = Ok t ->
  get_col t col_revenue = Ok rev ->
  (exists w, In w rev /\ is_na w = false) ->
  finite_sum rev ->
  exists k,
    extract_kpi t = Ok k
    /\ row_iloc t (-1) = Ok (last k)
    /\ 0 <= max_idx k < Z.of_nat (List.length rev)
    /\ 0 <= min_idx k < Z.of_nat (List.length rev)
    /\ py_int (series_sum rev) = Ok (total k).
Proof.
  intros H Hrev Hsome Hsum.
  assert (Hne : rev <> []).
  { destruct Hsome as (w & Hw & _). intros ->. contradiction. }
  destruct (returned_parts df t rev H Hrev Hne) as (_ & (row & Hrow) & _).
  destruct (idxmax_found rev Hsome) as (imax & Hmax & Bmax).
  destruct (idxmin_found rev Hsome) as (imin & Hmin & Bmin).
  destruct (finite_sum_int rev Hsum) as (tot & Htot).
  exists (Kpi row imax imin tot).
  split; [| simpl; auto].
  unfold extract_kpi. rewrite Hrow, Hrev. cbn [bind].
  rewrite Hmax, Hmin. cbn [bind py_int]. rewrite Htot. reflexivity.
Qed.

(** X14 -- A run of the script on a returned table gets through the caption,
    the KPIs and the four KPI tiles whenever some revenue is a number (not
    NaN) and the sum of the revenues is finite: none of these steps raises.
    The rows [max_idx] and [min_idx] are rows of the table. *)
Theorem dashboard_renders (df t : DataFrame) (rev : list value) :
  parse_dataframe df = Ok t ->
  get_col t col_revenue = Ok rev ->
  (exists w, In w rev /\ is_na w = false) ->
  finite_sum rev ->
  forall uploaded use_sample,
    load uploaded use_sample = Ok (df, t) ->
    exists caption k tl,
      dashboard uploaded use_sample = Rendered caption k tl
      /\ extract_kpi t = Ok k
      /\ 0 <= max_idx k < Z.of_nat (List.length rev)
      /\ 0 <= min_idx k < Z.of_nat (List.length rev).
Proof.
  intros H Hrev Hsome Hsum uploaded use_sample Hload.
  destruct (extract_kpi_Ok df t rev H Hrev Hsome Hsum)
    as (k & Hk & Hrow & Hmax & Hmin & _).
  destruct (render_tiles_Ok df t rev k H Hrev Hrow Hmax Hmin) as (tl & Htl).
  assert (Hne : rev <> []).
  { destruct Hsome as (w & Hw & _). intros ->. contradiction. }
  destruct (returned_parts df t rev H Hrev Hne) as ((range & Hrange) & _).
  exists ("기간: " +++ range), k, tl.
  split; [| auto].
  unfold dashboard. rewrite Hload, Hrange, Hk, Htl. reflexivity.
Qed.

Lemma dashboard_renders_witness :
  exists t rev,
    parse_dataframe noisy = Ok t
    /\ get_col t col_revenue = Ok rev
    /\ exists caption k tl,
         dashboard (Some noisy) false = Rendered caption k tl
         /\ extract_kpi t = Ok k
         /\ 0 <= max_idx k < Z.of_nat (List.length rev)
         /\ 0 <= min_idx k < Z.of_nat (List.length rev).
Proof.
  eexists. eexists.
  split; [vm_compute; reflexivity |].
  split; [vm_compute; reflexivity |].
  apply (dashboard_renders noisy).
  - vm_compute. reflexivity.
  - vm_compute. reflexivity.
  - eexists. split; [right; left; reflexivity | reflexivity].
  - vm_compute. reflexivity.
  - vm_compute. reflexivity.
Defined.

(** X15 -- A run on a returned table that has rows but no readable revenue
    (every revenue is NaN) does not render: it ends with a [ValueError]
    that nothing catches, raised when the KPIs are taken. *)
Theorem unreadable_revenue_stops_run (df t : DataFrame) (rev : list value) :
  parse_dataframe df = Ok t ->
  get_col t col_revenue = Ok rev ->
  rev <> [] ->
  Forall (fun v => is_na v = true) rev ->
  forall uploaded use_sample,
    load uploaded use_sample = Ok (df, t) ->
    exists e,
      dashboard uploaded use_sample = Uncaught e
      /\ extract_kpi t = Raise e
      /\ exn_class e = "ValueError".
Proof.
  intros H Hrev Hne Hna uploaded use_sample Hload.
  destruct (returned_parts df t rev H Hrev Hne)
    as ((range & Hrange) & (row & Hrow) & _).
  assert (Hk : extract_kpi t
               = Raise (ValueError "cannot convert float NaN to integer")).
  { unfold extract_kpi. rewrite Hrow, Hrev. cbn [bind].
    unfold idxmax. rewrite (first_best_all_na _ rev Hna).
    destruct rev; [contradiction | reflexivity]. }
  eexists. split; [| split; [exact Hk | reflexivity]].
  unfold dashboard. rewrite Hload, Hrange, Hk. reflexivity.
Qed.

Lemma unreadable_revenue_stops_run_witness :
  exists t,
    parse_dataframe unreadable_revenue = Ok t
    /\ exists e,
         dashboard (Some unreadable_revenue) false = Uncaught e
         /\ extract_kpi t = Raise e
         /\ exn_class e = "ValueError".
Proof.
  eexists. split; [vm_compute; reflexivity |].
  apply (unreadable_revenue_stops_run unreadable_revenue _
           [VFloat nan; VFloat nan]).
  - vm_compute. reflexivity.
  - reflexivity.
  - discriminate.
  - repeat constructor.
  - vm_compute. reflexivity.
Defined.

(** ** The highlighted rows of chart 3 *)

Lemma first_best_range (better : value -> value -> bool) (col : list value) :
  forall i r v,
    first_best better None i col = Some (r, v) ->
    i <= r < i + Z.of_nat (List.length col).
Proof.
  induction col as [| w col IH]; intros i r v H; [discriminate H |].
  cbn [first_best] in H. simpl List.length. destruct (is_na w).
  - apply IH in H. lia.
  - destruct (first_best_some better col (i, w) (i + 1))
      as (r' & v' & Hr & Hcase).
    rewrite Hr in H. inversion H; subst r' v'.
    destruct Hcase as [E | Hb]; [inversion E; subst |]; lia.
Qed.

Lemma idx_in_range (better : value -> value -> bool) (col : list value)
  (v : value) (i : Z) :
  match first_best better None 0 col with
  | Some (r, _) => Ok (VInt r)
  | None => Ok (VFloat nan)
  end = Ok v ->
  py_int v = Ok i ->
  0 <= i < Z.of_nat (List.length col).
Proof.
  destruct (first_best better None 0 col) as [[r w] |] eqn:E; intros Hv Hi;
    inversion Hv; subst v.
  - simpl in Hi. inversion Hi; subst i.
    apply first_best_range in E. lia.
  - discriminate Hi.
Qed.

Lemma extract_kpi_in_range (t : DataFrame) (rev : list value) (k : kpi) :
  get_col t col_revenue = Ok rev ->
  extract_kpi t = Ok k ->
  0 <= max_idx k < Z.of_nat (List.length rev)
  /\ 0 <= min_idx k < Z.of_nat (List.length rev).
Proof.
  intros Hrev H. unfold extract_kpi in H. rewrite Hrev in H.
  apply bind_Ok_inv in H. destruct H as (row & _ & H). cbn [bind] in H.
  apply bind_Ok_inv in H. destruct H as (v1 & Hv1 & H).
  apply bind_Ok_inv in H. destruct H as (i1 & Hi1 & H).
  apply bind_Ok_inv in H. destruct H as (v2 & Hv2 & H).
  apply bind_Ok_inv in H. destruct H as (i2 & Hi2 & H).
  apply bind_Ok_inv in H. destruct H as (tot & _ & H).
  inversion H. simpl. clear H.
  unfold idxmax in Hv1. unfold idxmin in Hv2.
  destruct rev as [| w rev]; [discriminate Hv1 |].
  split.
  - apply (idx_in_range _ _ _ _ Hv1 Hi1).
  - apply (idx_in_range _ _ _ _ Hv2 Hi2).
Qed.

(** X16 -- Whenever the KPIs of a returned table could be taken, the marker
    lists of chart 3 are built without an index error and have one entry
    per row: size 12 at the rows of the best and of the worst month and 6
    elsewhere; the worst month is red, the best month green unless it is
    also the worst (then red wins, being assigned last), and every other
    row has the line colour. *)
Theorem markers_highlight (df t : DataFrame) (rev : list value) (k : kpi) :
  parse_dataframe df = Ok t ->
  get_col t col_revenue = Ok rev ->
  extract_kpi t = Ok k ->
  markers t k
  = Ok (map (marker_size (max_idx k) (min_idx k)) (seq 0 (List.length rev)),
        map (marker_color (max_idx k) (min_idx k)) (seq 0 (List.length rev))).
Proof.
  intros H Hrev Hk.
  pose proof (returned_column_length df t _ _ H Hrev) as Hlen.
  destruct (extract_kpi_in_range t rev k Hrev Hk) as [Hmax Hmin].
  rewrite Hlen in Hmax, Hmin |- *.
  apply markers_in_range; assumption.
Qed.

Lemma markers_highlight_witness :
  exists t k,
    parse_dataframe whole_numbers = Ok t
    /\ extract_kpi t = Ok k
    /\ markers t k
       = Ok ([6; 12; 12], ["#1f77b4"; "#7bd389"; "#ff6b6b"]).
Proof.
  eexists. eexists.
  split; [vm_compute; reflexivity |].
  match goal with |- extract_kpi ?T = _ /\ _ => pose (t := T) end.
  split; [vm_compute; reflexivity |].
  apply (markers_highlight whole_numbers t [VInt 700; VInt 1500; VInt 0]).
  - vm_compute. reflexivity.
  - reflexivity.
  - vm_compute. reflexivity.
Defined.

(** ** Normalising a normalised table *)

Lemma digit_not_space (c : ascii) : is_digit c = true -> is_space c = false.
Proof.
  intros H. apply is_digit_cases in H. simpl in H.
  intuition (subst; reflexivity).
Qed.

Lemma strip_period (p : string) : is_period p -> strip p = p.
Proof.
  intros (y1 & y2 & y3 & y4 & m1 & m2 & -> & H1 & H2 & H3 & H4 & H5 & H6).
  unfold strip. cbn [lstrip]. rewrite (digit_not_space y1 H1).
  cbn [rstrip]. rewrite (digit_not_space m2 H6). reflexivity.
Qed.

Lemma sort_keys_sorted_id (l : list (string * nat)) :
  StronglySorted key_le l -> sort_keys l = l.
Proof.
  induction 1 as [| x l Hs IH Hall]; [reflexivity |].
  unfold sort_keys in *. cbn [fold_right]. rewrite IH.
  destruct l as [| y l']; [reflexivity |]. cbn [insert_key].
  inversion Hall as [| ? ? Hxy _]; subst.
  unfold key_le, str_le in Hxy. rewrite Hxy. reflexivity.
Qed.

Lemma combine_seq_sorted (ps : list string) :
  StronglySorted str_le ps ->
  forall a, StronglySorted key_le (combine ps (seq a (List.length ps))).
Proof.
  induction 1 as [| p ps Hs IH Hall]; intros a; simpl; constructor.
  - apply IH.
  - apply Forall_forall. intros [q i] Hin. unfold key_le. simpl.
    rewrite Forall_forall in Hall. apply Hall.
    apply (in_combine_l _ _ _ _ Hin).
Qed.

Lemma argsort_sorted (ps : list string) :
  StronglySorted str_le ps -> argsort ps = seq 0 (List.length ps).
Proof.
  intros H. unfold argsort.
  rewrite (sort_keys_sorted_id _ (combine_seq_sorted ps H 0)).
  apply map_snd_combine_seq.
Qed.

Lemma set_col_same (df : DataFrame) (c : string) (col : list value) :
  lookup df c = Some col -> set_col df c col = df.
Proof.
  induction df as [| [k v] df IH]; simpl; [discriminate |].
  destruct (String.eqb k c) eqn:E; intros H.
  - apply String.eqb_eq in E. inversion H; subst. reflexivity.
  - rewrite (IH H). reflexivity.
Qed.

Lemma take_all (col : list value) :
  take (seq 0 (List.length col)) col = col.
Proof. unfold take. apply map_nth_seq. Qed.

Lemma sorted_frame_all (df : DataFrame) (n : nat) :
  Forall (fun cc : string * list value => List.length (snd cc) = n) df ->
  sorted_frame df (seq 0 n) = df.
Proof.
  induction 1 as [| [c col] df Hc Hdf IH]; [reflexivity |].
  simpl in *. rewrite IH, <- Hc, take_all. reflexivity.
Qed.

(** X17 -- [parse_dataframe] returns a table it no longer changes: applied
    to a table it has returned, whose periods are all different, it returns
    the very same table, as long as the numeric cells read back from their
    own text ([astype(str)] and the numeric coercion give the cell again),
    which whole numbers always do. *)
Theorem normalising_twice (df t : DataFrame) (periods : list string)
  (rev pri chg : list value) :
  parse_dataframe df = Ok t ->
  get_col t col_month = Ok (map VStr periods) ->
  NoDup periods ->
  get_col t col_revenue = Ok rev ->
  get_col t col_prior = Ok pri ->
  get_col t col_change = Ok chg ->
  clean_numbers rev = rev ->
  clean_numbers pri = pri ->
  clean_numbers chg = chg ->
  parse_dataframe t = Ok t.
Proof.
  intros H _ _ Hrev Hpri Hchg Srev Spri Schg.
  destruct (parse_dataframe_Ok df t H) as (mon0 & rev0 & cum & months & N).
  pose proof (nf_month _ _ _ _ _ _ N) as Hmon.
  pose proof (nf_cumulative _ _ _ _ _ _ N) as Hcum.
  pose proof (nf_month_number _ _ _ _ _ _ N) as Hnum.
  pose proof (nf_revenue _ _ _ _ _ _ N) as Hrev0.
  pose proof (nf_months _ _ _ _ _ _ N) as Hmonths.
  rewrite Hrev in Hrev0. inversion Hrev0 as [Erev].
  set (ps := sorted_periods (trimmed mon0)) in *.
  assert (Hper : Forall is_period ps).
  { pose proof (nf_valid _ _ _ _ _ _ N) as Hv. rewrite forallb_forall in Hv.
    apply Forall_forall. intros p Hp.
    apply (Permutation_in _ (sorted_periods_perm _)) in Hp.
    pose proof (Hv p Hp) as Hmatch.
    unfold trimmed in Hp. apply in_map_iff in Hp.
    destruct Hp as (v & <- & _).
    apply match_period_stripped. exact Hmatch. }
  assert (Htrim : trimmed (map VStr ps) = ps).
  { unfold trimmed. rewrite map_map. cbn [py_str].
    rewrite <- (map_id ps) at 2. apply map_ext_in. intros p Hp.
    rewrite Forall_forall in Hper. apply strip_period, Hper, Hp. }
  assert (Hvalid : forallb match_period ps = true).
  { apply forallb_forall. intros p Hp. rewrite Forall_forall in Hper.
    apply is_period_match, Hper, Hp. }
  assert (Hord : argsort ps = seq 0 (List.length ps))
    by apply argsort_sorted, sorted_periods_sorted.
  pose proof (returned_column_length df t _ _ H Hmon) as Lmon.
  rewrite length_map in Lmon.
  pose proof (returned_column_length df t _ _ H Hrev) as Lrev.
  assert (Hall : Forall (fun cc : string * list value =>
                           List.length (snd cc) = List.length ps) t).
  { destruct (parse_dataframe_normalized df t H)
      as (mon & _ & _ & _ & _ & _ & Hm & _).
    assert (Hmon1 : get_col df col_month = Ok mon)
      by (unfold get_col; rewrite Hm; reflexivity).
    destruct (returned_rows df t mon H Hmon1) as [Hall Hlen].
    rewrite Lmon, Hlen. exact Hall. }
  apply get_col_Ok in Hmon, Hrev, Hpri, Hchg, Hcum, Hnum.
  rewrite (parse_dataframe_present t _ _ _ _ Hmon Hrev Hpri Hchg).
  rewrite Htrim, Hvalid. cbv zeta.
  assert (T1 : take (seq 0 (List.length ps)) rev = rev).
  { replace (List.length ps) with (List.length rev) by lia. apply take_all. }
  assert (T2 : take (seq 0 (List.length ps)) (map VStr ps) = map VStr ps).
  { rewrite <- (length_map VStr ps) at 1. apply take_all. }
  rewrite Hord, Srev, T1, T2.
  assert (Ecum : compute_cum rev = Ok cum).
  { rewrite Erev. exact (nf_cum _ _ _ _ _ _ N). }
  rewrite Ecum. cbn [bind].
  rewrite Hmonths. cbn [bind].
  f_equal. unfold normalized, coerced.
  rewrite Srev, Spri, Schg, Htrim, Hord.
  rewrite (set_col_same t col_revenue rev Hrev).
  rewrite (set_col_same t col_prior pri Hpri).
  rewrite (set_col_same t col_change chg Hchg).
  rewrite (set_col_same t col_month _ Hmon).
  rewrite (sorted_frame_all t _ Hall).
  rewrite (set_col_same t col_cumulative cum Hcum).
  apply (set_col_same t col_month_number months Hnum).
Qed.

Lemma normalising_twice_witness :
  exists t,
    parse_dataframe whole_numbers = Ok t
    /\ parse_dataframe t = Ok t.
Proof.
  eexists. split; [vm_compute; reflexivity |].
  match goal with |- parse_dataframe ?T = _ => pose (t := T) end.
  refine (normalising_twice whole_numbers t
            ["2024-01"; "2024-02"; "2024-03"]
            (clean_numbers [VStr "700"; VStr "1,500"; VStr "0"])
            (clean_numbers [VInt 2; VInt 1; VInt 3])
            (clean_numbers [VStr "-2"; VStr "1.5"; VStr "0"])
            _ _ _ _ _ _ _ _ _);
    try (vm_compute; reflexivity).
  repeat constructor; simpl; intuition discriminate.
Defined.

(** ** What the KPI tiles show *)

Lemma extract_kpi_last (t : DataFrame) (k : kpi) :
  extract_kpi t = Ok k -> row_iloc t (-1) = Ok (last k).
Proof.
  intros H. unfold extract_kpi in H.
  apply bind_Ok_inv in H. destruct H as (row & Hrow & H).
  repeat inv_bind H. inversion H. simpl. exact Hrow.
Qed.

Lemma loc_nth (df : DataFrame) (c : string) (col : list value) (i : Z) :
  get_col df c = Ok col ->
  0 <= i < Z.of_nat (List.length col) ->
  loc df i c = Ok (nth (Z.to_nat i) col (VFloat nan)).
Proof.
  intros Hc Hi. unfold loc. rewrite Hc. cbn [bind].
  replace ((0 <=? i) && (i <? Z.of_nat (List.length col))) with true
    by (symmetry; apply andb_true_iff; split;
        [apply Z.leb_le | apply Z.ltb_lt]; lia).
  reflexivity.
Qed.

Lemma nth_periods (ps : list string) (i : nat) :
  (i < List.length ps)%nat ->
  nth i (map VStr ps) (VFloat nan) = VStr (nth i ps EmptyString).
Proof.
  intros Hi.
  rewrite (nth_indep _ (VFloat nan) (VStr EmptyString))
    by (rewrite length_map; exact Hi).
  apply (map_nth VStr).
Qed.

(** X18 -- The KPI tiles of a returned table show its data: tile 1 the
    revenue and the period of the last row, tile 2 the change rate of the
    last row as [fmt_pct] writes it, tile 3 the total and the span from the
    first to the last period, tile 4 the periods and the revenues of the
    rows [max_idx] and [min_idx]. *)
Theorem tiles_show (df t : DataFrame) (periods : list string)
  (rev chg : list value) (k : kpi) (tl : tiles) :
  parse_dataframe df = Ok t ->
  get_col t col_month = Ok (map VStr periods) ->
  get_col t col_revenue = Ok rev ->
  get_col t col_change = Ok chg ->
  extract_kpi t = Ok k ->
  render_tiles t k = Ok tl ->
  let final := (List.length periods - 1)%nat in
  let best := Z.to_nat (max_idx k) in
  let worst := Z.to_nat (min_idx k) in
  k1 tl = (fmt_money (nth final rev (VFloat nan)) +++ " 원",
           nth final periods EmptyString +++ " 기준")
  /\ k2 tl = pct_text (nth final chg (VFloat nan))
  /\ k3 tl = (fmt_money (VInt (total k)) +++ " 원",
              nth 0 periods EmptyString +++ " ~ "
                +++ nth final periods EmptyString)
  /\ k4 tl = (nth best periods EmptyString +++ " / "
                +++ nth worst periods EmptyString,
              "최고 " +++ fmt_money (nth best rev (VFloat nan)) +++ " · 최저 "
                +++ fmt_money (nth worst rev (VFloat nan))).
Proof.
  intros H Hmon Hrev Hchg Hk Htl final best worst.
  pose proof (extract_kpi_last t k Hk) as Hrow.
  assert (Hne : rev <> []).
  { intros E. apply (extract_kpi_rows t rev k Hrev Hk E). }
  pose proof (returned_column_length df t _ _ H Hmon) as Lmon.
  pose proof (returned_column_length df t _ _ H Hrev) as Lrev.
  pose proof (returned_column_length df t _ _ H Hchg) as Lchg.
  rewrite length_map in Lmon.
  assert (Hpos : (0 < List.length rev)%nat)
    by (destruct rev; [contradiction | simpl; lia]).
  assert (Nmon : map VStr periods <> [])
    by (apply not_nil_length; rewrite length_map; lia).
  assert (Nchg : chg <> []) by (apply not_nil_length; lia).
  destruct (extract_kpi_in_range t rev k Hrev Hk) as [Bmax Bmin].
  destruct (row_iloc_get t (-1) _ col_revenue rev Hrow Hrev) as (v1 & I1 & G1).
  destruct (row_iloc_get t (-1) _ col_month _ Hrow Hmon) as (v2 & I2 & G2).
  destruct (row_iloc_get t (-1) _ col_change chg Hrow Hchg) as (v3 & I3 & G3).
  rewrite (iloc_last _ Hne) in I1. inversion I1; subst v1.
  rewrite (iloc_last _ Nmon), length_map in I2. inversion I2; subst v2.
  rewrite (iloc_last _ Nchg) in I3. inversion I3; subst v3.
  assert (Hnum : Forall is_number chg).
  { destruct (returned_numbers df t col_change H) as (col & Hcol & Hn);
      [simpl; tauto |].
    rewrite Hchg in Hcol. inversion Hcol; subst col. exact Hn. }
  assert (Hpct : fmt_pct (nth (List.length chg - 1) chg (VFloat nan))
                 = Ok (pct_text (nth (List.length chg - 1) chg (VFloat nan)))).
  { apply fmt_pct_number. rewrite Forall_forall in Hnum.
    apply Hnum, nth_In. lia. }
  assert (Hrange : date_range t
                   = Ok (nth 0 periods EmptyString +++ " ~ "
                           +++ nth final periods EmptyString)).
  { unfold date_range. rewrite Hmon. cbn [bind].
    rewrite (iloc_first _ Nmon), (iloc_last _ Nmon), length_map. cbn [bind].
    rewrite !nth_periods by lia. reflexivity. }
  unfold render_tiles in Htl.
  rewrite G1, G2, G3 in Htl. cbn [bind] in Htl.
  rewrite Hpct, Hrange in Htl. cbn [bind] in Htl.
  rewrite (loc_nth t col_month _ _ Hmon) in Htl
    by (rewrite length_map; lia).
  rewrite (loc_nth t col_month _ _ Hmon) in Htl
    by (rewrite length_map; lia).
  rewrite (loc_nth t col_revenue _ _ Hrev Bmax) in Htl.
  rewrite (loc_nth t col_revenue _ _ Hrev Bmin) in Htl.
  cbn [bind] in Htl. inversion Htl. cbn [k1 k2 k3 k4].
  rewrite !nth_periods by lia. cbn [py_str].
  replace (List.length rev - 1)%nat with final by (unfold final; lia).
  replace (List.length chg - 1)%nat with final by (unfold final; lia).
  auto.
Qed.

Lemma tiles_show_witness :
  exists t k tl,
    parse_dataframe mixed_rates = Ok t
    /\ extract_kpi t = Ok k
    /\ render_tiles t k = Ok tl
    /\ k1 tl = ("101 원", "2024-04 기준")
    /\ k2 tl = "0.0%"
    /\ k3 tl = ("395 원", "2024-01 ~ 2024-04")
    /\ k4 tl = ("2024-04 / 2024-02", "최고 101 · 최저 97").
Proof.
  eexists. eexists. eexists.
  split; [vm_compute; reflexivity |].
  match goal with |- extract_kpi ?T = _ /\ _ => pose (t := T) end.
  split; [vm_compute; reflexivity |].
  match goal with |- render_tiles _ ?K = _ /\ _ => pose (k := K) end.
  split; [vm_compute; reflexivity |].
  match goal with |- k1 ?T = _ /\ _ => pose (tl := T) end.
  refine (tiles_show mixed_rates t
            ["2024-01"; "2024-02"; "2024-03"; "2024-04"]
            [VInt 100; VInt 97; VInt 97; VInt 101]
            (clean_numbers [VStr "11.1"; VStr "-3.2"; VStr "?"; VStr "0"])
            k tl _ _ _ _ _ _);
    vm_compute; reflexivity.
Defined.

(** ** The order of the rows of the raw table *)

Lemma nth_map_in_range {A B : Type} (f : A -> B) (l : list A) (d : A) (d' : B)
  (i : nat) :
  (i < List.length l)%nat -> nth i (map f l) d' = f (nth i l d).
Proof.
  intros Hi. rewrite (nth_indep _ d' (f d)) by (rewrite length_map; exact Hi).
  apply map_nth.
Qed.

Lemma perm_seq_bound (order : list nat) (n i : nat) :
  Permutation order (seq 0 n) -> In i order -> (i < n)%nat.
Proof.
  intros P Hi. apply (Permutation_in _ P) in Hi. apply in_seq in Hi. lia.
Qed.

Lemma perm_seq_length (order : list nat) (n : nat) :
  Permutation order (seq 0 n) -> List.length order = n.
Proof. intros P. rewrite (Permutation_length P). apply length_seq. Qed.

Lemma map_nth_perm {A : Type} (l : list A) (d : A) (order : list nat) :
  Permutation order (seq 0 (List.length l)) ->
  Permutation (map (fun i => nth i l d) order) l.
Proof.
  intros P. rewrite (Permutation_map _ P), map_nth_seq. reflexivity.
Qed.

Lemma forallb_perm_eq {A : Type} (f : A -> bool) (l l' : list A) :
  Permutation l l' -> forallb f l = forallb f l'.
Proof.
  induction 1 as [| x l l' P IH | x y l | l l' l'' P1 IH1 P2 IH2]; simpl.
  - reflexivity.
  - rewrite IH. reflexivity.
  - destruct (f x), (f y); reflexivity.
  - congruence.
Qed.

Lemma trimmed_take (order : list nat) (mon : list value) :
  (forall i, In i order -> (i < List.length mon)%nat) ->
  trimmed (take order mon)
  = map (fun i => nth i (trimmed mon) EmptyString) order.
Proof.
  intros H. unfold trimmed, take. rewrite map_map.
  apply map_ext_in. intros i Hi. symmetry.
  apply (nth_map_in_range (fun v => strip (py_str v))). apply H, Hi.
Qed.

Lemma periods_take (order : list nat) (ps : list string) :
  (forall i, In i order -> (i < List.length ps)%nat) ->
  map VStr (map (fun i => nth i ps EmptyString) order)
  = take order (map VStr ps).
Proof.
  intros H. unfold take. rewrite map_map.
  apply map_ext_in. intros i Hi. symmetry.
  apply (nth_map_in_range VStr). apply H, Hi.
Qed.

Lemma to_numeric_take (order : list nat) (col : list value) :
  Permutation order (seq 0 (List.length col)) ->
  Numeric.to_numeric (take order col) = take order (Numeric.to_numeric col).
Proof.
  intros P. unfold Numeric.to_numeric, take.
  assert (Hs : map Numeric.read_scalar (map (fun i => nth i col (VFloat nan))
                                          order)
               = map (fun i => nth i (map Numeric.read_scalar col) None) order).
  { rewrite map_map. apply map_ext_in. intros i Hi. symmetry.
    apply (nth_map_in_range Numeric.read_scalar).
    apply (perm_seq_bound _ _ _ P Hi). }
  rewrite Hs.
  assert (Hp : Permutation
                 (map (fun i => nth i (map Numeric.read_scalar col) None) order)
                 (map Numeric.read_scalar col)).
  { apply map_nth_perm. rewrite length_map. exact P. }
  rewrite (forallb_perm_eq _ _ _ Hp).
  destruct (forallb Numeric.is_int (map Numeric.read_scalar col));
    rewrite map_map; apply map_ext_in; intros i Hi; symmetry;
    apply (nth_map_in_range
             (fun o => _ : value) (map Numeric.read_scalar col) None);
    rewrite length_map; apply (perm_seq_bound _ _ _ P Hi).
Qed.

Lemma clean_numbers_take (order : list nat) (col : list value) :
  Permutation order (seq 0 (List.length col)) ->
  clean_numbers (take order col) = take order (clean_numbers col).
Proof.
  intros P. unfold clean_numbers.
  assert (Hm : map (fun v => VStr (clean_text v)) (take order col)
               = take order (map (fun v => VStr (clean_text v)) col)).
  { unfold take. rewrite map_map. apply map_ext_in. intros i Hi. symmetry.
    apply (nth_map_in_range (fun v => VStr (clean_text v))).
    apply (perm_seq_bound _ _ _ P Hi). }
  rewrite Hm. apply to_numeric_take. rewrite length_map. exact P.
Qed.

Lemma set_col_rows_taken (df : DataFrame) (order : list nat) (c : string)
  (col : list value) :
  set_col (sorted_frame df order) c (take order col)
  = sorted_frame (set_col df c col) order.
Proof.
  induction df as [| [k v] df IH]; simpl; [reflexivity |].
  destruct (String.eqb k c); simpl; [| rewrite IH]; reflexivity.
Qed.

Lemma take_take (order' order : list nat) (col : list value) :
  (forall j, In j order' -> (j < List.length order)%nat) ->
  take order' (take order col)
  = take (map (fun j => nth j order O) order') col.
Proof.
  intros H. unfold take. rewrite map_map.
  apply map_ext_in. intros j Hj.
  apply (nth_map_in_range (fun i => nth i col (VFloat nan))). apply H, Hj.
Qed.

Lemma sorted_frame_twice (df : DataFrame) (order' order : list nat) :
  (forall j, In j order' -> (j < List.length order)%nat) ->
  sorted_frame (sorted_frame df order) order'
  = sorted_frame df (map (fun j => nth j order O) order').
Proof.
  intros H. unfold sorted_frame. rewrite map_map.
  apply map_ext. intros [c col]. rewrite (take_take _ _ _ H). reflexivity.
Qed.

Lemma str_lt_asym (a b : string) : str_lt a b -> str_lt b a -> False.
Proof.
  unfold str_lt, String.ltb. rewrite (String.compare_antisym a b).
  destruct (String.compare b a); simpl; intros H1 H2;
    first [discriminate H1 | discriminate H2].
Qed.

Lemma strictly_sorted_unique (l : list string) :
  StronglySorted str_lt l ->
  forall l', StronglySorted str_lt l' -> Permutation l l' -> l = l'.
Proof.
  induction 1 as [| x l Hs IH Hall]; intros l' Hs' P.
  - apply Permutation_nil in P. symmetry. exact P.
  - destruct l' as [| y l'].
    + apply Permutation_sym, Permutation_nil in P. discriminate P.
    + inversion Hs' as [| ? ? Hs'' Hall']; subst.
      rewrite Forall_forall in Hall, Hall'.
      assert (E : x = y).
      { assert (Hx : In x (y :: l'))
          by (apply (Permutation_in _ P); left; reflexivity).
        assert (Hy : In y (x :: l))
          by (apply (Permutation_in _ (Permutation_sym P)); left;
              reflexivity).
        destruct Hx as [Hx | Hx]; [congruence |].
        destruct Hy as [Hy | Hy]; [congruence |].
        exfalso. apply (str_lt_asym x y); [apply Hall, Hy | apply Hall', Hx]. }
      subst y. f_equal. apply IH; [exact Hs'' |].
      apply (Permutation_cons_inv P).
Qed.

Lemma map_inj_in {A B : Type} (f : A -> B) (l : list A) :
  forall l',
    (forall a b, In a l -> In b l' -> f a = f b -> a = b) ->
    map f l = map f l' -> l = l'.
Proof.
  induction l as [| a l IH]; intros [| b l'] Hinj H; simpl in H;
    try discriminate H; [reflexivity |].
  inversion H as [[Hab Hl]]. f_equal.
  - apply Hinj; simpl; auto.
  - apply IH; [| exact Hl]. intros x y Hx Hy. apply Hinj; simpl; auto.
Qed.

Lemma sorted_periods_reordered (ps : list string) (order : list nat) :
  NoDup ps ->
  Permutation order (seq 0 (List.length ps)) ->
  sorted_periods (map (fun i => nth i ps EmptyString) order)
  = sorted_periods ps.
Proof.
  intros Hnd P.
  pose proof (map_nth_perm ps EmptyString order P) as Hperm.
  set (ps' := map (fun i => nth i ps EmptyString) order) in *.
  assert (Hp : Permutation (sorted_periods ps') (sorted_periods ps)).
  { rewrite (sorted_periods_perm ps'), Hperm.
    symmetry. apply sorted_periods_perm. }
  apply strictly_sorted_unique; [| | exact Hp].
  - apply strongly_sorted_strict; [apply sorted_periods_sorted |].
    apply (Permutation_NoDup (l := ps)); [| exact Hnd].
    symmetry. rewrite (sorted_periods_perm ps'). exact Hperm.
  - apply strongly_sorted_strict; [apply sorted_periods_sorted |].
    apply (Permutation_NoDup (l := ps)); [| exact Hnd].
    symmetry. apply sorted_periods_perm.
Qed.

Lemma argsort_reordered (ps : list string) (order : list nat) :
  NoDup ps ->
  Permutation order (seq 0 (List.length ps)) ->
  map (fun j => nth j order O)
    (argsort (map (fun i => nth i ps EmptyString) order))
  = argsort ps.
Proof.
  intros Hnd P.
  pose proof (perm_seq_length _ _ P) as Hlen.
  set (ps' := map (fun i => nth i ps EmptyString) order).
  assert (Hlen' : List.length ps' = List.length order)
    by (unfold ps'; apply length_map).
  apply (map_inj_in (fun i => nth i ps EmptyString)).
  - intros a b Ha Hb Hab.
    apply in_map_iff in Ha. destruct Ha as (j & <- & Hj).
    apply argsort_bound in Hj. rewrite Hlen' in Hj.
    apply argsort_bound in Hb.
    rewrite (NoDup_nth ps EmptyString) in Hnd. apply Hnd.
    + apply (perm_seq_bound _ _ _ P). apply nth_In. exact Hj.
    + exact Hb.
    + exact Hab.
  - rewrite map_map, <- sorted_periods_nth.
    rewrite <- (sorted_periods_reordered ps order Hnd P). fold ps'.
    rewrite sorted_periods_nth. apply map_ext_in. intros j Hj.
    apply argsort_bound in Hj. rewrite Hlen' in Hj. symmetry.
    unfold ps'. apply (nth_map_in_range (fun i => nth i ps EmptyString)).
    exact Hj.
Qed.

(** X19 -- The order of the rows of the raw table does not matter when its
    periods are all different: [parse_dataframe] returns the same table for
    the raw table and for the raw table with its rows in any other order. *)
Theorem row_order_irrelevant (df t : DataFrame) (mon : list value)
  (order : list nat) :
  parse_dataframe df = Ok t ->
  get_col df col_month = Ok mon ->
  rectangular df ->
  NoDup (trimmed mon) ->
  Permutation order (seq 0 (List.length mon)) ->
  parse_dataframe (rows_taken df order) = Ok t.
Proof.
  intros H Hmon Hrect Hnd P.
  destruct (parse_dataframe_normalized df t H)
    as (mon' & rev & pri & chg & cum & months
        & Hm & Hr & Hp & Hc & Hv & Hcum & Hmonths & ->).
  apply get_col_Ok in Hmon. rewrite Hmon in Hm. inversion Hm; subst mon'.
  clear Hm.
  pose proof (rectangular_lookup df _ _ Hrect Hmon) as Lmon.
  pose proof (rectangular_lookup df _ _ Hrect Hr) as Lrev.
  pose proof (rectangular_lookup df _ _ Hrect Hp) as Lpri.
  pose proof (rectangular_lookup df _ _ Hrect Hc) as Lchg.
  assert (Prev : Permutation order (seq 0 (List.length rev)))
    by (rewrite Lrev, <- Lmon; exact P).
  assert (Ppri : Permutation order (seq 0 (List.length pri)))
    by (rewrite Lpri, <- Lmon; exact P).
  assert (Pchg : Permutation order (seq 0 (List.length chg)))
    by (rewrite Lchg, <- Lmon; exact P).
  assert (Ltrim : List.length (trimmed mon) = List.length mon)
    by (unfold trimmed; apply length_map).
  assert (Ptrim : Permutation order (seq 0 (List.length (trimmed mon))))
    by (rewrite Ltrim; exact P).
  assert (Hb : forall i, In i order -> (i < List.length mon)%nat)
    by (intros i; apply (perm_seq_bound _ _ _ P)).
  change (rows_taken df order) with (sorted_frame df order).
  rewrite (parse_dataframe_present (sorted_frame df order)
             (take order mon) (take order rev) (take order pri)
             (take order chg));
    try (rewrite lookup_sorted_frame;
         first [rewrite Hmon | rewrite Hr | rewrite Hp | rewrite Hc];
         reflexivity).
  rewrite (trimmed_take order mon Hb).
  set (ps' := map (fun i => nth i (trimmed mon) EmptyString) order).
  assert (Hv' : forallb match_period ps' = true).
  { apply (forallb_perm _ _ (trimmed mon)); [| exact Hv].
    apply map_nth_perm. exact Ptrim. }
  assert (Hin : forall j, In j (argsort ps') -> (j < List.length order)%nat).
  { intros j Hj. apply argsort_bound in Hj. unfold ps' in Hj.
    rewrite length_map in Hj. exact Hj. }
  rewrite Hv'. cbv zeta.
  rewrite (clean_numbers_take order rev Prev).
  rewrite (take_take _ _ _ Hin).
  unfold ps' at 1. rewrite (argsort_reordered _ _ Hnd Ptrim).
  rewrite Hcum. cbn [bind].
  rewrite take_argsort_periods.
  unfold ps' at 1. rewrite (sorted_periods_reordered _ _ Hnd Ptrim).
  rewrite Hmonths. cbn [bind].
  f_equal. unfold normalized, coerced.
  rewrite (clean_numbers_take order rev Prev).
  rewrite (clean_numbers_take order pri Ppri).
  rewrite (clean_numbers_take order chg Pchg).
  rewrite (trimmed_take order mon Hb). fold ps'.
  unfold ps' at 1.
  rewrite (periods_take order (trimmed mon))
    by (intros i Hi; rewrite Ltrim; apply Hb, Hi).
  rewrite !set_col_rows_taken.
  rewrite (sorted_frame_twice _ _ _ Hin).
  unfold ps'. rewrite (argsort_reordered _ _ Hnd Ptrim).
  reflexivity.
Qed.

Lemma row_order_irrelevant_witness :
  exists t,
    parse_dataframe shuffled = Ok t
    /\ parse_dataframe (rows_taken shuffled [2; 0; 1]%nat) = Ok t.
Proof.
  eexists. split; [vm_compute; reflexivity |].
  apply (row_order_irrelevant shuffled _
           [VStr "2024-03 "; VStr "2023-12"; VStr " 2024-01"]).
  - vm_compute. reflexivity.
  - reflexivity.
  - repeat constructor.
  - repeat constructor; simpl; intuition discriminate.
  - simpl. apply Permutation_sym.
    apply (perm_trans (l' := [0; 2; 1]%nat)).
    + apply perm_skip, perm_swap.
    + apply (perm_trans (l' := [2; 0; 1]%nat)); [apply perm_swap |].
      reflexivity.
Defined.
